(** * Probabilistic pharmacokinetics: the Gillespie simulators

    A shallow embedding of the two stochastic simulators of the repository,

    - [Fundamentals]: the hard-coded two-compartment (Heart, Lung) model of
      Atelier-Probabilistic-Pharmacokinetics-Fundamentals, and
    - [VitalOrgan]: the five-compartment model of
      Atelier-Probabilistic-Pharmacokinetics-Vital-Organ-Model, whose loop
      works over a dictionary of counts and a list of reactions,

    and the properties of their trajectories; with them, the differential
    equations of Atelier-Pharmacokinetics-Fundamentals ([Deterministic]) and
    the final counts the two stochastic scripts print.

    Numbers.  Molecule counts are Python integers ([Z]).  Rate constants, the
    horizon, the random draws, the propensities and the clock are Python
    floats and numpy float64 scalars: IEEE binary64 numbers, here the
    primitive floats of the kernel, whose operations round, overflow to an
    infinity and underflow to zero as the hardware does.  A Python [int] that
    meets a float in a product is first converted to the nearest float, and
    [OverflowError] is raised when there is no finite one.

    Randomness and the logarithm.  [np.random.random()] is called twice per
    iteration, first for [r1] and then for [r2].  [np.log] is a function of
    the C library that the logic does not have: a run is a function of the
    list of the draws it is given, each with [r1], the float [np.log(r1)]
    that was returned for it, and [r2].  A run that needs more draws than it
    was given stops as [Pending], with the trajectory recorded so far.

    Python's [sum] adds from the left, as CPython does up to version 3.11. *)

From stdpp Require Import gmap strings list fin_maps.
From Stdlib Require Import Lia ZArith Floats.

Local Open Scope Z_scope.

(** ** IEEE binary64 *)

(** The order and the equality of floats, as propositions: [nan] compares
    false with everything, and the two zeros are equal. *)
Definition flt (x y : float) : Prop := Is_true (x <? y)%float.
Definition fle (x y : float) : Prop := Is_true (x <=? y)%float.
Definition feq (x y : float) : Prop := Is_true (x =? y)%float.

(** Not below zero: a zero of either sign, a positive number, [+inf] or
    [nan]. *)
Definition not_negative (x : float) : Prop := ~ flt x 0.

(** Finite: neither an infinity nor [nan]. *)
Definition finite (x : float) : Prop := flt (abs x) infinity.

(** The float nearest to an integer (ties to even). *)
Definition nearest_float (n : Z) : float :=
  SF2Prim (binary_normalize prec emax n 0 false).

(** A draw of [np.random.random()] lies in the half-open interval [0, 1). *)
Definition unit_interval (r : float) : Prop := fle 0 r /\ flt r 1.

(** What [np.log] returns at a draw of [0, 1): [-inf] at [0.0] (numpy warns
    and does not raise), and a finite negative number elsewhere. *)
Definition np_log_at (r l : float) : Prop :=
  (feq r 0 -> l = neg_infinity) /\
  (flt 0 r -> flt neg_infinity l /\ flt l 0).

(** The draws of one iteration. *)
Record draw : Type := Draw {
  r1 : float;
  log_r1 : float;
  r2 : float
}.

Definition valid_draw (d : draw) : Prop :=
  unit_interval (r1 d) /\ np_log_at (r1 d) (log_r1 d) /\
  unit_interval (r2 d).

(** ** Exceptions and the result of a run *)

(** The Python exceptions the modelled code can raise, by class. *)
Inductive exn : Type :=
  | KeyError
  | IndexError
  | OverflowError.

Inductive result (A : Type) : Type :=
  | Ok (a : A)
  | Err (e : exn).
Arguments Ok {A} a.
Arguments Err {A} e.

#[global] Instance result_ret : MRet result := fun A a => Ok a.
#[global] Instance result_bind : MBind result := fun A B f m =>
  match m with
  | Ok a => f a
  | Err e => Err e
  end.

(** [d[key]] on a dictionary. *)
Definition getitem {V : Type} (d : gmap string V) (key : string) : result V :=
  match d !! key with
  | Some v => Ok v
  | None => Err KeyError
  end.

(** The conversion of the [int] operand of [float * int]: the nearest
    float, and [OverflowError] when that is an infinity. *)
Definition float_of_int (n : Z) : result float :=
  let x := nearest_float n in
  if is_infinity x then Err OverflowError else Ok x.

(** [rate * n], a float times an [int]. *)
Definition mul_int (rate : float) (n : Z) : result float :=
  x ← float_of_int n;
  Ok (rate * x)%float.

(** How a call of a simulator ends: it returns, it raises, or the model ran
    out of the draws it was given ([Pending]) with the state reached then. *)
Inductive outcome (A : Type) : Type :=
  | Returned (a : A)
  | Pending (a : A)
  | Raised (e : exn).
Arguments Returned {A} a.
Arguments Pending {A} a.
Arguments Raised {A} e.

Definition outcome_map {A B : Type} (f : A -> B) (o : outcome A) : outcome B :=
  match o with
  | Returned a => Returned (f a)
  | Pending a => Pending (f a)
  | Raised e => Raised e
  end.

(** The value a run carries, returned or pending. *)
Definition carried {A : Type} (o : outcome A) : option A :=
  match o with
  | Returned a | Pending a => Some a
  | Raised _ => None
  end.

(** Python's [sum] over a list of floats: it adds from the left, starting
    at the integer 0, which the first addition converts to [0.0]. *)
Definition py_sum (xs : list float) : float := foldl PrimFloat.add 0%float xs.

(** * The two-compartment simulator *)

Module Fundamentals.

(** The local variables of [simulate_stochastic_pk_model] that live across
    iterations. *)
Record locals : Type := Locals {
  t : float;
  n1 : Z;
  n2 : Z;
  times : list float;
  n1_values : list Z;
  n2_values : list Z
}.

(** Lines 18-24. *)
Definition initial (D : Z) : locals :=
  {| t := 0%float; n1 := D; n2 := 0;
     times := [0%float]; n1_values := [D]; n2_values := [0] |}.

(** Lines 44-52: which reaction occurs. *)
Definition react (r2 a0 a1 : float) (c : Z * Z) : Z * Z :=
  if (r2 * a0 <? a1)%float then (c.1 - 1, c.2 + 1) else (c.1 + 1, c.2 - 1).

(** Lines 54-56. *)
Definition clamp (c : Z * Z) : Z * Z := (Z.max c.1 0, Z.max c.2 0).

(** Lines 40-41: [-np.log(r1) / a0], from the logarithm of the draw. *)
Definition waiting_time (log_r1 a0 : float) : float := (- log_r1 / a0)%float.

(** Lines 36-61: the part of an iteration after the test of [a0]. *)
Definition event (a0 a1 : float) (d : draw) (s : locals) : locals :=
  let dt := waiting_time (log_r1 d) a0 in
  let t' := (t s + dt)%float in
  let c := clamp (react (r2 d) a0 a1 (n1 s, n2 s)) in
  {| t := t'; n1 := c.1; n2 := c.2;
     times := times s ++ [t'];
     n1_values := n1_values s ++ [c.1];
     n2_values := n2_values s ++ [c.2] |}.

(** Lines 29-30: the propensities of Heart to Lung and of Lung to Heart. *)
Definition a1_of (k2 : float) (s : locals) : result float := mul_int k2 (n1 s).
Definition a2_of (k1 : float) (s : locals) : result float := mul_int k1 (n2 s).

(** Lines 27-61: the [while] loop. *)
Fixpoint main_loop (k1 k2 t_max : float) (draws : list draw) (s : locals)
  : outcome locals :=
  if (t s <? t_max)%float then
    match a1_of k2 s with
    | Err e => Raised e
    | Ok a1 =>
        match a2_of k1 s with
        | Err e => Raised e
        | Ok a2 =>
            let a0 := (a1 + a2)%float in
            if (a0 =? 0)%float then Returned s
            else
              match draws with
              | [] => Pending s
              | d :: draws' => main_loop k1 k2 t_max draws' (event a0 a1 d s)
              end
        end
    end
  else Returned s.

(** Line 63: the arrays the function returns. *)
Definition trajectory : Type := list float * list Z * list Z.

Definition returned_arrays (s : locals) : trajectory :=
  (times s, n1_values s, n2_values s).

Definition simulate_stochastic_pk_model
    (D : Z) (k1 k2 t_max : float) (draws : list draw) : outcome trajectory :=
  outcome_map returned_arrays (main_loop k1 k2 t_max draws (initial D)).

End Fundamentals.

(** * The multi-compartment simulator *)

Module VitalOrgan.

Record reaction : Type := Reaction {
  from : string;
  to : string;
  rate : float
}.

Record locals : Type := Locals {
  t : float;
  n : gmap string Z;
  times : list float;
  n_history : gmap string (list Z)
}.

(** Lines 6-12. *)
Definition initial_counts (D : Z) : gmap string Z :=
  <["Heart" := D]> (<["Brain" := 0]> (<["Kidneys" := 0]>
    (<["Liver" := 0]> (<["Lungs" := 0]> ∅)))).

(** Lines 14-16, for any dictionary of counts. *)
Definition initial_of (n0 : gmap string Z) : locals :=
  {| t := 0%float; n := n0; times := [0%float];
     n_history := (fun count => [count]) <$> n0 |}.

Definition initial (D : Z) : locals := initial_of (initial_counts D).

(** Lines 19-28: the reaction list, read from [rate_constants]. *)
Definition reactions_of (rate_constants : gmap string float)
  : result (list reaction) :=
  k_HB ← getitem rate_constants "k_Heart_Brain";
  k_BH ← getitem rate_constants "k_Brain_Heart";
  k_HK ← getitem rate_constants "k_Heart_Kidneys";
  k_KH ← getitem rate_constants "k_Kidneys_Heart";
  k_HLi ← getitem rate_constants "k_Heart_Liver";
  k_LiH ← getitem rate_constants "k_Liver_Heart";
  k_HLu ← getitem rate_constants "k_Heart_Lungs";
  k_LuH ← getitem rate_constants "k_Lungs_Heart";
  Ok [ Reaction "Heart" "Brain" k_HB;
       Reaction "Brain" "Heart" k_BH;
       Reaction "Heart" "Kidneys" k_HK;
       Reaction "Kidneys" "Heart" k_KH;
       Reaction "Heart" "Liver" k_HLi;
       Reaction "Liver" "Heart" k_LiH;
       Reaction "Heart" "Lungs" k_HLu;
       Reaction "Lungs" "Heart" k_LuH ].

(** Lines 35-37. *)
Definition propensity (n : gmap string Z) (reaction : reaction)
  : result float :=
  n_from ← getitem n (from reaction);
  mul_int (rate reaction) n_from.

(** Lines 33-38. *)
Fixpoint calc_propensities (n : gmap string Z) (reactions : list reaction)
  : result (list float) :=
  match reactions with
  | [] => Ok []
  | reaction :: rest =>
      p ← propensity n reaction;
      ps ← calc_propensities n rest;
      Ok (p :: ps)
  end.

(** Lines 60-61. *)
Definition apply_reaction (n : gmap string Z) (reaction : reaction)
  : result (gmap string Z) :=
  n_from ← getitem n (from reaction);
  let n' := <[from reaction := n_from - 1]> n in
  n_to ← getitem n' (to reaction);
  Ok (<[to reaction := n_to + 1]> n').

(** Lines 56-62: the scan over [enumerate(reactions)], reading
    [propensities[i]] at each reaction; it stops at the first reaction whose
    cumulative propensity exceeds the threshold, and leaves [n] as it is when
    there is none. *)
Fixpoint determine_reaction (reactions : list reaction)
    (propensities : list float) (cumulative_propensity threshold : float)
    (n : gmap string Z) : result (gmap string Z) :=
  match reactions with
  | [] => Ok n
  | reaction :: reactions' =>
      match propensities with
      | [] => Err IndexError
      | p :: propensities' =>
          let cumulative_propensity := (cumulative_propensity + p)%float in
          if (threshold <? cumulative_propensity)%float
          then apply_reaction n reaction
          else determine_reaction reactions' propensities'
                 cumulative_propensity threshold n
      end
  end.

(** Lines 65-66. *)
Definition clamp (n : gmap string Z) : gmap string Z :=
  (fun count => Z.max count 0) <$> n.

(** Lines 70-71: every compartment of [n] gets its count appended to its
    history; a compartment without a history raises [KeyError]. *)
Definition append_count (h : option (list Z)) (c : option Z)
  : option (list Z) :=
  match h, c with
  | Some l, Some count => Some (l ++ [count])
  | _, _ => h
  end.

Definition record_counts (n_history : gmap string (list Z))
    (n : gmap string Z) : result (gmap string (list Z)) :=
  if decide (dom n ⊆ dom n_history)
  then Ok (merge append_count n_history n)
  else Err KeyError.

(** Lines 49-50. *)
Definition waiting_time (log_r1 a0 : float) : float := (- log_r1 / a0)%float.

(** Lines 45-71: the part of an iteration after the test of [a0]. *)
Definition event (reactions : list reaction) (propensities : list float)
    (a0 : float) (d : draw) (s : locals) : result locals :=
  let dt := waiting_time (log_r1 d) a0 in
  let t' := (t s + dt)%float in
  let threshold := (r2 d * a0)%float in
  n' ← determine_reaction reactions propensities 0%float threshold (n s);
  let n'' := clamp n' in
  n_history' ← record_counts (n_history s) n'';
  Ok {| t := t'; n := n''; times := times s ++ [t'];
        n_history := n_history' |}.

(** Lines 31-71: the [while] loop, over any reaction list. *)
Fixpoint main_loop (reactions : list reaction) (t_max : float)
    (draws : list draw) (s : locals) : outcome locals :=
  if (t s <? t_max)%float then
    match calc_propensities (n s) reactions with
    | Err e => Raised e
    | Ok propensities =>
        let a0 := py_sum propensities in
        if (a0 =? 0)%float then Returned s
        else
          match draws with
          | [] => Pending s
          | d :: draws' =>
              match event reactions propensities a0 d s with
              | Err e => Raised e
              | Ok s' => main_loop reactions t_max draws' s'
              end
          end
    end
  else Returned s.

(** Line 73: what the function returns. *)
Definition trajectory : Type := list float * gmap string (list Z).

Definition returned_arrays (s : locals) : trajectory :=
  (times s, n_history s).

Definition simulate_stochastic_pk_model
    (D : Z) (rate_constants : gmap string float) (t_max : float)
    (draws : list draw) : outcome trajectory :=
  match reactions_of rate_constants with
  | Err e => Raised e
  | Ok reactions =>
      outcome_map returned_arrays
        (main_loop reactions t_max draws (initial D))
  end.

End VitalOrgan.

(** * The deterministic model *)

Module Deterministic.

(** The exception of [pk_model]. *)
Inductive error : Type :=
  | ValueError.

(** [pk_model], lines 5-23, as [odeint] calls it: [state] is an array of
    float64.  Unpacking a state that has not exactly two entries raises
    [ValueError]; the quotients are numpy's, which do not raise.  The time
    [t] is not used. *)
Definition pk_model (state : list float) (t k1 k2 V1 V2 : float)
  : error + list float :=
  match state with
  | [C1; C2] =>
      let dC1_dt := ((k1 * C2 * V2 - k2 * C1 * V1) / V1)%float in
      let dC2_dt := ((k2 * C1 * V1 - k1 * C2 * V2) / V2)%float in
      inr [dC1_dt; dC2_dt]
  | _ => inl ValueError
  end.

End Deterministic.

(** * The scripts *)

(** Python's [xs[-1]]: the last entry, [IndexError] on an empty sequence. *)
Definition getitem_last {A : Type} (xs : list A) : result A :=
  match last xs with
  | Some x => Ok x
  | None => Err IndexError
  end.

(** The two-compartment script, lines 99-100: the final counts it prints,
    [n1_values[-1]] and [n2_values[-1]]. *)
Definition F_final_counts (traj : Fundamentals.trajectory) : result (Z * Z) :=
  c1 ← getitem_last traj.1.2;
  c2 ← getitem_last traj.2;
  Ok (c1, c2).

(** The five-compartment script, lines 114-115: the final count it prints
    for every compartment of [n_history], [counts[-1]]. *)
Definition V_final_counts (n_history : gmap string (list Z))
  : result (gmap string Z) :=
  if decide (map_Forall (fun _ counts => counts <> []) n_history)
  then Ok (omap last n_history)
  else Err IndexError.

(** * The vocabulary of the properties *)

(** ** Floats *)

(** The classes of the specification of a float, [Prim2SF], that the proofs
    distinguish: below zero, a zero, and finite. *)
Definition sf_negative (x : spec_float) : bool :=
  match x with
  | S754_finite true _ _ | S754_infinity true => true
  | _ => false
  end.

Definition sf_zero (x : spec_float) : bool :=
  match x with S754_zero _ => true | _ => false end.

Definition sf_finite (x : spec_float) : bool :=
  match x with S754_zero _ | S754_finite _ _ _ => true | _ => false end.

(** A rounded value carries the sign it was given. *)
Definition signed (s : bool) (x : spec_float) : Prop :=
  match x with
  | S754_zero s' | S754_infinity s' | S754_finite s' _ _ => s' = s
  | S754_nan => False
  end.

(** ** Lists *)

(** [P] holds of every two consecutive entries of a list. *)
Fixpoint adjacent {A : Type} (P : A -> A -> Prop) (l : list A) : Prop :=
  match l with
  | x :: l' =>
      match l' with
      | y :: _ => P x y /\ adjacent P l'
      | [] => True
      end
  | [] => True
  end.

(** ** Runs and trajectories *)

(** A property of what a run carries; it says nothing of a run that
    raises. *)
Definition ensures {A : Type} (P : A -> Prop) (o : outcome A) : Prop :=
  match o with
  | Returned a | Pending a => P a
  | Raised _ => True
  end.

(** The sum of the counts of all compartments. *)
Definition total (m : gmap string Z) : Z :=
  map_fold (fun _ count acc => count + acc) 0 m.

(** The counts recorded at position [i] of the histories. *)
Definition snapshot (n_history : gmap string (list Z)) (i : nat)
  : gmap string Z :=
  omap (fun l => l !! i) n_history.

(** No count is negative. *)
Definition nonneg (m : gmap string Z) : Prop :=
  forall k c, m !! k = Some c -> 0 <= c.


(** The snapshots a trajectory of [len] recorded times holds, in order. *)
Definition snapshots (n_history : gmap string (list Z)) (len : nat)
  : list (gmap string Z) :=
  snapshot n_history <$> seq 0 len.

(** The dose and the number of draws are small enough for every count of
    the run to be a float. *)
Definition small_run (D : Z) (draws : list draw) : Prop :=
  Z.abs D + Z.of_nat (length draws) < 2 ^ 53.

(** ** Configurations *)

(** The compartments of the five-compartment model. *)
Definition organ_keys : gset string :=
  {[ "Heart"; "Brain"; "Kidneys"; "Liver"; "Lungs" ]}.

(** The eight keys [simulate_stochastic_pk_model] reads from
    [rate_constants]. *)
Definition rate_keys : list string :=
  [ "k_Heart_Brain"; "k_Brain_Heart"; "k_Heart_Kidneys"; "k_Kidneys_Heart";
    "k_Heart_Liver"; "k_Liver_Heart"; "k_Heart_Lungs"; "k_Lungs_Heart" ].

Definition has_rates (rate_constants : gmap string float) : Prop :=
  Forall (fun key => is_Some (rate_constants !! key)) rate_keys.

(** A valid rate constant: a finite float that is not negative. *)
Definition valid_rate (k : float) : Prop := fle 0 k /\ flt k infinity.

(** A valid dictionary of rate constants: the eight rates are there and
    each is valid. *)
Definition valid_rates (rate_constants : gmap string float) : Prop :=
  Forall (fun key => exists k, rate_constants !! key = Some k /\ valid_rate k)
    rate_keys.

Definition rates_valid (reactions : list VitalOrgan.reaction) : Prop :=
  Forall (fun r => valid_rate (VitalOrgan.rate r)) reactions.

(** Every reaction names compartments of the dictionary. *)
Definition closed (reactions : list VitalOrgan.reaction)
    (n : gmap string Z) : Prop :=
  Forall (fun r => VitalOrgan.from r ∈ dom n /\ VitalOrgan.to r ∈ dom n)
    reactions.

(** ** Propensities and selection *)

(** [p] is the propensity of [r] in [n]: the rate times the float of the
    source count. *)
Definition propensity_of (n : gmap string Z) (r : VitalOrgan.reaction)
    (p : float) : Prop :=
  exists c x, n !! VitalOrgan.from r = Some c /\ float_of_int c = Ok x /\
              p = (VitalOrgan.rate r * x)%float.

(** The cumulative propensity after reaction [i], as the scan computes it
    from a running sum [cum]. *)
Definition running (cum : float) (ps : list float) (i : nat) : float :=
  foldl PrimFloat.add cum (take (S i) ps).

(** The cumulative propensity sum of reactions [0..i]; the scan starts from
    [0.0]. *)
Definition cumulative (ps : list float) (i : nat) : float :=
  running 0%float ps i.

(** [i] is the first position whose cumulative propensity exceeds the
    threshold. *)
Definition first_exceeding (ps : list float) (threshold : float) (i : nat)
  : Prop :=
  flt threshold (cumulative ps i) /\
  forall j, (j < i)%nat -> ~ flt threshold (cumulative ps j).

(** No cumulative propensity exceeds the threshold. *)
Definition none_exceeding (ps : list float) (threshold : float) : Prop :=
  forall j, (j < length ps)%nat -> ~ flt threshold (cumulative ps j).

(** ** Loop states *)

(** What an event of the multi-compartment loop leaves in the local
    variables, given the dictionary [n'] the scan produced. *)
Definition after_event (a0 : float) (d : draw) (s : VitalOrgan.locals)
    (n' : gmap string Z) : VitalOrgan.locals :=
  let t' := (VitalOrgan.t s + VitalOrgan.waiting_time (log_r1 d) a0)%float in
  {| VitalOrgan.t := t';
     VitalOrgan.n := VitalOrgan.clamp n';
     VitalOrgan.times := VitalOrgan.times s ++ [t'];
     VitalOrgan.n_history :=
       merge VitalOrgan.append_count (VitalOrgan.n_history s)
         (VitalOrgan.clamp n') |}.

(** The dictionaries of a state agree on their compartments, and the
    reactions name only these. *)
Definition well_formed (reactions : list VitalOrgan.reaction)
    (s : VitalOrgan.locals) : Prop :=
  closed reactions (VitalOrgan.n s) /\
  dom (VitalOrgan.n_history s) = dom (VitalOrgan.n s).

(** Invariants of the two-compartment loop: the histories are as long as
    [times]; no count is negative; the histories end with the current values
    of the variables. *)
Definition F_aligned (s : Fundamentals.locals) : Prop :=
  length (Fundamentals.n1_values s) = length (Fundamentals.times s) /\
  length (Fundamentals.n2_values s) = length (Fundamentals.times s).

Definition F_nonneg (s : Fundamentals.locals) : Prop :=
  0 <= Fundamentals.n1 s /\ 0 <= Fundamentals.n2 s /\
  Forall (fun c => 0 <= c) (Fundamentals.n1_values s) /\
  Forall (fun c => 0 <= c) (Fundamentals.n2_values s).

Definition F_tracks (s : Fundamentals.locals) : Prop :=
  last (Fundamentals.times s) = Some (Fundamentals.t s) /\
  last (Fundamentals.n1_values s) = Some (Fundamentals.n1 s) /\
  last (Fundamentals.n2_values s) = Some (Fundamentals.n2 s).

(** The counts of the two-compartment loop, snapshot by snapshot: the
    histories are equally long, end with the current counts, and every two
    consecutive snapshots are related by [step]. *)
Definition F_stepwise (step : Z * Z -> Z * Z -> Prop)
    (s : Fundamentals.locals) : Prop :=
  0 <= Fundamentals.n1 s /\ 0 <= Fundamentals.n2 s /\
  last (zip (Fundamentals.n1_values s) (Fundamentals.n2_values s))
    = Some (Fundamentals.n1 s, Fundamentals.n2 s) /\
  length (Fundamentals.n1_values s) = length (Fundamentals.n2_values s) /\
  adjacent step
    (zip (Fundamentals.n1_values s) (Fundamentals.n2_values s)).


(** Invariants of the multi-compartment loop.  [V_recorded G]: the
    histories hold one entry per recorded time, and the current counts and
    every recorded snapshot satisfy [G]. *)
Definition V_recorded (G : gmap string Z -> Prop) (s : VitalOrgan.locals)
  : Prop :=
  (forall k l, VitalOrgan.n_history s !! k = Some l ->
               length l = length (VitalOrgan.times s)) /\
  G (VitalOrgan.n s) /\
  (forall i, (i < length (VitalOrgan.times s))%nat ->
             G (snapshot (VitalOrgan.n_history s) i)).

(** The compartments, the signs and the sum of the counts of a snapshot of
    the five-compartment model. *)
Definition conserved (D : Z) (m : gmap string Z) : Prop :=
  dom m = organ_keys /\ nonneg m /\ total m = D.

(** The clock of a loop: it is the last recorded time, the recorded times
    start at 0, none is negative and none is below the one before it. *)
Definition clocked (t : float) (times : list float) : Prop :=
  not_negative t /\
  last times = Some t /\
  times !! 0%nat = Some 0%float /\
  adjacent (fun a b => ~ flt b a) times.

(** Every recorded time but the last is below the horizon. *)
Definition below_horizon (t_max : float) (times : list float) : Prop :=
  exists earlier final,
    times = earlier ++ [final] /\
    Forall (fun x => flt x t_max) earlier.

(** ** Jumps *)

(** One event of the two-compartment simulator on a valid configuration,
    with the rate of the reaction: Heart to Lung has a rate that is not
    zero. *)
Definition F_rated_step (k2 : float) (c c' : Z * Z) : Prop :=
  (~ feq k2 0 /\ 1 <= c.1 /\ c' = (c.1 - 1, c.2 + 1)) \/
  (1 <= c.2 /\ c' = (c.1 + 1, c.2 - 1)) \/
  (c.2 = 0 /\ c' = (c.1 + 1, 0)).

(** One molecule went from a compartment that held one to another
    compartment, by a reaction of the list whose rate is not zero. *)
Definition transfer_by (reactions : list VitalOrgan.reaction)
    (m m' : gmap string Z) : Prop :=
  exists r c_from c_to,
    r ∈ reactions /\ ~ feq (VitalOrgan.rate r) 0 /\
    VitalOrgan.from r <> VitalOrgan.to r /\
    m !! VitalOrgan.from r = Some c_from /\ 1 <= c_from /\
    m !! VitalOrgan.to r = Some c_to /\
    m' = <[VitalOrgan.to r := c_to + 1]>
           (<[VitalOrgan.from r := c_from - 1]> m).

(** The counts are as they were, or one molecule was transferred. *)
Definition kept_or_transferred (reactions : list VitalOrgan.reaction)
    (m m' : gmap string Z) : Prop :=
  m' = m \/ transfer_by reactions m m'.

(** No reaction goes from a compartment to itself. *)
Definition irreflexive (reactions : list VitalOrgan.reaction) : Prop :=
  Forall (fun r => VitalOrgan.from r <> VitalOrgan.to r) reactions.

(** The invariant of the jumps of the multi-compartment loop. *)
Definition V_jumps (reactions : list VitalOrgan.reaction)
    (s : VitalOrgan.locals) : Prop :=
  nonneg (VitalOrgan.n s) /\
  (forall k l, VitalOrgan.n_history s !! k = Some l ->
               length l = length (VitalOrgan.times s)) /\
  last (snapshots (VitalOrgan.n_history s) (length (VitalOrgan.times s)))
    = Some (VitalOrgan.n s) /\
  adjacent (kept_or_transferred reactions)
    (snapshots (VitalOrgan.n_history s) (length (VitalOrgan.times s))).

(** ** The two-compartment model as a network *)

(** The two-compartment model as a dictionary of counts and a reaction
    list: Heart to Lung with rate [k2], then Lung to Heart with rate [k1]. *)
Definition two_compartment_counts (c1 c2 : Z) : gmap string Z :=
  <["Heart" := c1]> (<["Lung" := c2]> ∅).

Definition two_compartment_reactions (k1 k2 : float)
  : list VitalOrgan.reaction :=
  [ VitalOrgan.Reaction "Heart" "Lung" k2;
    VitalOrgan.Reaction "Lung" "Heart" k1 ].

(** The local variables of the two-compartment simulator, as those of the
    multi-compartment loop. *)
Definition as_network (s : Fundamentals.locals) : VitalOrgan.locals :=
  {| VitalOrgan.t := Fundamentals.t s;
     VitalOrgan.n :=
       two_compartment_counts (Fundamentals.n1 s) (Fundamentals.n2 s);
     VitalOrgan.times := Fundamentals.times s;
     VitalOrgan.n_history :=
       <["Heart" := Fundamentals.n1_values s]>
         (<["Lung" := Fundamentals.n2_values s]> ∅) |}.

(** The scan over the two reactions selects one at every event of the run
    of the two-compartment loop on [draws] from [s]: the threshold
    [r2 * a0] is below the propensity of Heart to Lung, or below the
    total. *)
Fixpoint scan_selects_throughout (k1 k2 t_max : float) (draws : list draw)
    (s : Fundamentals.locals) : bool :=
  match draws with
  | [] => true
  | d :: draws' =>
      if (Fundamentals.t s <? t_max)%float then
        match Fundamentals.a1_of k2 s, Fundamentals.a2_of k1 s with
        | Ok a1, Ok a2 =>
            let a0 := (a1 + a2)%float in
            if (a0 =? 0)%float then true
            else
              ((r2 d * a0 <? a1)%float || (r2 d * a0 <? a0)%float) &&
              scan_selects_throughout k1 k2 t_max draws'
                (Fundamentals.event a0 a1 d s)
        | _, _ => true
        end
      else true
  end.

(** ** Example configurations *)

(** The logarithms [np.log] returns at 0.5, at 0.125 and at the float below
    1: -0.6931471805599453, -2.0794415416798357 and -2^-53. *)
Definition log_half : float := (-0x1.62e42fefa39efp-1)%float.
Definition log_eighth : float := (-0x1.0a2b23f3bab73p+1)%float.
Definition below_one : float := 0x1.fffffffffffffp-1%float.
Definition log_below_one : float := (-0x1p-53)%float.

(** The smallest positive float, 5e-324, and the float 1e308. *)
Definition tiny : float := 0x1p-1074%float.
Definition huge : float := 0x1.1ccf385ebc8ap+1023%float.

(** The rate constants of the five-compartment script's [__main__] block
    (0.1, 0.05, 0.2, 0.1, 0.15, 0.1, 0.25, 0.25), its reaction list, and the
    propensities of its first iteration, with the dose 1000. *)
Definition example_rate_constants : gmap string float :=
  <["k_Heart_Brain" := 0x1.999999999999ap-4%float]>
  (<["k_Brain_Heart" := 0x1.999999999999ap-5%float]>
  (<["k_Heart_Kidneys" := 0x1.999999999999ap-3%float]>
  (<["k_Kidneys_Heart" := 0x1.999999999999ap-4%float]>
  (<["k_Heart_Liver" := 0x1.3333333333333p-3%float]>
  (<["k_Liver_Heart" := 0x1.999999999999ap-4%float]>
  (<["k_Heart_Lungs" := 0.25%float]>
  (<["k_Lungs_Heart" := 0.25%float]> ∅))))))).

Definition example_reactions : list VitalOrgan.reaction :=
  [ VitalOrgan.Reaction "Heart" "Brain" 0x1.999999999999ap-4;
    VitalOrgan.Reaction "Brain" "Heart" 0x1.999999999999ap-5;
    VitalOrgan.Reaction "Heart" "Kidneys" 0x1.999999999999ap-3;
    VitalOrgan.Reaction "Kidneys" "Heart" 0x1.999999999999ap-4;
    VitalOrgan.Reaction "Heart" "Liver" 0x1.3333333333333p-3;
    VitalOrgan.Reaction "Liver" "Heart" 0x1.999999999999ap-4;
    VitalOrgan.Reaction "Heart" "Lungs" 0.25;
    VitalOrgan.Reaction "Lungs" "Heart" 0.25 ].

Definition example_propensities : list float :=
  [ 100; 0; 200; 0; 150; 0; 250; 0 ]%float.

(** Two draws: [r1 = 0.5] with [r2 = 0.25], then [r1 = 0.0] with
    [r2 = 0.75]. *)
Definition example_draws : list draw :=
  [ Draw 0.5 log_half 0.25; Draw 0 neg_infinity 0.75 ].

(** A dictionary of rates with a negative one. *)
Definition negative_rate_constants : gmap string float :=
  <["k_Heart_Brain" := (-1)%float]> example_rate_constants.

(** A dictionary of valid rates under which only Heart to Brain can occur,
    at the smallest positive rate. *)
Definition tiny_rate_constants : gmap string float :=
  <["k_Heart_Brain" := tiny]>
  (<["k_Brain_Heart" := 0%float]>
  (<["k_Heart_Kidneys" := 0%float]>
  (<["k_Kidneys_Heart" := 0%float]>
  (<["k_Heart_Liver" := 0%float]>
  (<["k_Liver_Heart" := 0%float]>
  (<["k_Heart_Lungs" := 0%float]>
  (<["k_Lungs_Heart" := 0%float]> ∅))))))).



(** * Properties of the float operations *)

(** ** Rounding keeps the sign *)

Lemma iter_pos_invariant {A : Type} (f : A -> A) (P : A -> Prop) :
  (forall x, P x -> P (f x)) -> forall p x, P x -> P (iter_pos f p x).
Proof.
  intros Hf p. induction p as [p IH|p IH|]; intros x Hx; simpl; auto.
Qed.

Lemma shr_1_nonneg (mrs : shr_record) :
  0 <= shr_m mrs -> 0 <= shr_m (shr_1 mrs).
Proof.
  destruct mrs as [m r s]. simpl.
  destruct m as [|[p|p|]|[p|p|]]; simpl; lia.
Qed.

Lemma shr_fexp_nonneg (m e : Z) (l : location) :
  0 <= m -> 0 <= shr_m (fst (shr_fexp prec emax m e l)).
Proof.
  intros Hm. unfold shr_fexp, shr.
  assert (0 <= shr_m (shr_record_of_loc m l)) as H0.
  { destruct l as [|[]]; simpl; lia. }
  destruct (_ - e) as [|p|p]; simpl; try done.
  by apply iter_pos_invariant; [apply shr_1_nonneg|].
Qed.

Lemma round_nearest_even_nonneg (m : Z) (l : location) :
  0 <= m -> 0 <= round_nearest_even m l.
Proof.
  intros Hm. destruct l as [|[]]; simpl; try lia.
  destruct (Z.even m); lia.
Qed.

(** Rounding a non-negative mantissa gives a zero, a finite number or an
    infinity of the given sign, never [nan]. *)
Lemma binary_round_aux_signed (s : bool) (m e : Z) (l : location) :
  0 <= m -> signed s (binary_round_aux prec emax s m e l).
Proof.
  intros Hm. unfold binary_round_aux.
  pose proof (shr_fexp_nonneg m e l Hm) as H1.
  destruct (shr_fexp prec emax m e l) as [mrs' e'] eqn:E1. simpl in H1.
  pose proof (shr_fexp_nonneg
                (round_nearest_even (shr_m mrs') (loc_of_shr_record mrs')) e'
                loc_Exact (round_nearest_even_nonneg _ _ H1)) as H2.
  destruct (shr_fexp prec emax _ e' loc_Exact) as [mrs'' e''] eqn:E2.
  simpl in H2.
  destruct (shr_m mrs'') as [|p|p]; simpl; [done| |lia].
  by destruct (e'' <=? emax - prec).
Qed.

Lemma binary_round_signed (s : bool) (m : positive) (e : Z) :
  signed s (binary_round prec emax s m e).
Proof.
  unfold binary_round. destruct (shl_align _ _ _) as [mz ez].
  by apply binary_round_aux_signed.
Qed.

Lemma binary_normalize_signed (m e : Z) :
  signed (m <? 0) (binary_normalize prec emax m e false).
Proof.
  destruct m as [|p|p]; simpl; [done| |]; apply binary_round_signed.
Qed.

(** ** Signs of the results of the operations *)

Lemma signed_not_negative (x : spec_float) :
  signed false x -> sf_negative x = false.
Proof. by destruct x as [[]|[]| |[] ? ?]. Qed.

Lemma SFmul_not_negative (x y : spec_float) :
  sf_negative x = false -> sf_negative y = false ->
  sf_negative (SF64mul x y) = false.
Proof.
  destruct x as [sx|sx| |sx mx ex], y as [sy|sy| |sy my ey]; simpl;
    try done; try (by destruct sx, sy).
  intros Hx Hy. destruct sx, sy; try done.
  apply signed_not_negative. by apply binary_round_aux_signed.
Qed.

Lemma SFadd_not_negative (x y : spec_float) :
  sf_negative x = false -> sf_negative y = false ->
  sf_negative (SF64add x y) = false.
Proof.
  destruct x as [sx|sx| |sx mx ex], y as [sy|sy| |sy my ey]; simpl;
    try done; try (by destruct sx, sy).
  intros Hx Hy. destruct sx, sy; try done.
  apply signed_not_negative. unfold SF64add, SFadd, cond_Zopp.
  match goal with
  | |- signed _ (binary_normalize _ _ ?m ?e _) =>
      pose proof (binary_normalize_signed m e) as H;
      by replace (m <? 0) with false in H
        by (symmetry; apply Z.ltb_ge; lia)
  end.
Qed.

Lemma SFdiv_not_negative (x y : spec_float) :
  sf_negative x = false -> sf_negative y = false -> sf_zero y = false ->
  sf_negative (SF64div x y) = false.
Proof.
  destruct x as [sx|sx| |sx mx ex], y as [sy|sy| |sy my ey]; simpl;
    try done; try (by destruct sx, sy).
  intros Hx Hy _. destruct sx, sy; try done. simpl.
  unfold SF64div, SFdiv.
  destruct (SFdiv_core_binary _ _ _ _ _ _) as [[mz ez] lz] eqn:E.
  apply signed_not_negative. apply binary_round_aux_signed.
  unfold SFdiv_core_binary in E.
  destruct (Z.div_eucl _ _) as [q r] eqn:Ediv. injection E as <- _ _.
  pose proof (Z_div_mod_full
    (match
       ex - ey -
       Z.min (fexp prec emax (Zdigits2 (Z.pos mx) + ex - (Zdigits2 (Z.pos my) + ey)))
         (ex - ey)
     with
     | 0 => Z.pos mx
     | Z.pos _ => Z.shiftl (Z.pos mx) (ex - ey -
       Z.min (fexp prec emax (Zdigits2 (Z.pos mx) + ex - (Zdigits2 (Z.pos my) + ey)))
         (ex - ey))
     | Z.neg _ => 0
     end) (Z.pos my)) as H.
  rewrite Ediv in H. destruct H as [H1 H2]; [done|].
  unfold Remainder in H2.
  assert (0 <= q * Z.pos my + r) as H3.
  { rewrite Z.mul_comm, <- H1.
    destruct (_ - _) as [|p|p]; try lia.
    rewrite Z.shiftl_mul_pow2 by lia. apply Z.mul_nonneg_nonneg; lia. }
  nia.
Qed.

Lemma flt_spec (x y : float) :
  flt x y <-> SFltb (Prim2SF x) (Prim2SF y) = true.
Proof. unfold flt. by rewrite Is_true_true, ltb_spec. Qed.

Lemma feq_spec (x y : float) :
  feq x y <-> SFeqb (Prim2SF x) (Prim2SF y) = true.
Proof. unfold feq. by rewrite Is_true_true, eqb_spec. Qed.

Lemma fle_spec (x y : float) :
  fle x y <-> SFleb (Prim2SF x) (Prim2SF y) = true.
Proof. unfold fle. by rewrite Is_true_true, leb_spec. Qed.

Lemma negative_spec (x : float) :
  flt x 0 <-> sf_negative (Prim2SF x) = true.
Proof.
  rewrite flt_spec. change (Prim2SF 0) with (S754_zero false).
  by destruct (Prim2SF x) as [[]|[]| |[] ? ?].
Qed.

Lemma not_negative_spec (x : float) :
  not_negative x <-> sf_negative (Prim2SF x) = false.
Proof.
  unfold not_negative. rewrite negative_spec.
  by destruct (sf_negative _).
Qed.

Lemma zero_spec (x : float) :
  feq x 0 <-> sf_zero (Prim2SF x) = true.
Proof.
  rewrite feq_spec. change (Prim2SF 0) with (S754_zero false).
  by destruct (Prim2SF x) as [[]|[]| |[] ? ?].
Qed.

Lemma finite_spec (x : float) :
  finite x <-> sf_finite (Prim2SF x) = true.
Proof.
  unfold finite. rewrite flt_spec, abs_spec.
  change (Prim2SF infinity) with (S754_infinity false).
  by destruct (Prim2SF x) as [[]|[]| |[] ? ?].
Qed.

Lemma positive_spec (x : float) :
  flt 0 x <->
  sf_negative (Prim2SF x) = false /\ sf_zero (Prim2SF x) = false /\
  Prim2SF x <> S754_nan.
Proof.
  rewrite flt_spec. change (Prim2SF 0) with (S754_zero false).
  destruct (Prim2SF x) as [[]|[]| |[] ? ?]; simpl; unfold SFltb; simpl;
    split; try done; intros (? & ? & ?); done.
Qed.

Lemma mul_not_negative (x y : float) :
  not_negative x -> not_negative y -> not_negative (x * y).
Proof.
  rewrite !not_negative_spec, mul_spec. apply SFmul_not_negative.
Qed.

Lemma add_not_negative (x y : float) :
  not_negative x -> not_negative y -> not_negative (x + y).
Proof.
  rewrite !not_negative_spec, add_spec. apply SFadd_not_negative.
Qed.

Lemma div_not_negative (x y : float) :
  not_negative x -> not_negative y -> ~ feq y 0 -> not_negative (x / y).
Proof.
  rewrite !not_negative_spec, zero_spec, div_spec. intros Hx Hy Hz.
  apply SFdiv_not_negative; try done. by destruct (sf_zero _).
Qed.

Lemma opp_not_negative (x : float) : flt x 0 -> not_negative (- x).
Proof.
  rewrite negative_spec, not_negative_spec, opp_spec.
  by destruct (Prim2SF x) as [[]|[]| |[] ? ?].
Qed.

Lemma positive_not_negative (x : float) : flt 0 x -> not_negative x.
Proof. rewrite positive_spec, not_negative_spec. tauto. Qed.

Lemma fle_0_not_negative (x : float) : fle 0 x -> not_negative x.
Proof.
  rewrite fle_spec, not_negative_spec.
  change (Prim2SF 0) with (S754_zero false).
  by destruct (Prim2SF x) as [[]|[]| |[] ? ?].
Qed.

Lemma fle_0_cases (x : float) : fle 0 x -> feq x 0 \/ flt 0 x.
Proof.
  rewrite fle_spec, zero_spec, positive_spec.
  change (Prim2SF 0) with (S754_zero false).
  destruct (Prim2SF x) as [[]|[]| |[] ? ?]; simpl; unfold SFleb, SFltb;
    simpl; intros H; try done; first [by left | by right].
Qed.

(** ** Zeros *)

Lemma mul_zero_r (x z : float) : finite x -> feq z 0 -> feq (x * z) 0.
Proof.
  rewrite finite_spec, !zero_spec, mul_spec.
  by destruct (Prim2SF x) as [[]|[]| |[] ? ?], (Prim2SF z) as [[]|[]| |[] ? ?].
Qed.

Lemma mul_zero_l (z x : float) : feq z 0 -> finite x -> feq (z * x) 0.
Proof.
  rewrite finite_spec, !zero_spec, mul_spec.
  by destruct (Prim2SF x) as [[]|[]| |[] ? ?], (Prim2SF z) as [[]|[]| |[] ? ?].
Qed.

(** Adding a zero to a running sum does not change how it compares. *)
Lemma add_zero_r_ltb (t c z : float) :
  feq z 0 -> (t <? c + z)%float = (t <? c)%float.
Proof.
  rewrite zero_spec, !ltb_spec, add_spec.
  destruct (Prim2SF z) as [sz| | |]; [|done..]. intros _.
  by destruct (Prim2SF c) as [[]|[]| |[] ? ?], (Prim2SF t) as [[]|[]| |[] ? ?],
    sz.
Qed.

Lemma add_zero_l_ltb (t a : float) : (t <? 0 + a)%float = (t <? a)%float.
Proof.
  rewrite !ltb_spec, add_spec. change (Prim2SF 0) with (S754_zero false).
  by destruct (Prim2SF a) as [[]|[]| |[] ? ?], (Prim2SF t) as [[]|[]| |[] ? ?].
Qed.

Lemma ltb_zero_r (t z : float) :
  feq z 0 -> (t <? z)%float = (t <? 0)%float.
Proof.
  rewrite zero_spec, !ltb_spec. change (Prim2SF 0) with (S754_zero false).
  destruct (Prim2SF z) as [sz| | |]; [|done..]. intros _.
  by destruct (Prim2SF t) as [[]|[]| |[] ? ?], sz.
Qed.

Lemma feq_zero_not_negative (z : float) : feq z 0 -> not_negative z.
Proof.
  rewrite zero_spec, not_negative_spec.
  by destruct (Prim2SF z) as [[]|[]| |[] ? ?].
Qed.

(** Python's [sum] starts from the integer 0: the first addition is
    [0.0 + a1].  Up to the sign of a zero total, this changes nothing. *)
Lemma sum_from_zero (a1 a2 : float) :
  (feq (0 + a1 + a2) 0 <-> feq (a1 + a2) 0) /\
  (~ feq (a1 + a2) 0 -> (0 + a1 + a2 = a1 + a2)%float).
Proof.
  split.
  - rewrite !zero_spec, !add_spec. change (Prim2SF 0) with (S754_zero false).
    by destruct (Prim2SF a1) as [[]|[]| |[] ? ?],
      (Prim2SF a2) as [[]|[]| |[] ? ?].
  - rewrite zero_spec. intros Hne. apply Prim2SF_inj. revert Hne.
    rewrite !add_spec. change (Prim2SF 0) with (S754_zero false).
    by destruct (Prim2SF a1) as [[]|[]| |[] ? ?],
      (Prim2SF a2) as [[]|[]| |[] ? ?].
Qed.

Lemma digits2_pos_size (m : positive) : digits2_pos m = Pos.size m.
Proof. induction m; simpl; by f_equal. Qed.

Lemma digits2_pos_lt (m : positive) : Z.pos m < 2 ^ Z.pos (digits2_pos m).
Proof.
  rewrite digits2_pos_size. pose proof (Pos.size_gt m) as H.
  apply Pos2Z.pos_lt_pos in H. by rewrite Pos2Z.inj_pow in H.
Qed.

Lemma digits2_pos_le (m : positive) :
  2 ^ (Z.pos (digits2_pos m) - 1) <= Z.pos m.
Proof.
  rewrite digits2_pos_size. pose proof (Pos.size_le m) as H.
  apply Pos2Z.pos_le_pos in H. rewrite Pos2Z.inj_pow in H.
  replace (Z.pos (Pos.size m)) with (Z.pos (Pos.size m) - 1 + 1) in H by lia.
  rewrite Z.pow_add_r in H by lia. lia.
Qed.

(** The number of digits is the one [d] with [2^(d-1) <= m < 2^d]. *)
Lemma digits2_pos_unique (m : positive) (d : Z) :
  2 ^ (d - 1) <= Z.pos m < 2 ^ d -> Z.pos (digits2_pos m) = d.
Proof.
  intros [Hlo Hhi]. pose proof (digits2_pos_lt m). pose proof (digits2_pos_le m).
  assert (0 < d) as Hd.
  { destruct (decide (0 < d)) as [|Hn]; [done|].
    rewrite Z.pow_neg_r in Hlo by lia.
    assert (2 ^ d <= 1); [|lia].
    destruct (decide (d = 0)) as [->|]; [done|].
    rewrite Z.pow_neg_r by lia. lia. }
  destruct (Z.lt_trichotomy (Z.pos (digits2_pos m)) d) as [Hlt|[Heq|Hgt]];
    [|done|].
  - assert (2 ^ Z.pos (digits2_pos m) <= 2 ^ (d - 1))
      by (apply Z.pow_le_mono_r; lia). lia.
  - assert (2 ^ d <= 2 ^ (Z.pos (digits2_pos m) - 1))
      by (apply Z.pow_le_mono_r; lia). lia.
Qed.

Lemma Prim2SF_SF2Prim_signed (s : bool) (x : spec_float) :
  signed s x -> signed s (Prim2SF (SF2Prim x)).
Proof.
  destruct x as [s'|s'| |s' m e]; simpl; try done.
  - by destruct s'.
  - by destruct s'.
  - intros ->.
    set (f := Z.ldexp _ e).
    assert (signed false (Prim2SF f)) as Hf.
    { unfold f. rewrite Z_ldexp_spec, of_uint63_spec.
      pose proof (binary_normalize_signed (Uint63.to_Z (Uint63.of_Z (Z.pos m))) 0)
        as Hk.
      pose proof (Uint63.to_Z_bounded (Uint63.of_Z (Z.pos m))) as Hb.
      replace (_ <? 0) with false in Hk by (symmetry; apply Z.ltb_ge; lia).
      destruct (binary_normalize _ _ _ _ _) as [?|?| |sx mx ex]; simpl in *;
        try done.
      subst sx. apply binary_round_signed. }
    destruct s; [|done]. rewrite opp_spec.
    by destruct (Prim2SF f) as [[]|[]| |[] ? ?].
Qed.

Lemma nearest_float_signed (n : Z) :
  signed (n <? 0) (Prim2SF (nearest_float n)).
Proof.
  unfold nearest_float. apply Prim2SF_SF2Prim_signed,
    binary_normalize_signed.
Qed.

Lemma is_infinity_spec (x : float) :
  is_infinity x = match Prim2SF x with S754_infinity _ => true | _ => false end.
Proof.
  unfold is_infinity. rewrite eqb_spec, abs_spec.
  change (Prim2SF infinity) with (S754_infinity false).
  by destruct (Prim2SF x) as [[]|[]| |[] ? ?].
Qed.

Lemma iter_xO_value (m k : positive) :
  Z.pos (Pos.iter xO m k) = Z.pos m * 2 ^ Z.pos k.
Proof.
  induction k as [|k IH] using Pos.peano_ind.
  - simpl. lia.
  - rewrite Pos.iter_succ, Pos2Z.inj_xO, IH, Pos2Z.inj_succ,
      Z.pow_succ_r by lia. lia.
Qed.

Lemma digits2_pos_shift (m k : positive) :
  Z.pos (digits2_pos (Pos.iter xO m k)) = Z.pos (digits2_pos m) + Z.pos k.
Proof.
  apply digits2_pos_unique. rewrite iter_xO_value.
  pose proof (digits2_pos_lt m). pose proof (digits2_pos_le m).
  replace (Z.pos (digits2_pos m) + Z.pos k - 1)
    with (Z.pos (digits2_pos m) - 1 + Z.pos k) by lia.
  rewrite !Z.pow_add_r by lia.
  assert (0 < 2 ^ Z.pos k) by (apply Z.pow_pos_nonneg; lia). nia.
Qed.

(** A mantissa that is already in canonical position rounds to itself. *)
Lemma binary_round_aux_canonical (s : bool) (m : positive) (e : Z) :
  bounded prec emax m e = true ->
  binary_round_aux prec emax s (Z.pos m) e loc_Exact = S754_finite s m e.
Proof.
  unfold bounded, canonical_mantissa.
  intros [Hc He%Z.leb_le]%andb_true_iff. apply Z.eqb_eq in Hc.
  unfold binary_round_aux, shr_fexp. simpl Zdigits2.
  rewrite Hc, Z.sub_diag. simpl.
  rewrite Hc, Z.sub_diag. simpl.
  by rewrite (proj2 (Z.leb_le _ _) He).
Qed.

(** An integer below [2^53] in absolute value is a float. *)
Lemma binary_normalize_small (n : Z) :
  Z.abs n < 2 ^ 53 ->
  valid_binary (binary_normalize prec emax n 0 false) = true /\
  sf_finite (binary_normalize prec emax n 0 false) = true.
Proof.
  intros Hn.
  assert (forall s m, Z.pos m < 2 ^ 53 ->
    valid_binary (binary_round prec emax s m 0) = true /\
    sf_finite (binary_round prec emax s m 0) = true) as Hround.
  { intros s m Hm. unfold binary_round.
    pose proof (digits2_pos_le m) as Hlo.
    assert (Z.pos (digits2_pos m) <= 53) as Hd.
    { destruct (decide (Z.pos (digits2_pos m) <= 53)) as [|Hgt]; [done|].
      assert (2 ^ 53 <= 2 ^ (Z.pos (digits2_pos m) - 1))
        by (apply Z.pow_le_mono_r; lia). lia. }
    unfold shl_align, fexp, FloatOps.emin, SpecFloat.emin, prec, emax.
    rewrite Z.add_0_r, Z.max_l by lia.
    destruct (Z.pos (digits2_pos m) - 53 - 0) as [|k|k] eqn:Ek; try lia.
    - assert (bounded prec emax m 0 = true) as Hb.
      { unfold bounded, canonical_mantissa, fexp, FloatOps.emin,
          SpecFloat.emin, prec, emax.
        apply andb_true_iff; split; [apply Z.eqb_eq | apply Z.leb_le]; lia. }
      by rewrite binary_round_aux_canonical.
    - assert (bounded prec emax (Pos.iter xO m k)
                (Z.pos (digits2_pos m) - 53) = true) as Hb.
      { unfold bounded, canonical_mantissa, fexp, FloatOps.emin,
          SpecFloat.emin, prec, emax. rewrite digits2_pos_shift.
        apply andb_true_iff; split; [apply Z.eqb_eq | apply Z.leb_le]; lia. }
      by rewrite binary_round_aux_canonical. }
  destruct n as [|m|m]; [done| |]; simpl; apply Hround; lia.
Qed.

Lemma nearest_float_small (n : Z) :
  Z.abs n < 2 ^ 53 -> is_infinity (nearest_float n) = false.
Proof.
  intros Hn. destruct (binary_normalize_small n Hn) as [Hv Hf].
  rewrite is_infinity_spec. unfold nearest_float.
  rewrite Prim2SF_SF2Prim by done.
  by destruct (binary_normalize _ _ _ _ _).
Qed.

(** ** Addition does not go below its first operand *)

Lemma shr_1_value (mrs : shr_record) :
  0 <= shr_m mrs -> shr_m (shr_1 mrs) = shr_m mrs / 2.
Proof.
  destruct mrs as [m r s]. simpl. intros Hm.
  destruct m as [|[p|p|]|p]; simpl; try done; try lia.
  - rewrite Pos2Z.inj_xI. apply (Z.div_unique _ _ _ 1); lia.
  - rewrite Pos2Z.inj_xO. apply (Z.div_unique _ _ _ 0); lia.
Qed.

Lemma shr_iter_value (p : positive) (mrs : shr_record) :
  0 <= shr_m mrs ->
  shr_m (iter_pos shr_1 p mrs) = shr_m mrs / 2 ^ Z.pos p.
Proof.
  revert mrs. induction p as [p IH|p IH|]; intros mrs Hm; simpl iter_pos.
  - pose proof (shr_1_nonneg _ Hm) as H1.
    pose proof (iter_pos_invariant shr_1 (fun s => 0 <= shr_m s)
                  shr_1_nonneg p _ H1) as H2.
    rewrite IH, IH, shr_1_value by done.
    rewrite !Z.div_div by (try lia; apply Z.pow_pos_nonneg; lia).
    f_equal. rewrite Pos2Z.inj_xI, <- Z.pow_add_r, <- Z.pow_succ_r by lia.
    f_equal. lia.
  - pose proof (iter_pos_invariant shr_1 (fun s => 0 <= shr_m s)
                  shr_1_nonneg p _ Hm) as H2.
    rewrite IH, IH by done.
    rewrite !Z.div_div by (try lia; apply Z.pow_pos_nonneg; lia).
    f_equal. rewrite Pos2Z.inj_xO, <- Z.pow_add_r by lia. f_equal. lia.
  - by rewrite shr_1_value.
Qed.

Lemma fexp_eq (x : Z) : fexp prec emax x = Z.max (x - 53) (-1074).
Proof. reflexivity. Qed.

(** What the rounding shift does to a positive mantissa: the exponent
    becomes the larger of the given one and the canonical one, and the
    mantissa is divided accordingly. *)
Lemma shr_fexp_value (m : positive) (e : Z) (l : location) :
  let e' := Z.max e (fexp prec emax (Z.pos (digits2_pos m) + e)) in
  snd (shr_fexp prec emax (Z.pos m) e l) = e' /\
  shr_m (fst (shr_fexp prec emax (Z.pos m) e l)) = Z.pos m / 2 ^ (e' - e).
Proof.
  intros e'. unfold shr_fexp, shr. simpl Zdigits2.
  assert (shr_m (shr_record_of_loc (Z.pos m) l) = Z.pos m) as Hm
    by (by destruct l as [|[]]).
  destruct (fexp prec emax (Z.pos (digits2_pos m) + e) - e) as [|p|p] eqn:En;
    simpl.
  - replace (e' - e) with 0 by lia. rewrite Z.div_1_r. split; [lia | done].
  - replace (e' - e) with (Z.pos p) by lia. split; [lia|].
    rewrite shr_iter_value by (rewrite Hm; lia). by rewrite Hm.
  - replace (e' - e) with 0 by lia. rewrite Z.div_1_r. split; [lia | done].
Qed.

Lemma round_nearest_even_ge (m : Z) (l : location) :
  m <= round_nearest_even m l.
Proof. destruct l as [|[]]; simpl; try lia. destruct (Z.even m); lia. Qed.

(** Dividing a number of [d] digits by [2^(d - 53)] leaves at least
    [2^52]. *)
Lemma div_digits_ge (m : positive) (k : Z) :
  0 <= k -> k = Z.pos (digits2_pos m) - 53 -> 2 ^ 52 <= Z.pos m / 2 ^ k.
Proof.
  intros Hk ->. pose proof (digits2_pos_le m) as Hlo.
  apply Z.div_le_lower_bound; [apply Z.pow_pos_nonneg; lia|].
  rewrite Z.mul_comm, <- Z.pow_add_r by lia.
  by replace (52 + (Z.pos (digits2_pos m) - 53))
    with (Z.pos (digits2_pos m) - 1) by lia.
Qed.

(** Rounding does not go below a float that the exact value is not
    below. *)
Lemma binary_round_aux_not_below (P : positive) (e : Z) (mx : positive)
    (ex : Z) :
  bounded prec emax mx ex = true -> e <= ex ->
  Z.pos mx * 2 ^ (ex - e) <= Z.pos P ->
  SFltb (binary_round_aux prec emax false (Z.pos P) e loc_Exact)
    (S754_finite false mx ex) = false.
Proof.
  unfold bounded, canonical_mantissa.
  intros [Hc _]%andb_true_iff He HP. apply Z.eqb_eq in Hc.
  rewrite fexp_eq in Hc.
  pose proof (digits2_pos_lt P) as HPlt.
  pose proof (digits2_pos_le mx) as Hxle.
  assert (0 < 2 ^ (ex - e)) as Hpow by (apply Z.pow_pos_nonneg; lia).
  (* the sum has at least as many digits, counted from the exponent *)
  assert (Z.pos (digits2_pos mx) + ex <= Z.pos (digits2_pos P) + e) as Hdig.
  { destruct (decide (Z.pos (digits2_pos mx) + ex
                      <= Z.pos (digits2_pos P) + e)) as [|Hn]; [done|].
    assert (2 ^ Z.pos (digits2_pos P)
            <= 2 ^ (Z.pos (digits2_pos mx) - 1 + (ex - e)))
      by (apply Z.pow_le_mono_r; lia).
    rewrite Z.pow_add_r in * by lia. nia. }
  unfold binary_round_aux.
  destruct (shr_fexp_value P e loc_Exact) as [He1 Hm1].
  destruct (shr_fexp prec emax (Z.pos P) e loc_Exact) as [mrs' e'] eqn:E1.
  simpl in He1, Hm1. rewrite <- He1 in Hm1. rewrite fexp_eq in He1.
  set (m1 := round_nearest_even (shr_m mrs') (loc_of_shr_record mrs')).
  pose proof (round_nearest_even_ge (shr_m mrs') (loc_of_shr_record mrs'))
    as Hm1ge. fold m1 in Hm1ge.
  assert (ex <= e') as Hee by lia.
  (* the shifted mantissa is not below that of the float, or has 53 digits *)
  assert ((e' = ex /\ Z.pos mx <= shr_m mrs') \/
          (ex < e' /\ 2 ^ 52 <= shr_m mrs')) as Hcase.
  { destruct (decide (e' = ex)) as [Heq|Hne].
    - left. split; [done|]. rewrite Hm1, Heq.
      apply Z.div_le_lower_bound; [done|]. lia.
    - right. split; [lia|]. rewrite Hm1.
      apply div_digits_ge; lia. }
  assert (0 < m1) as Hpos1 by (destruct Hcase as [[_ ?]|[_ ?]]; lia).
  destruct m1 as [|q|q] eqn:Eq1; try lia.
  destruct (shr_fexp_value q e' loc_Exact) as [He2 Hm2].
  destruct (shr_fexp prec emax (Z.pos q) e' loc_Exact) as [mrs'' e''] eqn:E2.
  simpl in He2, Hm2. rewrite <- He2 in Hm2. rewrite fexp_eq in He2.
  assert ((e'' = e' /\ shr_m mrs'' = Z.pos q) \/
          (e' < e'' /\ 2 ^ 52 <= shr_m mrs'')) as Hcase2.
  { destruct (decide (e'' = e')) as [Heq|Hne].
    - left. split; [done|]. rewrite Hm2, Heq, Z.sub_diag. apply Z.div_1_r.
    - right. split; [lia|]. rewrite Hm2. apply div_digits_ge; lia. }
  assert (0 < shr_m mrs'') as Hpos2
    by (destruct Hcase2 as [[_ ->]|[_ ?]]; lia).
  destruct (shr_m mrs'') as [|m''|m''] eqn:Em; try lia.
  destruct (e'' <=? emax - prec); [|done].
  unfold SFltb, SFcompare.
  destruct (Z.compare_spec e'' ex) as [Heq|Hlt|Hgt]; [|lia|done].
  assert (Z.pos mx <= Z.pos m'') as Hle.
  { destruct Hcase as [[_ ?]|[? _]]; [|lia].
    destruct Hcase2 as [[_ ?]|[? _]]; lia. }
  rewrite Pos.compare_cont_spec. simpl.
  destruct (Pos.compare_spec m'' mx); try done. lia.
Qed.

Lemma shl_align_value (m : positive) (e e' : Z) :
  e' <= e -> Z.pos (fst (shl_align m e e')) = Z.pos m * 2 ^ (e - e').
Proof.
  intros He. unfold shl_align.
  destruct (e' - e) as [|d|d] eqn:Ed; simpl; try lia.
  - replace (e - e') with 0 by lia. lia.
  - rewrite iter_xO_value. f_equal. f_equal. lia.
Qed.

Lemma digits_of_larger (P mx : positive) (e ex : Z) :
  e <= ex -> Z.pos mx * 2 ^ (ex - e) <= Z.pos P ->
  Z.pos (digits2_pos mx) + ex <= Z.pos (digits2_pos P) + e.
Proof.
  intros He HP.
  pose proof (digits2_pos_lt P) as HPlt.
  pose proof (digits2_pos_le mx) as Hxle.
  assert (0 < 2 ^ (ex - e)) as Hpow by (apply Z.pow_pos_nonneg; lia).
  destruct (decide (Z.pos (digits2_pos mx) + ex
                    <= Z.pos (digits2_pos P) + e)) as [|Hn]; [done|].
  assert (2 ^ Z.pos (digits2_pos P)
          <= 2 ^ (Z.pos (digits2_pos mx) - 1 + (ex - e)))
    by (apply Z.pow_le_mono_r; lia).
  rewrite Z.pow_add_r in * by lia. nia.
Qed.

(** The sum of two floats that are not negative is not below the first. *)
Lemma SFadd_not_below (x y : spec_float) :
  valid_binary x = true -> valid_binary y = true ->
  sf_negative x = false -> sf_negative y = false ->
  SFltb (SF64add x y) x = false.
Proof.
  intros Hvx Hvy Hx Hy.
  destruct x as [sx|sx| |sx mx ex], y as [sy|sy| |sy my ey];
    try done; try (by destruct sx, sy).
  - (* a finite number and a zero *)
    destruct sx; [done|]. simpl. unfold SFltb, SFcompare.
    by rewrite Z.compare_refl, Pos.compare_cont_refl.
  - destruct sx, sy; try done. simpl in Hvx, Hvy.
    unfold SF64add, SFadd, cond_Zopp.
    set (ez := Z.min ex ey).
    assert (ez <= ex) as Hez by (unfold ez; lia).
    assert (ez <= ey) as Hez' by (unfold ez; lia).
    pose proof (shl_align_value mx ex ez Hez) as Hax.
    set (a := fst (shl_align mx ex ez)) in *.
    set (b := fst (shl_align my ey ez)) in *.
    change (Z.pos a + Z.pos b) with (Z.pos (a + b)).
    simpl binary_normalize. unfold binary_round.
    assert (Z.pos mx * 2 ^ (ex - ez) <= Z.pos (a + b)) as HP by lia.
    pose proof (digits_of_larger _ _ _ _ Hez HP) as Hdig.
    assert (ez <= fexp prec emax (Z.pos (digits2_pos (a + b)) + ez)) as Hf.
    { unfold bounded, canonical_mantissa in Hvx.
      apply andb_true_iff in Hvx as [Hc _]. apply Z.eqb_eq in Hc.
      rewrite fexp_eq in *. lia. }
    unfold shl_align.
    destruct (fexp prec emax (Z.pos (digits2_pos (a + b)) + ez) - ez)
      as [|d|d] eqn:Ed; try lia.
    + by apply binary_round_aux_not_below.
    + by apply binary_round_aux_not_below.
Qed.

Lemma add_not_below (t dt : float) :
  not_negative t -> not_negative dt -> ~ flt (t + dt) t.
Proof.
  rewrite !not_negative_spec, flt_spec, add_spec. intros Ht Hdt.
  rewrite SFadd_not_below; try done; apply Prim2SF_valid.
Qed.

(** ** Multiplying and dividing by one *)

(** Shifting out the zeros that were shifted in is exact. *)
Lemma shr_iter_exact (k m : positive) :
  iter_pos shr_1 k
    {| shr_m := Z.pos (Pos.iter xO m k); shr_r := false; shr_s := false |}
  = {| shr_m := Z.pos m; shr_r := false; shr_s := false |}.
Proof.
  revert m. induction k as [k IH|k IH|]; intros m; simpl.
  - by rewrite !IH.
  - by rewrite !IH.
  - done.
Qed.

(** A canonical mantissa, shifted to the left, rounds to itself. *)
Lemma binary_round_aux_shifted (s : bool) (m k : positive) (e : Z) :
  bounded prec emax m e = true ->
  binary_round_aux prec emax s (Z.pos (Pos.iter xO m k)) (e - Z.pos k)
    loc_Exact
  = S754_finite s m e.
Proof.
  intros Hb. pose proof Hb as Hb'. unfold bounded, canonical_mantissa in Hb.
  apply andb_true_iff in Hb as [Hc He%Z.leb_le]. apply Z.eqb_eq in Hc.
  unfold binary_round_aux at 1, shr_fexp at 1. simpl Zdigits2.
  rewrite digits2_pos_shift.
  replace (Z.pos (digits2_pos m) + Z.pos k + (e - Z.pos k))
    with (Z.pos (digits2_pos m) + e) by lia.
  rewrite Hc.
  replace (e - (e - Z.pos k)) with (Z.pos k) by lia.
  unfold shr, shr_record_of_loc. rewrite shr_iter_exact.
  replace (e - Z.pos k + Z.pos k) with e by lia.
  cbn [shr_m loc_of_shr_record round_nearest_even].
  unfold shr_fexp. simpl Zdigits2. rewrite Hc, Z.sub_diag. simpl.
  by rewrite (proj2 (Z.leb_le _ _) He).
Qed.

Lemma mul_1_r (x : float) : (x * 1 = x)%float.
Proof.
  apply Prim2SF_inj. rewrite mul_spec.
  pose proof (Prim2SF_valid x) as Hv.
  change (Prim2SF 1) with (S754_finite false 4503599627370496 (-52)).
  destruct (Prim2SF x) as [s|s| |s m e]; simpl; try done;
    try (by rewrite xorb_false_r).
  rewrite xorb_false_r.
  replace (m * 4503599627370496)%positive with (Pos.iter xO m 52)
    by (rewrite Pos.mul_comm; reflexivity).
  change (e + -52) with (e - 52).
  by apply binary_round_aux_shifted.
Qed.

Lemma div_1_r (x : float) : (x / 1 = x)%float.
Proof.
  apply Prim2SF_inj. rewrite div_spec.
  pose proof (Prim2SF_valid x) as Hv.
  change (Prim2SF 1) with (S754_finite false 4503599627370496 (-52)).
  destruct (Prim2SF x) as [s|s| |s m e];
    [by simpl; rewrite xorb_false_r.. | done |].
  unfold SF64div, SFdiv, SFdiv_core_binary.
  simpl Zdigits2. change (Z.pos (digits2_pos 4503599627370496)) with 53.
  pose proof Hv as Hb. unfold bounded, canonical_mantissa in Hb.
  apply andb_true_iff in Hb as [Hc He%Z.leb_le]. apply Z.eqb_eq in Hc.
  rewrite fexp_eq in Hc. rewrite fexp_eq.
  destruct (decide (e = -1074)) as [Hmin|Hnorm].
  - replace (Z.min _ _) with e by lia.
    replace (e - -52 - e) with 52 by lia.
    change (Z.shiftl (Z.pos m) 52) with (Z.pos (Pos.iter xO m 52)).
    rewrite iter_xO_value.
    change (2 ^ 52) with 4503599627370496.
    destruct (Z.div_eucl _ _) as [q r] eqn:Ediv.
    assert (q = Z.pos m /\ r = 0) as [-> ->].
    { pose proof (Z_div_mod (Z.pos m * 4503599627370496) 4503599627370496
                    eq_refl) as H.
      rewrite Ediv in H. nia. }
    rewrite xorb_false_r. by apply binary_round_aux_canonical.
  - replace (Z.min _ _) with (e - 1) by lia.
    replace (e - -52 - (e - 1)) with 53 by lia.
    change (Z.shiftl (Z.pos m) 53) with (Z.pos (Pos.iter xO m 53)).
    rewrite iter_xO_value.
    change (2 ^ 53) with (2 * 4503599627370496).
    destruct (Z.div_eucl _ _) as [q r] eqn:Ediv.
    assert (q = Z.pos (Pos.iter xO m 1) /\ r = 0) as [-> ->].
    { pose proof (Z_div_mod (Z.pos m * (2 * 4503599627370496))
                    4503599627370496 eq_refl) as H.
      rewrite Ediv in H. simpl Pos.iter. nia. }
    rewrite xorb_false_r. by apply (binary_round_aux_shifted s m 1 e).
Qed.

(** ** Infinities *)

Lemma infinity_not_below (x : float) : ~ flt infinity x.
Proof.
  rewrite flt_spec. change (Prim2SF infinity) with (S754_infinity false).
  by destruct (Prim2SF x) as [[]|[]| |[] ? ?].
Qed.

Lemma div_infinity (a0 : float) :
  flt 0 a0 -> finite a0 -> (infinity / a0 = infinity)%float.
Proof.
  rewrite positive_spec, finite_spec. intros (Hn & Hz & _) Hf.
  apply Prim2SF_inj. rewrite div_spec.
  change (Prim2SF infinity) with (S754_infinity false).
  by destruct (Prim2SF a0) as [[]|[]| |[] ? ?].
Qed.

Lemma add_infinity (t : float) :
  finite t -> (t + infinity = infinity)%float.
Proof.
  rewrite finite_spec. intros Hf. apply Prim2SF_inj. rewrite add_spec.
  change (Prim2SF infinity) with (S754_infinity false).
  by destruct (Prim2SF t) as [[]|[]| |[] ? ?].
Qed.

Lemma negative_not_zero (x : float) : flt x 0 -> ~ feq x 0.
Proof.
  rewrite negative_spec, zero_spec.
  by destruct (Prim2SF x) as [[]|[]| |[] ? ?].
Qed.

Lemma positive_not_zero (x : float) : flt 0 x -> ~ feq x 0.
Proof.
  rewrite positive_spec, zero_spec. intros (_ & Hz & _). by rewrite Hz.
Qed.

(** A float above one that is not negative is not a zero. *)
Lemma above_not_zero (t a : float) : not_negative t -> flt t a -> ~ feq a 0.
Proof.
  intros Ht Hlt Hz. apply Ht. unfold flt in *.
  by rewrite <- (ltb_zero_r t a Hz).
Qed.

(** ** Tests *)

Lemma flt_true (x y : float) : (x <? y)%float = true <-> flt x y.
Proof. unfold flt. by rewrite Is_true_true. Qed.

Lemma flt_false (x y : float) : (x <? y)%float = false <-> ~ flt x y.
Proof. unfold flt. by rewrite Is_true_false. Qed.

Lemma feq_true (x y : float) : (x =? y)%float = true <-> feq x y.
Proof. unfold feq. by rewrite Is_true_true. Qed.

Lemma feq_false (x y : float) : (x =? y)%float = false <-> ~ feq x y.
Proof. unfold feq. by rewrite Is_true_false. Qed.

(** ** Rates, draws and waiting times *)

Lemma valid_rate_not_negative (k : float) : valid_rate k -> not_negative k.
Proof. intros [H _]. by apply fle_0_not_negative. Qed.

Lemma valid_rate_finite (k : float) : valid_rate k -> finite k.
Proof.
  intros [Hlo Hhi]. apply finite_spec. revert Hlo Hhi.
  rewrite fle_spec, flt_spec.
  change (Prim2SF 0) with (S754_zero false).
  change (Prim2SF infinity) with (S754_infinity false).
  by destruct (Prim2SF k) as [[]|[]| |[] ? ?].
Qed.

(** The logarithm of a valid draw is below zero. *)
Lemma log_negative (d : draw) : valid_draw d -> flt (log_r1 d) 0.
Proof.
  intros ([Hlo _] & [Hzero Hpos] & _).
  destruct (fle_0_cases _ Hlo) as [Hz|Hp].
  - by rewrite (Hzero Hz).
  - by apply Hpos.
Qed.

(** The waiting time of a valid draw is not negative, whatever total
    propensity (not negative, and not zero) divides it. *)
Lemma waiting_time_not_negative (d : draw) (a0 : float) :
  valid_draw d -> not_negative a0 -> ~ feq a0 0 ->
  not_negative (Fundamentals.waiting_time (log_r1 d) a0).
Proof.
  intros Hd Ha0 Hne. unfold Fundamentals.waiting_time.
  apply div_not_negative; try done.
  by apply opp_not_negative, log_negative.
Qed.

(** At a draw [r1 = 0.0] the waiting time is [+inf]. *)
Lemma waiting_time_zero_draw (a0 : float) :
  flt 0 a0 -> finite a0 ->
  Fundamentals.waiting_time neg_infinity a0 = infinity.
Proof.
  intros Hpos Hfin. unfold Fundamentals.waiting_time.
  change (- neg_infinity)%float with infinity. by apply div_infinity.
Qed.

Lemma waiting_time_agree (l a0 : float) :
  VitalOrgan.waiting_time l a0 = Fundamentals.waiting_time l a0.
Proof. reflexivity. Qed.

(** ** The conversion of counts *)

Lemma float_of_int_0 : float_of_int 0 = Ok 0%float.
Proof. reflexivity. Qed.

Lemma float_of_int_Ok (n : Z) (x : float) :
  float_of_int n = Ok x ->
  x = nearest_float n /\ finite x /\ (0 <= n -> not_negative x).
Proof.
  unfold float_of_int. pose proof (nearest_float_signed n) as Hs.
  rewrite is_infinity_spec.
  destruct (Prim2SF (nearest_float n)) as [s|s| |s m e] eqn:E; try done;
    intros [= <-]; (split; [done|]); (split; [by rewrite finite_spec, E|]);
    intros Hn; rewrite not_negative_spec, E; simpl; simpl in Hs;
    try done.
  subst s. by rewrite (proj2 (Z.ltb_ge n 0)) by lia.
Qed.

Lemma float_of_int_Err (n : Z) (e : exn) :
  float_of_int n = Err e -> e = OverflowError.
Proof.
  unfold float_of_int. by destruct (is_infinity _); intros [= <-].
Qed.

Lemma float_of_int_small (n : Z) :
  Z.abs n < 2 ^ 53 -> float_of_int n = Ok (nearest_float n).
Proof.
  intros Hn. unfold float_of_int. by rewrite nearest_float_small.
Qed.

Lemma mul_int_Ok (rate : float) (n : Z) (p : float) :
  mul_int rate n = Ok p ->
  exists x, float_of_int n = Ok x /\ p = (rate * x)%float.
Proof.
  unfold mul_int. destruct (float_of_int n) as [x|]; simpl; [|done].
  intros [= <-]. by exists x.
Qed.

Lemma mul_int_Err (rate : float) (n : Z) (e : exn) :
  mul_int rate n = Err e -> e = OverflowError.
Proof.
  unfold mul_int.
  destruct (float_of_int n) as [x|e'] eqn:E; simpl; [done|].
  intros [= <-]. by eapply float_of_int_Err.
Qed.

Lemma mul_int_small (rate : float) (n : Z) :
  Z.abs n < 2 ^ 53 -> exists p, mul_int rate n = Ok p.
Proof.
  intros Hn. unfold mul_int. rewrite float_of_int_small by done.
  simpl. eauto.
Qed.

(** A valid rate times a count that is not negative. *)
Lemma mul_int_not_negative (rate : float) (n : Z) (p : float) :
  valid_rate rate -> 0 <= n -> mul_int rate n = Ok p -> not_negative p.
Proof.
  intros Hr Hn (x & Hx & ->)%mul_int_Ok.
  apply float_of_int_Ok in Hx as (_ & _ & Hx).
  apply mul_not_negative; [by apply valid_rate_not_negative | by apply Hx].
Qed.

(** A finite rate times the count zero is a zero. *)
Lemma mul_int_zero (rate : float) (p : float) :
  finite rate -> mul_int rate 0 = Ok p -> feq p 0.
Proof.
  intros Hr. unfold mul_int. rewrite float_of_int_0. simpl.
  intros [= <-]. by apply mul_zero_r.
Qed.

(** So a propensity that is not a zero has a source that holds a
    molecule. *)
Lemma mul_int_source (rate : float) (n : Z) (p : float) :
  finite rate -> 0 <= n -> mul_int rate n = Ok p -> ~ feq p 0 -> 1 <= n.
Proof.
  intros Hr Hn Hp Hne. destruct (decide (n = 0)) as [->|]; [|lia].
  exfalso. by apply Hne, (mul_int_zero rate).
Qed.

(** ** Sums of propensities *)

Lemma foldl_add_not_negative (ps : list float) (cum : float) :
  not_negative cum -> Forall not_negative ps ->
  not_negative (foldl PrimFloat.add cum ps).
Proof.
  intros Hc Hps. revert cum Hc.
  induction Hps as [|p ps Hp _ IH]; intros cum Hc; simpl; [done|].
  apply IH. by apply add_not_negative.
Qed.

Lemma py_sum_not_negative (ps : list float) :
  Forall not_negative ps -> not_negative (py_sum ps).
Proof.
  intros Hps. apply foldl_add_not_negative; [|done].
  by apply feq_zero_not_negative.
Qed.

(** ** Outcomes *)

Lemma ensures_carried {A : Type} (P : A -> Prop) (o : outcome A) :
  ensures P o <-> forall a, carried o = Some a -> P a.
Proof.
  destruct o; simpl; split; intros; simplify_eq; eauto.
Qed.

Lemma carried_map {A B : Type} (f : A -> B) (o : outcome A) :
  carried (outcome_map f o) = f <$> carried o.
Proof. by destruct o. Qed.

Lemma outcome_map_compose {A B C : Type} (f : A -> B) (g : B -> C)
    (o : outcome A) :
  outcome_map g (outcome_map f o) = outcome_map (fun a => g (f a)) o.
Proof. by destruct o. Qed.

(** ** Lists *)

Lemma adjacent_snoc {A : Type} (P : A -> A -> Prop) (l : list A) (x y : A) :
  adjacent P l -> last l = Some x -> P x y -> adjacent P (l ++ [y]).
Proof.
  induction l as [|a l IH]; intros Hadj Hlast Hxy; [done|].
  destruct l as [|b l].
  - simpl in *. injection Hlast as ->. done.
  - destruct Hadj as [Hab Hadj].
    change (last (a :: b :: l)) with (last (b :: l)) in Hlast.
    split; [done|]. by apply IH.
Qed.



Lemma zip_snoc {A B : Type} (l1 : list A) (l2 : list B) (a : A) (b : B) :
  length l1 = length l2 ->
  zip (l1 ++ [a]) (l2 ++ [b]) = zip l1 l2 ++ [(a, b)].
Proof. intros Hlen. by rewrite zip_with_app. Qed.

(** ** The two-compartment loop *)

Section Fundamentals_loop.
Import Fundamentals.
Variables k1 k2 t_max : float.

(** One iteration of the loop, as an equation. *)
Lemma F_main_loop_eq (draws : list draw) (s : locals) :
  main_loop k1 k2 t_max draws s =
  if (t s <? t_max)%float then
    match a1_of k2 s with
    | Err e => Raised e
    | Ok a1 =>
        match a2_of k1 s with
        | Err e => Raised e
        | Ok a2 =>
            if (a1 + a2 =? 0)%float then Returned s
            else
              match draws with
              | [] => Pending s
              | d :: draws' =>
                  main_loop k1 k2 t_max draws' (event (a1 + a2) a1 d s)
              end
        end
    end
  else Returned s.
Proof. by destruct draws. Qed.

(** The loop raises nothing but [OverflowError]. *)
Lemma F_main_loop_raises (draws : list draw) (s : locals) (e : exn) :
  main_loop k1 k2 t_max draws s = Raised e -> e = OverflowError.
Proof.
  revert s. induction draws as [|d draws IH]; intros s;
    rewrite F_main_loop_eq;
    destruct (t s <? t_max)%float; try done;
    destruct (a1_of k2 s) as [a1|e1] eqn:E1;
    try (intros [= <-]; by eapply mul_int_Err);
    destruct (a2_of k1 s) as [a2|e2] eqn:E2;
    try (intros [= <-]; by eapply mul_int_Err);
    destruct (a1 + a2 =? 0)%float; try done.
  apply IH.
Qed.

(** Loop rule: a property kept by every event that the loop can execute
    holds of the state the loop ends with. *)
Lemma F_main_loop_rule (Q : draw -> Prop) (P : locals -> Prop) :
  (forall s d a1 a2,
      P s -> Q d -> flt (t s) t_max ->
      a1_of k2 s = Ok a1 -> a2_of k1 s = Ok a2 -> ~ feq (a1 + a2) 0 ->
      P (event (a1 + a2) a1 d s)) ->
  forall draws s s', Forall Q draws -> P s ->
    carried (main_loop k1 k2 t_max draws s) = Some s' -> P s'.
Proof.
  intros Hstep draws.
  induction draws as [|d draws IH]; intros s s' HQ HP;
    rewrite F_main_loop_eq;
    destruct (t s <? t_max)%float eqn:Hg;
    try (simpl; intros; by simplify_eq);
    destruct (a1_of k2 s) as [a1|e1] eqn:E1; try done;
    destruct (a2_of k1 s) as [a2|e2] eqn:E2; try done;
    destruct (a1 + a2 =? 0)%float eqn:Hz;
    try (simpl; intros; by simplify_eq).
  apply IH; [by eapply Forall_inv_tail|].
  apply Hstep; try done.
  - by eapply Forall_inv.
  - by apply flt_true.
  - by apply feq_false.
Qed.

(** The counts of a short run are floats: the loop does not raise. *)
Lemma F_main_loop_small (draws : list draw) (s : locals) :
  Z.abs (n1 s) + Z.of_nat (length draws) < 2 ^ 53 ->
  Z.abs (n2 s) + Z.of_nat (length draws) < 2 ^ 53 ->
  exists s', carried (main_loop k1 k2 t_max draws s) = Some s'.
Proof.
  revert s. induction draws as [|d draws IH]; intros s H1 H2;
    rewrite F_main_loop_eq;
    destruct (t s <? t_max)%float; eauto;
    destruct (mul_int_small k2 (n1 s)) as [a1 Ha1]; try lia;
    destruct (mul_int_small k1 (n2 s)) as [a2 Ha2]; try lia;
    unfold a1_of, a2_of; rewrite Ha1, Ha2;
    destruct (a1 + a2 =? 0)%float; eauto.
  apply IH; simpl in *; unfold react; destruct (_ <? _)%float; simpl; lia.
Qed.
End Fundamentals_loop.

(** The reaction the two-compartment test chooses on valid rates and counts
    that are not negative: Heart to Lung only when the Heart holds a
    molecule; Lung to Heart otherwise, also when the Lung is empty, and then
    the clamp resets the count of the Lung to zero. *)
Lemma F_react_valid (k1 k2 r2 : float) (c1 c2 : Z) (a1 a2 : float) :
  valid_rate k1 -> valid_rate k2 -> fle 0 r2 ->
  0 <= c1 -> 0 <= c2 ->
  mul_int k2 c1 = Ok a1 -> mul_int k1 c2 = Ok a2 ->
  let c := Fundamentals.react r2 (a1 + a2) a1 (c1, c2) in
  (flt (r2 * (a1 + a2)) a1 /\ 1 <= c1 /\ c = (c1 - 1, c2 + 1) /\
   Fundamentals.clamp c = c) \/
  (~ flt (r2 * (a1 + a2)) a1 /\ 1 <= c2 /\ c = (c1 + 1, c2 - 1) /\
   Fundamentals.clamp c = c) \/
  (~ flt (r2 * (a1 + a2)) a1 /\ c2 = 0 /\ c = (c1 + 1, -1) /\
   Fundamentals.clamp c = (c1 + 1, 0)).
Proof.
  intros Hk1 Hk2 Hr2 Hc1 Hc2 Ha1 Ha2 c.
  pose proof (mul_int_not_negative _ _ _ Hk2 Hc1 Ha1) as Hn1.
  pose proof (mul_int_not_negative _ _ _ Hk1 Hc2 Ha2) as Hn2.
  assert (not_negative (r2 * (a1 + a2))) as Hthr.
  { apply mul_not_negative; [by apply fle_0_not_negative|].
    by apply add_not_negative. }
  unfold c, Fundamentals.react, Fundamentals.clamp.
  destruct (r2 * (a1 + a2) <? a1)%float eqn:Hsel; simpl.
  - left. apply flt_true in Hsel.
    assert (1 <= c1) as Hge.
    { apply (mul_int_source k2 c1 a1); try done.
      - by apply valid_rate_finite.
      - by eapply above_not_zero. }
    repeat split; try done. f_equal; lia.
  - right. apply flt_false in Hsel.
    destruct (decide (c2 = 0)) as [->|Hne].
    + right. repeat split; try done. f_equal; lia.
    + left. repeat split; try done; [lia|]. f_equal; lia.
Qed.

Lemma F_clamp_nonneg (c : Z * Z) :
  0 <= (Fundamentals.clamp c).1 /\ 0 <= (Fundamentals.clamp c).2.
Proof. unfold Fundamentals.clamp; simpl. lia. Qed.

Lemma F_clamp_id (c : Z * Z) :
  0 <= c.1 -> 0 <= c.2 -> Fundamentals.clamp c = c.
Proof.
  destruct c as [a b]; unfold Fundamentals.clamp; simpl; intros.
  f_equal; lia.
Qed.

(** Invariants of the two-compartment loop. *)

Lemma F_aligned_event (a0 a1 : float) (d : draw) (s : Fundamentals.locals) :
  F_aligned s -> F_aligned (Fundamentals.event a0 a1 d s).
Proof.
  intros [H1 H2]. unfold F_aligned; simpl. rewrite !length_app; simpl. lia.
Qed.

Lemma F_nonneg_event (a0 a1 : float) (d : draw) (s : Fundamentals.locals) :
  F_nonneg s -> F_nonneg (Fundamentals.event a0 a1 d s).
Proof.
  intros (H1 & H2 & H3 & H4). unfold F_nonneg; simpl.
  repeat split; try lia; apply Forall_app; split; try done;
    apply Forall_singleton; lia.
Qed.

Lemma F_tracks_event (a0 a1 : float) (d : draw) (s : Fundamentals.locals) :
  F_tracks (Fundamentals.event a0 a1 d s).
Proof. unfold F_tracks; simpl. by rewrite !last_snoc. Qed.

Lemma F_tracks_initial (D : Z) : F_tracks (Fundamentals.initial D).
Proof. by unfold F_tracks. Qed.


Lemma F_stepwise_initial (D : Z) (step : Z * Z -> Z * Z -> Prop) :
  0 <= D -> F_stepwise step (Fundamentals.initial D).
Proof. intros HD. unfold F_stepwise; simpl. repeat split; try done. Qed.

Lemma F_initial_aligned (D : Z) : F_aligned (Fundamentals.initial D).
Proof. by split. Qed.

Lemma F_initial_nonneg (D : Z) : 0 <= D -> F_nonneg (Fundamentals.initial D).
Proof.
  intros HD. unfold F_nonneg; simpl.
  repeat split; try lia; by apply Forall_singleton.
Qed.

(** The clock of either loop after an event on a valid draw. *)
Lemma clocked_event (t : float) (times : list float) (d : draw) (a0 : float) :
  valid_draw d -> not_negative a0 -> ~ feq a0 0 ->
  clocked t times ->
  let t' := (t + Fundamentals.waiting_time (log_r1 d) a0)%float in
  clocked t' (times ++ [t']).
Proof.
  intros Hd Ha0 Hne (Ht & Hlast & Hhead & Hadj) t'.
  pose proof (waiting_time_not_negative d a0 Hd Ha0 Hne) as Hdt.
  split; [by apply add_not_negative|].
  split; [by rewrite last_snoc|]. split.
  { destruct times; [done|]. done. }
  eapply adjacent_snoc; [done | done |]. by apply add_not_below.
Qed.

Lemma clocked_initial : clocked 0%float [0%float].
Proof.
  split; [by apply feq_zero_not_negative|]. by repeat split.
Qed.

(** ** Dictionaries of counts *)

Lemma total_empty : total ∅ = 0.
Proof. apply map_fold_empty. Qed.

Lemma total_insert_fresh (m : gmap string Z) (k : string) (v : Z) :
  m !! k = None -> total (<[k := v]> m) = v + total m.
Proof.
  intros Hk. unfold total. rewrite map_fold_insert_L; [done| |done].
  intros. lia.
Qed.

Lemma total_insert (m : gmap string Z) (k : string) (old v : Z) :
  m !! k = Some old -> total (<[k := v]> m) = total m - old + v.
Proof.
  intros Hk.
  rewrite <- (insert_delete_eq m k v).
  rewrite <- (insert_delete_id m k old) at 2 by done.
  rewrite !total_insert_fresh by apply lookup_delete_eq. lia.
Qed.

Lemma getitem_Some {V : Type} (d : gmap string V) (k : string) (v : V) :
  d !! k = Some v -> getitem d k = Ok v.
Proof. intros H. unfold getitem. by rewrite H. Qed.

Lemma getitem_Ok {V : Type} (d : gmap string V) (k : string) (v : V) :
  getitem d k = Ok v -> d !! k = Some v.
Proof. unfold getitem. destruct (d !! k); intros; by simplify_eq. Qed.

Lemma getitem_dom {V : Type} (d : gmap string V) (k : string) :
  k ∈ dom d -> exists v, d !! k = Some v /\ getitem d k = Ok v.
Proof.
  intros [v Hv]%elem_of_dom. exists v. split; [done|]. by apply getitem_Some.
Qed.

(** The effect of one reaction on a dictionary that has both compartments:
    one molecule leaves the source and one arrives at the destination. *)
Lemma apply_reaction_closed (n : gmap string Z) (r : VitalOrgan.reaction) :
  VitalOrgan.from r ∈ dom n -> VitalOrgan.to r ∈ dom n ->
  exists n_from n',
    n !! VitalOrgan.from r = Some n_from /\
    VitalOrgan.apply_reaction n r = Ok n' /\
    dom n' = dom n /\
    total n' = total n /\
    (forall k, k <> VitalOrgan.from r -> k <> VitalOrgan.to r ->
               n' !! k = n !! k) /\
    (1 <= n_from -> nonneg n -> nonneg n') /\
    (forall k c', n' !! k = Some c' ->
                  exists c, n !! k = Some c /\ Z.abs c' <= Z.abs c + 1).
Proof.
  intros Hfrom Hto.
  destruct (getitem_dom n _ Hfrom) as (n_from & Hlk & Hget).
  set (n1 := <[VitalOrgan.from r := n_from - 1]> n).
  assert (VitalOrgan.to r ∈ dom n1) as Hto1.
  { unfold n1. rewrite dom_insert_L. set_solver. }
  destruct (getitem_dom n1 _ Hto1) as (n_to & Hlk1 & Hget1).
  exists n_from, (<[VitalOrgan.to r := n_to + 1]> n1).
  split; [done|]. split.
  { unfold VitalOrgan.apply_reaction. rewrite Hget. simpl.
    fold n1. rewrite Hget1. done. }
  split.
  { rewrite dom_insert_lookup_L by done. unfold n1.
    by rewrite dom_insert_lookup_L. }
  split.
  { rewrite (total_insert n1 _ n_to) by done.
    unfold n1. rewrite (total_insert n _ n_from) by done. lia. }
  split.
  { intros k Hk1 Hk2. unfold n1. by rewrite !lookup_insert_ne. }
  split.
  - intros Hge Hnn k c.
    destruct (decide (k = VitalOrgan.to r)) as [->|Hne].
    + rewrite lookup_insert_eq. intros [= <-].
      unfold n1 in Hlk1.
      destruct (decide (VitalOrgan.to r = VitalOrgan.from r)) as [e|Hne'].
      * rewrite e, lookup_insert_eq in Hlk1. simplify_eq. lia.
      * rewrite lookup_insert_ne in Hlk1 by done.
        apply Hnn in Hlk1. lia.
    + rewrite lookup_insert_ne by done. unfold n1.
      destruct (decide (k = VitalOrgan.from r)) as [->|Hne'].
      * rewrite lookup_insert_eq. intros [= <-]. lia.
      * rewrite lookup_insert_ne by done. apply Hnn.
  - intros k c'.
    destruct (decide (k = VitalOrgan.to r)) as [->|Hne].
    + rewrite lookup_insert_eq. intros [= <-].
      unfold n1 in Hlk1.
      destruct (decide (VitalOrgan.to r = VitalOrgan.from r)) as [e|Hne'].
      * rewrite e, lookup_insert_eq in Hlk1. simplify_eq.
        rewrite e. exists n_from. split; [done | lia].
      * rewrite lookup_insert_ne in Hlk1 by done.
        exists n_to. split; [done | lia].
    + rewrite lookup_insert_ne by done. unfold n1.
      destruct (decide (k = VitalOrgan.from r)) as [->|Hne'].
      * rewrite lookup_insert_eq. intros [= <-].
        exists n_from. split; [done | lia].
      * rewrite lookup_insert_ne by done. intros Hk.
        exists c'. split; [done | lia].
Qed.

Lemma clamp_dom (n : gmap string Z) : dom (VitalOrgan.clamp n) = dom n.
Proof. unfold VitalOrgan.clamp. apply dom_fmap_L. Qed.

Lemma clamp_nonneg (n : gmap string Z) : nonneg (VitalOrgan.clamp n).
Proof.
  intros k c. unfold VitalOrgan.clamp. rewrite lookup_fmap.
  destruct (n !! k); simpl; intros; simplify_eq. lia.
Qed.

Lemma clamp_id (n : gmap string Z) : nonneg n -> VitalOrgan.clamp n = n.
Proof.
  intros Hnn. apply map_eq. intros k. unfold VitalOrgan.clamp.
  rewrite lookup_fmap. destruct (n !! k) as [c|] eqn:Hk; [|done].
  simpl. f_equal. apply Hnn in Hk. lia.
Qed.

Lemma clamp_abs (n : gmap string Z) (k : string) (c' : Z) :
  VitalOrgan.clamp n !! k = Some c' ->
  exists c, n !! k = Some c /\ Z.abs c' <= Z.abs c.
Proof.
  unfold VitalOrgan.clamp. rewrite lookup_fmap.
  destruct (n !! k) as [c|]; simpl; [|done]. intros [= <-].
  exists c. split; [done | lia].
Qed.

(** ** Propensities and the selection scan *)

Lemma calc_propensities_Ok (n : gmap string Z)
    (reactions : list VitalOrgan.reaction) (ps : list float) :
  VitalOrgan.calc_propensities n reactions = Ok ps ->
  Forall2 (propensity_of n) reactions ps.
Proof.
  revert ps. induction reactions as [|r rs IH]; intros ps; simpl.
  - intros [= <-]. constructor.
  - unfold VitalOrgan.propensity.
    destruct (getitem n (VitalOrgan.from r)) as [c|] eqn:Hget; simpl; [|done].
    destruct (mul_int (VitalOrgan.rate r) c) as [p|] eqn:Hp; simpl; [|done].
    destruct (VitalOrgan.calc_propensities n rs) as [ps'|]; simpl; [|done].
    intros [= <-]. constructor; [|by apply IH].
    apply mul_int_Ok in Hp as (x & Hx & ->).
    exists c, x. split; [by apply getitem_Ok | done].
Qed.

(** On a dictionary that has the compartments of the reactions, computing
    the propensities raises nothing but [OverflowError]... *)
Lemma calc_propensities_Err (n : gmap string Z)
    (reactions : list VitalOrgan.reaction) (e : exn) :
  closed reactions n ->
  VitalOrgan.calc_propensities n reactions = Err e -> e = OverflowError.
Proof.
  induction 1 as [|r rs [Hfrom _] _ IH]; simpl; [done|].
  destruct (getitem_dom n _ Hfrom) as (c & Hlk & Hget).
  unfold VitalOrgan.propensity. rewrite Hget. simpl.
  destruct (mul_int (VitalOrgan.rate r) c) as [p|e'] eqn:Hp; simpl.
  - destruct (VitalOrgan.calc_propensities n rs) as [ps'|e'']; simpl;
      [done|]. intros [= <-]. by apply IH.
  - intros [= <-]. by eapply mul_int_Err.
Qed.

(** ... and nothing at all when the counts are small. *)
Lemma calc_propensities_small (n : gmap string Z)
    (reactions : list VitalOrgan.reaction) :
  closed reactions n ->
  (forall k c, n !! k = Some c -> Z.abs c < 2 ^ 53) ->
  exists ps, VitalOrgan.calc_propensities n reactions = Ok ps.
Proof.
  intros Hcl Hsmall. induction Hcl as [|r rs [Hfrom _] _ (ps & Hps)]; simpl.
  - by exists [].
  - destruct (getitem_dom n _ Hfrom) as (c & Hlk & Hget).
    destruct (mul_int_small (VitalOrgan.rate r) c) as [p Hp];
      [by eapply Hsmall|].
    exists (p :: ps). unfold VitalOrgan.propensity.
    rewrite Hget. simpl. rewrite Hp. simpl. by rewrite Hps.
Qed.

Lemma running_0 (cum p : float) (ps : list float) :
  running cum (p :: ps) 0 = (cum + p)%float.
Proof. reflexivity. Qed.

Lemma running_S (cum p : float) (ps : list float) (i : nat) :
  running cum (p :: ps) (S i) = running (cum + p) ps i.
Proof. reflexivity. Qed.

Lemma running_last (cum : float) (ps : list float) :
  ps <> [] -> running cum ps (pred (length ps)) = foldl PrimFloat.add cum ps.
Proof.
  intros Hne. unfold running. destruct ps as [|p ps]; [done|].
  rewrite firstn_all2; [done | simpl; lia].
Qed.

Lemma running_step (cum : float) (ps : list float) (i : nat) (p : float) :
  ps !! S i = Some p -> running cum ps (S i) = (running cum ps i + p)%float.
Proof.
  intros Hp. unfold running.
  rewrite (take_S_r ps (S i) p) by done. by rewrite foldl_app.
Qed.

(** The scan applies the first reaction whose running sum exceeds the
    threshold, and nothing when no running sum does. *)
Lemma determine_reaction_scan (n : gmap string Z) (threshold : float)
    (reactions : list VitalOrgan.reaction) (ps : list float) (cum : float) :
  length ps = length reactions ->
  (exists i r,
      reactions !! i = Some r /\
      flt threshold (running cum ps i) /\
      (forall j, (j < i)%nat -> ~ flt threshold (running cum ps j)) /\
      VitalOrgan.determine_reaction reactions ps cum threshold n
        = VitalOrgan.apply_reaction n r)
  \/
  ((forall j, (j < length ps)%nat -> ~ flt threshold (running cum ps j)) /\
   VitalOrgan.determine_reaction reactions ps cum threshold n = Ok n).
Proof.
  revert ps cum. induction reactions as [|r rs IH]; intros ps cum Hlen.
  - right. destruct ps; [|done]. split; [simpl; lia | done].
  - destruct ps as [|p ps]; [done|]. simpl in Hlen.
    simpl VitalOrgan.determine_reaction.
    destruct (threshold <? cum + p)%float eqn:Hsel.
    + left. exists 0%nat, r. rewrite running_0.
      repeat split; try done; [by apply flt_true | lia].
    + apply flt_false in Hsel.
      destruct (IH ps (cum + p)%float)
        as [(i & r' & Hr' & Hex & Hmin & Heq) | [Hnone Heq]]; [lia | |].
      * left. exists (S i), r'. rewrite running_S.
        repeat split; try done.
        intros [|j] Hj; [by rewrite running_0 |].
        rewrite running_S. apply Hmin. lia.
      * right. split; [|done].
        intros [|j] Hj; [by rewrite running_0 |].
        rewrite running_S. apply Hnone. simpl in Hj. lia.
Qed.

(** The reaction at the first cumulative propensity above a threshold that
    is not negative has a propensity that is not zero. *)
Lemma first_exceeding_nonzero (ps : list float) (threshold : float)
    (i : nat) (p : float) :
  not_negative threshold -> first_exceeding ps threshold i ->
  ps !! i = Some p -> ~ feq p 0.
Proof.
  intros Hthr [Hex Hmin] Hp Hz. unfold cumulative in *.
  destruct i as [|i].
  - destruct ps as [|p0 ps]; [done|]. simpl in Hp. simplify_eq.
    rewrite running_0 in Hex. apply Hthr. unfold flt in *.
    by rewrite add_zero_l_ltb, (ltb_zero_r _ _ Hz) in Hex.
  - rewrite (running_step _ _ _ p) in Hex by done.
    apply (Hmin i (Nat.lt_succ_diag_r i)). unfold flt in *.
    by rewrite (add_zero_r_ltb _ _ _ Hz) in Hex.
Qed.

(** ** Recording *)

Lemma record_counts_Ok (n_history : gmap string (list Z)) (n : gmap string Z) :
  dom n_history = dom n ->
  VitalOrgan.record_counts n_history n
    = Ok (merge VitalOrgan.append_count n_history n).
Proof.
  intros Hdom. unfold VitalOrgan.record_counts.
  rewrite decide_True; [done | by rewrite Hdom].
Qed.

Lemma record_counts_inv (n_history h' : gmap string (list Z))
    (n : gmap string Z) :
  VitalOrgan.record_counts n_history n = Ok h' ->
  h' = merge VitalOrgan.append_count n_history n.
Proof.
  unfold VitalOrgan.record_counts. case_decide; intros; by simplify_eq.
Qed.

Lemma lookup_recorded (n_history : gmap string (list Z)) (n : gmap string Z)
    (k : string) :
  merge VitalOrgan.append_count n_history n !! k
    = VitalOrgan.append_count (n_history !! k) (n !! k).
Proof. by rewrite lookup_merge; destruct (n_history !! k), (n !! k). Qed.

Lemma recorded_dom (n_history : gmap string (list Z)) (n : gmap string Z) :
  dom (merge VitalOrgan.append_count n_history n) = dom n_history.
Proof.
  apply set_eq. intros k. rewrite !elem_of_dom, lookup_recorded.
  destruct (n_history !! k), (n !! k); simpl; split; intros [? ?]; eauto; done.
Qed.

(** Every history grows by exactly one entry when all histories have a
    count to record. *)
Lemma recorded_length (n_history : gmap string (list Z)) (n : gmap string Z)
    (len : nat) :
  dom n_history = dom n ->
  (forall k l, n_history !! k = Some l -> length l = len) ->
  forall k l, merge VitalOrgan.append_count n_history n !! k = Some l ->
              length l = S len.
Proof.
  intros Hdom Hlen k l. rewrite lookup_recorded.
  destruct (n_history !! k) as [l0|] eqn:Hk; [|done].
  assert (k ∈ dom n) as [c Hc]%elem_of_dom.
  { rewrite <- Hdom. apply elem_of_dom. eauto. }
  rewrite Hc. simpl. intros [= <-]. rewrite length_app. simpl.
  rewrite (Hlen k l0) by done. lia.
Qed.

(** Recording leaves the earlier snapshots as they were... *)
Lemma snapshot_recorded_old (n_history : gmap string (list Z))
    (n : gmap string Z) (len i : nat) :
  (forall k l, n_history !! k = Some l -> length l = len) ->
  (i < len)%nat ->
  snapshot (merge VitalOrgan.append_count n_history n) i
    = snapshot n_history i.
Proof.
  intros Hlen Hi. apply map_eq. intros k. unfold snapshot.
  rewrite !lookup_omap, lookup_recorded.
  destruct (n_history !! k) as [l|] eqn:Hk; [|done].
  destruct (n !! k) as [c|]; [|done]. simpl.
  apply lookup_app_l. rewrite (Hlen k l) by done. done.
Qed.

(** ... and the new snapshot is the dictionary of counts itself. *)
Lemma snapshot_recorded_new (n_history : gmap string (list Z))
    (n : gmap string Z) (len : nat) :
  dom n_history = dom n ->
  (forall k l, n_history !! k = Some l -> length l = len) ->
  snapshot (merge VitalOrgan.append_count n_history n) len = n.
Proof.
  intros Hdom Hlen. apply map_eq. intros k. unfold snapshot.
  rewrite lookup_omap, lookup_recorded.
  destruct (n_history !! k) as [l|] eqn:Hk.
  - assert (k ∈ dom n) as [c Hc]%elem_of_dom.
    { rewrite <- Hdom. apply elem_of_dom. eauto. }
    rewrite Hc. simpl. rewrite <- (Hlen k l) by done.
    by rewrite list_lookup_middle.
  - simpl. symmetry. apply not_elem_of_dom. rewrite <- Hdom.
    by apply not_elem_of_dom.
Qed.

(** ** One event of the multi-compartment loop *)

Lemma determine_reaction_dom (n : gmap string Z) (threshold : float)
    (reactions : list VitalOrgan.reaction) (ps : list float) (cum : float) :
  closed reactions n -> length ps = length reactions ->
  exists n', VitalOrgan.determine_reaction reactions ps cum threshold n = Ok n'
             /\ dom n' = dom n /\ total n' = total n /\
             (forall k c', n' !! k = Some c' ->
                exists c, n !! k = Some c /\ Z.abs c' <= Z.abs c + 1).
Proof.
  intros Hcl Hlen.
  destruct (determine_reaction_scan n threshold reactions ps cum Hlen)
    as [(i & r & Hr & _ & _ & Heq) | [_ Heq]].
  - apply list_elem_of_lookup_2 in Hr.
    destruct (proj1 (Forall_forall _ _) Hcl r Hr) as [Hfrom Hto].
    destruct (apply_reaction_closed n r Hfrom Hto)
      as (c & n' & _ & Happ & Hdom & Htot & _ & _ & Habs).
    exists n'. by rewrite Heq.
  - exists n. repeat split; try done.
    intros k c' Hk. exists c'. split; [done | lia].
Qed.

Lemma closed_dom (reactions : list VitalOrgan.reaction)
    (n n' : gmap string Z) :
  dom n' = dom n -> closed reactions n -> closed reactions n'.
Proof. intros Hdom. unfold closed. by rewrite Hdom. Qed.

(** An event of a well-formed state does not raise, and leaves a well-formed
    state. *)
Lemma event_well_formed (reactions : list VitalOrgan.reaction)
    (ps : list float) (a0 : float) (d : draw) (s : VitalOrgan.locals) :
  well_formed reactions s -> length ps = length reactions ->
  exists n',
    VitalOrgan.determine_reaction reactions ps 0 (r2 d * a0)
      (VitalOrgan.n s) = Ok n' /\
    dom n' = dom (VitalOrgan.n s) /\
    VitalOrgan.event reactions ps a0 d s = Ok (after_event a0 d s n') /\
    well_formed reactions (after_event a0 d s n').
Proof.
  intros [Hcl Hdom] Hlen.
  destruct (determine_reaction_dom (VitalOrgan.n s) (r2 d * a0)%float
              reactions ps 0%float Hcl Hlen) as (n' & Hdet & Hdom' & _).
  exists n'. split; [done|]. split; [done|].
  assert (dom (VitalOrgan.n_history s) = dom (VitalOrgan.clamp n')) as Hd.
  { by rewrite clamp_dom, Hdom'. }
  split.
  - unfold VitalOrgan.event. rewrite Hdet. simpl.
    rewrite record_counts_Ok by done. done.
  - split; simpl.
    + apply (closed_dom _ (VitalOrgan.n s)); [|done].
      by rewrite clamp_dom.
    + by rewrite recorded_dom.
Qed.

(** An event that does not raise leaves clamped counts, and appends the new
    time and the new count of every compartment. *)
Lemma V_event_Ok (reactions : list VitalOrgan.reaction) (ps : list float)
    (a0 : float) (d : draw) (s s' : VitalOrgan.locals) :
  VitalOrgan.event reactions ps a0 d s = Ok s' ->
  exists n', s' = after_event a0 d s n' /\
             dom (VitalOrgan.clamp n') ⊆ dom (VitalOrgan.n_history s).
Proof.
  unfold VitalOrgan.event.
  destruct (VitalOrgan.determine_reaction _ _ _ _ _) as [n'|]; simpl; [|done].
  unfold VitalOrgan.record_counts. case_decide as Hsub; simpl; [|done].
  intros [= <-]. by exists n'.
Qed.

(** ** The multi-compartment loop *)

Section VitalOrgan_loop.
Import VitalOrgan.
Variable reactions : list reaction.
Variable t_max : float.

(** One iteration of the loop, as an equation. *)
Lemma V_main_loop_eq (draws : list draw) (s : locals) :
  main_loop reactions t_max draws s =
  if (t s <? t_max)%float then
    match calc_propensities (n s) reactions with
    | Err e => Raised e
    | Ok propensities =>
        if (py_sum propensities =? 0)%float then Returned s
        else
          match draws with
          | [] => Pending s
          | d :: draws' =>
              match event reactions propensities (py_sum propensities) d s
              with
              | Err e => Raised e
              | Ok s' => main_loop reactions t_max draws' s'
              end
          end
    end
  else Returned s.
Proof. by destruct draws. Qed.

(** On a well-formed state the loop raises nothing but [OverflowError]. *)
Lemma V_main_loop_raises (draws : list draw) (s : locals) (e : exn) :
  well_formed reactions s ->
  main_loop reactions t_max draws s = Raised e -> e = OverflowError.
Proof.
  revert s. induction draws as [|d draws IH]; intros s Hwf;
    rewrite V_main_loop_eq;
    destruct (t s <? t_max)%float; try done;
    destruct (calc_propensities (n s) reactions) as [ps|e'] eqn:Hps;
    try (intros [= <-]; by eapply calc_propensities_Err, Hps; apply Hwf);
    destruct (py_sum ps =? 0)%float; try done.
  destruct (event_well_formed reactions ps (py_sum ps) d s Hwf)
    as (n' & _ & _ & Hev & Hwf').
  { symmetry. eapply Forall2_length. by apply calc_propensities_Ok. }
  rewrite Hev. by apply IH.
Qed.

(** Loop rule: a property kept by every event that the loop can execute
    holds of the state the loop ends with. *)
Lemma V_main_loop_rule (Q : draw -> Prop) (P : locals -> Prop) :
  (forall s d ps n',
      P s -> well_formed reactions s -> Q d ->
      flt (t s) t_max ->
      calc_propensities (n s) reactions = Ok ps ->
      ~ feq (py_sum ps) 0 ->
      determine_reaction reactions ps 0 (r2 d * py_sum ps) (n s) = Ok n' ->
      P (after_event (py_sum ps) d s n')) ->
  forall draws s s', Forall Q draws -> well_formed reactions s -> P s ->
    carried (main_loop reactions t_max draws s) = Some s' -> P s'.
Proof.
  intros Hstep draws.
  induction draws as [|d draws IH]; intros s s' HQ Hwf HP;
    rewrite V_main_loop_eq;
    destruct (t s <? t_max)%float eqn:Hg;
    try (simpl; intros; by simplify_eq);
    destruct (calc_propensities (n s) reactions) as [ps|e'] eqn:Hps;
    try done;
    destruct (py_sum ps =? 0)%float eqn:Hz;
    try (simpl; intros; by simplify_eq).
  destruct (event_well_formed reactions ps (py_sum ps) d s Hwf)
    as (n' & Hdet & _ & Hev & Hwf').
  { symmetry. eapply Forall2_length. by apply calc_propensities_Ok. }
  rewrite Hev. apply IH; [by eapply Forall_inv_tail | done |].
  eapply Hstep; try done.
  - by eapply Forall_inv.
  - by apply flt_true.
  - by apply feq_false.
Qed.

(** The counts of a short run are floats: the loop does not raise. *)
Lemma V_main_loop_small (draws : list draw) (s : locals) :
  well_formed reactions s ->
  (forall k c, n s !! k = Some c ->
               Z.abs c + Z.of_nat (length draws) < 2 ^ 53) ->
  exists s', carried (main_loop reactions t_max draws s) = Some s'.
Proof.
  revert s. induction draws as [|d draws IH]; intros s Hwf Hsmall;
    rewrite V_main_loop_eq;
    destruct (t s <? t_max)%float; eauto;
    (destruct (calc_propensities_small (n s) reactions (proj1 Hwf))
      as [ps Hps]; [intros k c Hk; specialize (Hsmall k c Hk); lia|]);
    rewrite Hps; destruct (py_sum ps =? 0)%float; eauto.
  destruct (determine_reaction_dom (n s) (r2 d * py_sum ps)%float
              reactions ps 0%float (proj1 Hwf))
    as (n' & Hdet & _ & _ & Habs).
  { symmetry. eapply Forall2_length. by apply calc_propensities_Ok. }
  destruct (event_well_formed reactions ps (py_sum ps) d s Hwf)
    as (n'' & Hdet' & _ & Hev & Hwf').
  { symmetry. eapply Forall2_length. by apply calc_propensities_Ok. }
  assert (n'' = n') as -> by congruence.
  rewrite Hev. apply IH; [done|].
  intros k c'' Hk. simpl in Hk.
  apply clamp_abs in Hk as (c' & Hk & Hle).
  apply Habs in Hk as (c & Hk & Hle').
  specialize (Hsmall k c Hk). simpl in Hsmall. lia.
Qed.
End VitalOrgan_loop.

Lemma V_recorded_event (G : gmap string Z -> Prop)
    (reactions : list VitalOrgan.reaction) (a0 : float) (d : draw)
    (s : VitalOrgan.locals) (n' : gmap string Z) :
  well_formed reactions s -> dom n' = dom (VitalOrgan.n s) ->
  V_recorded G s -> G (VitalOrgan.clamp n') ->
  V_recorded G (after_event a0 d s n').
Proof.
  intros [_ Hdom] Hdom' (Hlen & _ & Hsnap) HG.
  assert (dom (VitalOrgan.n_history s) = dom (VitalOrgan.clamp n')) as Hd.
  { by rewrite clamp_dom, Hdom'. }
  unfold V_recorded; simpl. rewrite length_app; simpl.
  replace (length (VitalOrgan.times s) + 1)%nat
    with (S (length (VitalOrgan.times s))) by lia.
  split; [by apply recorded_length|]. split; [done|].
  intros i Hi.
  destruct (decide (i = length (VitalOrgan.times s))) as [->|Hne].
  - by rewrite snapshot_recorded_new.
  - rewrite (snapshot_recorded_old _ _ (length (VitalOrgan.times s)));
      [apply Hsnap; lia | done | lia].
Qed.

Lemma V_recorded_initial (G : gmap string Z -> Prop) (n0 : gmap string Z) :
  G n0 -> V_recorded G (VitalOrgan.initial_of n0).
Proof.
  intros HG. unfold V_recorded; simpl. split; [|split; [done|]].
  - intros k l. rewrite lookup_fmap.
    destruct (n0 !! k); simpl; intros; by simplify_eq.
  - intros i Hi. assert (i = 0%nat) as -> by lia.
    replace (snapshot _ 0) with n0; [done|].
    apply map_eq. intros k. unfold snapshot.
    rewrite lookup_omap, lookup_fmap. by destruct (n0 !! k).
Qed.

Lemma well_formed_initial (reactions : list VitalOrgan.reaction)
    (n0 : gmap string Z) :
  closed reactions n0 -> well_formed reactions (VitalOrgan.initial_of n0).
Proof. intros Hcl. split; [done|]. simpl. apply dom_fmap_L. Qed.

(** ** Valid configurations *)

Lemma propensities_not_negative (n : gmap string Z)
    (reactions : list VitalOrgan.reaction) (ps : list float) :
  nonneg n -> rates_valid reactions ->
  Forall2 (propensity_of n) reactions ps ->
  Forall not_negative ps.
Proof.
  intros Hnn Hrates Hall. revert Hrates.
  induction Hall as [|r p rs ps (c & x & Hc & Hx & ->) _ IH]; intros Hrates;
    [constructor|].
  apply Forall_cons in Hrates as [Hr Hrs].
  constructor; [|by apply IH].
  apply float_of_int_Ok in Hx as (_ & _ & Hx).
  apply mul_not_negative; [by apply valid_rate_not_negative|].
  apply Hx. by eapply Hnn.
Qed.

(** Under valid rates, counts that are not negative and a draw of [0, 1),
    the scan either applies the first reaction whose cumulative propensity
    exceeds the threshold, whose source holds a molecule, so that the counts
    stay non-negative, their sum is unchanged and the clamp changes nothing;
    or no cumulative propensity exceeds the threshold and the scan leaves
    the counts as they are. *)
Lemma selection_valid (n : gmap string Z)
    (reactions : list VitalOrgan.reaction) (ps : list float) (r2 : float) :
  closed reactions n -> nonneg n -> rates_valid reactions ->
  Forall2 (propensity_of n) reactions ps ->
  fle 0 r2 ->
  (exists i r p c n',
     reactions !! i = Some r /\ ps !! i = Some p /\ ~ feq p 0 /\
     first_exceeding ps (r2 * py_sum ps) i /\
     n !! VitalOrgan.from r = Some c /\ 1 <= c /\
     VitalOrgan.determine_reaction reactions ps 0 (r2 * py_sum ps) n = Ok n' /\
     VitalOrgan.apply_reaction n r = Ok n' /\
     dom n' = dom n /\ total n' = total n /\ nonneg n' /\
     VitalOrgan.clamp n' = n')
  \/
  (none_exceeding ps (r2 * py_sum ps) /\
   VitalOrgan.determine_reaction reactions ps 0 (r2 * py_sum ps) n = Ok n).
Proof.
  intros Hcl Hnn Hrates Hall Hr2.
  pose proof (propensities_not_negative n reactions ps Hnn Hrates Hall) as Hps.
  assert (not_negative (r2 * py_sum ps)) as Hthr.
  { apply mul_not_negative; [by apply fle_0_not_negative|].
    by apply py_sum_not_negative. }
  destruct (determine_reaction_scan n (r2 * py_sum ps)%float reactions ps
              0%float (eq_sym (Forall2_length _ _ _ Hall)))
    as [(i & r & Hr & Hex & Hmin & Heq) | [Hnone Heq]]; [left | by right].
  assert (is_Some (ps !! i)) as [p Hp].
  { apply lookup_lt_is_Some. rewrite <- (Forall2_length _ _ _ Hall).
    by eapply lookup_lt_Some. }
  assert (first_exceeding ps (r2 * py_sum ps) i) as Hfirst by done.
  pose proof (first_exceeding_nonzero _ _ _ _ Hthr Hfirst Hp) as Hne.
  destruct (Forall2_lookup_lr _ _ _ _ _ _ Hall Hr Hp)
    as (c & x & Hc & Hx & Hpx).
  pose proof (list_elem_of_lookup_2 _ _ _ Hr) as Hin.
  destruct (proj1 (Forall_forall _ _) Hcl r Hin) as [Hfrom Hto].
  pose proof (proj1 (Forall_forall _ _) Hrates r Hin) as Hrate.
  assert (1 <= c) as Hge.
  { apply (mul_int_source (VitalOrgan.rate r) c p); try done.
    - by apply valid_rate_finite.
    - by eapply Hnn.
    - unfold mul_int. rewrite Hx. simpl. by rewrite Hpx. }
  destruct (apply_reaction_closed n r Hfrom Hto)
    as (c' & n' & Hc' & Happ & Hdom & Htot & _ & Hkeep & _).
  assert (c' = c) as -> by congruence.
  exists i, r, p, c, n'.
  repeat split; try done; try (by apply Hfirst).
  - by rewrite Heq.
  - by apply Hkeep.
  - apply clamp_id. by apply Hkeep.
Qed.

Lemma initial_counts_dom (D : Z) : dom (VitalOrgan.initial_counts D) = organ_keys.
Proof.
  unfold VitalOrgan.initial_counts, organ_keys.
  rewrite !dom_insert_L, dom_empty_L. set_solver.
Qed.

Lemma total_initial_counts (D : Z) : total (VitalOrgan.initial_counts D) = D.
Proof.
  unfold VitalOrgan.initial_counts.
  rewrite !total_insert_fresh by done. rewrite total_empty. lia.
Qed.

Lemma nonneg_initial_counts (D : Z) :
  0 <= D -> nonneg (VitalOrgan.initial_counts D).
Proof.
  intros HD k c. unfold VitalOrgan.initial_counts.
  rewrite !lookup_insert_Some, lookup_empty. intros H.
  repeat (destruct H as [[_ <-] | [_ H]]; [lia|]). done.
Qed.

Lemma small_initial_counts (D : Z) (k : string) (c : Z) :
  VitalOrgan.initial_counts D !! k = Some c -> Z.abs c <= Z.abs D.
Proof.
  unfold VitalOrgan.initial_counts.
  rewrite !lookup_insert_Some, lookup_empty. intros H.
  repeat (destruct H as [[_ <-] | [_ H]]; [lia|]). done.
Qed.

Lemma valid_rates_has (rate_constants : gmap string float) :
  valid_rates rate_constants -> has_rates rate_constants.
Proof.
  intros H. eapply Forall_impl; [exact H|].
  intros key (k & Hk & _). by exists k.
Qed.

Ltac read_rate H :=
  let k := fresh "k" in
  let Hk := fresh "Hk" in
  apply Forall_cons in H as [[k Hk] H];
  rewrite (getitem_Some _ _ _ Hk); simpl.

Lemma reactions_of_has (rate_constants : gmap string float) :
  has_rates rate_constants ->
  exists reactions, VitalOrgan.reactions_of rate_constants = Ok reactions.
Proof.
  intros H. unfold has_rates, rate_keys in H. unfold VitalOrgan.reactions_of.
  do 8 read_rate H. eauto.
Qed.

Ltac read_valid_rate H :=
  let k := fresh "k" in
  let Hk := fresh "Hk" in
  let Hpos := fresh "Hpos" in
  apply Forall_cons in H as [(k & Hk & Hpos) H];
  rewrite (getitem_Some _ _ _ Hk); simpl.

Lemma reactions_of_valid (rate_constants : gmap string float) :
  valid_rates rate_constants ->
  exists reactions, VitalOrgan.reactions_of rate_constants = Ok reactions /\
                    rates_valid reactions.
Proof.
  intros H. unfold valid_rates, rate_keys in H. unfold VitalOrgan.reactions_of.
  do 8 read_valid_rate H. eexists. split; [done|].
  unfold rates_valid.
  repeat (apply Forall_cons_2; [simpl; assumption|]). apply Forall_nil_2.
Qed.

Lemma reactions_of_lacks (rate_constants : gmap string float) :
  ~ has_rates rate_constants ->
  VitalOrgan.reactions_of rate_constants = Err KeyError.
Proof.
  intros Hno. unfold VitalOrgan.reactions_of, getitem.
  repeat (match goal with
          | |- context [rate_constants !! ?key] =>
              destruct (rate_constants !! key) eqn:?; simpl; [|done]
          end).
  exfalso. apply Hno. unfold has_rates, rate_keys.
  repeat constructor; eauto.
Qed.

Lemma reactions_of_Ok_has (rate_constants : gmap string float)
    (reactions : list VitalOrgan.reaction) :
  VitalOrgan.reactions_of rate_constants = Ok reactions ->
  has_rates rate_constants.
Proof.
  intros Hre. destruct (decide (has_rates rate_constants)) as [|Hno];
    [done|]. by rewrite (reactions_of_lacks _ Hno) in Hre.
Qed.

(** The reactions of the five-compartment model name its compartments
    only. *)
Lemma reactions_of_closed (rate_constants : gmap string float)
    (reactions : list VitalOrgan.reaction) (n : gmap string Z) :
  VitalOrgan.reactions_of rate_constants = Ok reactions ->
  dom n = organ_keys -> closed reactions n.
Proof.
  unfold VitalOrgan.reactions_of, getitem. intros H Hdom.
  repeat (match type of H with
          | context [rate_constants !! ?key] =>
              destruct (rate_constants !! key) eqn:?; simpl in H; [|done]
          end).
  injection H as <-. unfold closed. rewrite Hdom. unfold organ_keys.
  repeat constructor; simpl; set_solver.
Qed.

Lemma initial_well_formed (rate_constants : gmap string float)
    (reactions : list VitalOrgan.reaction) (D : Z) :
  VitalOrgan.reactions_of rate_constants = Ok reactions ->
  well_formed reactions (VitalOrgan.initial D).
Proof.
  intros Hre. apply well_formed_initial.
  eapply reactions_of_closed; [done | apply initial_counts_dom].
Qed.

(** ** Runs *)

(** A property kept by the events of the two-compartment loop holds of what
    a run of the simulator carries. *)
Lemma F_run (Q : draw -> Prop) (P : Fundamentals.locals -> Prop)
    (D : Z) (k1 k2 t_max : float) (draws : list draw) :
  (forall s d a1 a2,
      P s -> Q d -> flt (Fundamentals.t s) t_max ->
      Fundamentals.a1_of k2 s = Ok a1 -> Fundamentals.a2_of k1 s = Ok a2 ->
      ~ feq (a1 + a2) 0 ->
      P (Fundamentals.event (a1 + a2) a1 d s)) ->
  Forall Q draws -> P (Fundamentals.initial D) ->
  ensures (fun traj => exists s, traj = Fundamentals.returned_arrays s /\ P s)
    (Fundamentals.simulate_stochastic_pk_model D k1 k2 t_max draws).
Proof.
  intros Hstep HQ Hinit. apply ensures_carried. intros traj.
  unfold Fundamentals.simulate_stochastic_pk_model. rewrite carried_map.
  destruct (carried _) as [s|] eqn:Hs; [|done]. intros [= <-].
  exists s. split; [done|].
  by eapply (F_main_loop_rule k1 k2 t_max Q P).
Qed.

(** A short run of the two-compartment simulator does not raise. *)
Lemma F_run_small (D : Z) (k1 k2 t_max : float) (draws : list draw) :
  small_run D draws ->
  exists traj,
    carried (Fundamentals.simulate_stochastic_pk_model D k1 k2 t_max draws)
      = Some traj.
Proof.
  intros Hsmall. unfold small_run in Hsmall.
  destruct (F_main_loop_small k1 k2 t_max draws (Fundamentals.initial D))
    as [s Hs]; [simpl; lia | simpl; lia |].
  unfold Fundamentals.simulate_stochastic_pk_model.
  rewrite carried_map, Hs. eauto.
Qed.

(** The same for the multi-compartment loop. *)
Lemma V_run (Q : draw -> Prop) (P : VitalOrgan.locals -> Prop)
    (D : Z) (rate_constants : gmap string float) (t_max : float)
    (draws : list draw) :
  (forall reactions s d ps n',
      VitalOrgan.reactions_of rate_constants = Ok reactions ->
      P s -> well_formed reactions s -> Q d ->
      flt (VitalOrgan.t s) t_max ->
      VitalOrgan.calc_propensities (VitalOrgan.n s) reactions = Ok ps ->
      ~ feq (py_sum ps) 0 ->
      VitalOrgan.determine_reaction reactions ps 0 (r2 d * py_sum ps)
        (VitalOrgan.n s) = Ok n' ->
      P (after_event (py_sum ps) d s n')) ->
  Forall Q draws -> P (VitalOrgan.initial D) ->
  ensures (fun traj => exists s, traj = VitalOrgan.returned_arrays s /\ P s)
    (VitalOrgan.simulate_stochastic_pk_model D rate_constants t_max draws).
Proof.
  intros Hstep HQ Hinit. apply ensures_carried. intros traj.
  unfold VitalOrgan.simulate_stochastic_pk_model.
  destruct (VitalOrgan.reactions_of rate_constants) as [reactions|] eqn:Hre;
    [|done].
  rewrite carried_map.
  destruct (carried _) as [s|] eqn:Hs; [|done]. intros [= <-].
  exists s. split; [done|].
  eapply (V_main_loop_rule reactions t_max Q P); try done.
  - intros. by eapply Hstep.
  - by eapply initial_well_formed.
Qed.

(** A short run of the five-compartment simulator that finds its eight
    rates does not raise. *)
Lemma V_run_small (D : Z) (rate_constants : gmap string float)
    (t_max : float) (draws : list draw) :
  has_rates rate_constants -> small_run D draws ->
  exists traj,
    carried (VitalOrgan.simulate_stochastic_pk_model D rate_constants
               t_max draws) = Some traj.
Proof.
  intros Hhas Hsmall. unfold small_run in Hsmall.
  destruct (reactions_of_has _ Hhas) as [reactions Hre].
  destruct (V_main_loop_small reactions t_max draws (VitalOrgan.initial D))
    as [s Hs].
  - by eapply initial_well_formed.
  - intros k c Hk. apply small_initial_counts in Hk. lia.
  - unfold VitalOrgan.simulate_stochastic_pk_model.
    rewrite Hre, carried_map, Hs. eauto.
Qed.

(** The simulators raise nothing but [KeyError], for a missing rate, and
    [OverflowError]. *)
Lemma F_run_raises (D : Z) (k1 k2 t_max : float) (draws : list draw)
    (e : exn) :
  Fundamentals.simulate_stochastic_pk_model D k1 k2 t_max draws = Raised e ->
  e = OverflowError.
Proof.
  unfold Fundamentals.simulate_stochastic_pk_model.
  destruct (Fundamentals.main_loop _ _ _ _ _) as [s|s|e'] eqn:Hloop;
    try done.
  intros [= <-]. by eapply F_main_loop_raises.
Qed.

Lemma V_run_raises (D : Z) (rate_constants : gmap string float)
    (t_max : float) (draws : list draw) (e : exn) :
  VitalOrgan.simulate_stochastic_pk_model D rate_constants t_max draws
    = Raised e ->
  (e = KeyError /\ ~ has_rates rate_constants) \/
  (e = OverflowError /\ has_rates rate_constants).
Proof.
  unfold VitalOrgan.simulate_stochastic_pk_model.
  destruct (decide (has_rates rate_constants)) as [Hhas|Hno].
  - destruct (reactions_of_has _ Hhas) as [reactions Hre]. rewrite Hre.
    destruct (VitalOrgan.main_loop _ _ _ _) as [s|s|e'] eqn:Hloop; try done.
    intros [= <-]. right. split; [|done].
    eapply V_main_loop_raises; [|done]. by eapply initial_well_formed.
  - rewrite reactions_of_lacks by done. intros [= <-]. by left.
Qed.

(** ** Example configurations *)

Lemma example_rate_constants_valid : valid_rates example_rate_constants.
Proof.
  unfold valid_rates, rate_keys.
  repeat (apply Forall_cons_2;
          [eexists; split; [reflexivity | by vm_compute] |]).
  apply Forall_nil_2.
Defined.

Lemma tiny_rate_constants_valid : valid_rates tiny_rate_constants.
Proof.
  unfold valid_rates, rate_keys.
  repeat (apply Forall_cons_2;
          [eexists; split; [reflexivity | by vm_compute] |]).
  apply Forall_nil_2.
Defined.

Lemma example_draws_valid : Forall valid_draw example_draws.
Proof.
  unfold example_draws.
  repeat (apply Forall_cons_2; [by vm_compute|]). apply Forall_nil_2.
Defined.

Lemma example_reactions_of :
  VitalOrgan.reactions_of example_rate_constants = Ok example_reactions.
Proof. reflexivity. Qed.

Lemma example_calc_propensities :
  VitalOrgan.calc_propensities (VitalOrgan.initial_counts 1000)
    example_reactions = Ok example_propensities.
Proof. by vm_compute. Qed.

Lemma example_total_propensity : py_sum example_propensities = 700%float.
Proof. by vm_compute. Qed.

Lemma example_well_formed (D : Z) :
  well_formed example_reactions (VitalOrgan.initial D).
Proof. eapply initial_well_formed. apply example_reactions_of. Qed.

(** With [r2 = 0.25] the threshold is 175: the cumulative propensities are
    100, 100, 300, and the third reaction, Heart to Kidneys, is applied. *)
Lemma example_event :
  VitalOrgan.event example_reactions example_propensities
    (py_sum example_propensities) (Draw 0.5 log_half 0.25)
    (VitalOrgan.initial 1000)
  = Ok (after_event (py_sum example_propensities) (Draw 0.5 log_half 0.25)
          (VitalOrgan.initial 1000)
          (<["Kidneys" := 1]> (<["Heart" := 999]>
             (VitalOrgan.initial_counts 1000)))).
Proof. by vm_compute. Qed.

(** A dose of [10 ** 400] molecules has no finite float: the first product
    [k2 * n1] raises [OverflowError]. *)
Lemma overflow_example :
  Fundamentals.simulate_stochastic_pk_model (10 ^ 400) 0.5 0.5 20
    example_draws = Raised OverflowError /\
  VitalOrgan.simulate_stochastic_pk_model (10 ^ 400) example_rate_constants
    50 example_draws = Raised OverflowError.
Proof. split; by vm_compute. Qed.

(** ** The ends of the loops *)

Lemma F_main_loop_stop (k1 k2 t_max : float) (draws : list draw)
    (s : Fundamentals.locals) :
  ~ flt (Fundamentals.t s) t_max ->
  Fundamentals.main_loop k1 k2 t_max draws s = Returned s.
Proof.
  intros Hguard%flt_false. by rewrite F_main_loop_eq, Hguard.
Qed.

Lemma F_main_loop_step (k1 k2 t_max : float) (d : draw) (draws : list draw)
    (s : Fundamentals.locals) (a1 a2 : float) :
  flt (Fundamentals.t s) t_max ->
  Fundamentals.a1_of k2 s = Ok a1 -> Fundamentals.a2_of k1 s = Ok a2 ->
  ~ feq (a1 + a2) 0 ->
  Fundamentals.main_loop k1 k2 t_max (d :: draws) s
    = Fundamentals.main_loop k1 k2 t_max draws
        (Fundamentals.event (a1 + a2) a1 d s).
Proof.
  intros Hguard%flt_true Ha1 Ha2 Hne%feq_false.
  by rewrite F_main_loop_eq, Hguard, Ha1, Ha2, Hne.
Qed.

Lemma V_main_loop_stop (reactions : list VitalOrgan.reaction)
    (t_max : float) (draws : list draw) (s : VitalOrgan.locals) :
  ~ flt (VitalOrgan.t s) t_max ->
  VitalOrgan.main_loop reactions t_max draws s = Returned s.
Proof.
  intros Hguard%flt_false. by rewrite V_main_loop_eq, Hguard.
Qed.

Lemma V_main_loop_step (reactions : list VitalOrgan.reaction)
    (t_max : float) (d : draw) (draws : list draw) (s : VitalOrgan.locals)
    (ps : list float) (n' : gmap string Z) :
  flt (VitalOrgan.t s) t_max ->
  VitalOrgan.calc_propensities (VitalOrgan.n s) reactions = Ok ps ->
  ~ feq (py_sum ps) 0 ->
  VitalOrgan.determine_reaction reactions ps 0 (r2 d * py_sum ps)
    (VitalOrgan.n s) = Ok n' ->
  dom (VitalOrgan.n_history s) = dom n' ->
  VitalOrgan.main_loop reactions t_max (d :: draws) s
    = VitalOrgan.main_loop reactions t_max draws
        (after_event (py_sum ps) d s n').
Proof.
  intros Hguard%flt_true Hps Ha0%feq_false Hdet Hdom.
  rewrite V_main_loop_eq, Hguard, Hps, Ha0.
  unfold VitalOrgan.event. rewrite Hdet. simpl.
  rewrite record_counts_Ok; [done|]. by rewrite clamp_dom.
Qed.

(** A pending run stands at the start of an event: the horizon is not
    reached, the propensities are computed and their total is not zero. *)
Lemma F_pending_inv (k1 k2 t_max : float) (draws : list draw)
    (s0 s : Fundamentals.locals) :
  Fundamentals.main_loop k1 k2 t_max draws s0 = Pending s ->
  flt (Fundamentals.t s) t_max /\
  exists a1 a2,
    Fundamentals.a1_of k2 s = Ok a1 /\ Fundamentals.a2_of k1 s = Ok a2 /\
    ~ feq (a1 + a2) 0.
Proof.
  revert s0. induction draws as [|d draws IH]; intros s0;
    rewrite F_main_loop_eq;
    destruct (Fundamentals.t s0 <? t_max)%float eqn:Hg; try done;
    destruct (Fundamentals.a1_of k2 s0) as [a1|] eqn:E1; try done;
    destruct (Fundamentals.a2_of k1 s0) as [a2|] eqn:E2; try done;
    destruct (a1 + a2 =? 0)%float eqn:Hz; try done.
  - intros [= <-]. split; [by apply flt_true|].
    exists a1, a2. repeat split; try done. by apply feq_false.
  - apply IH.
Qed.

(** A loop that returned did so at a clock that is not below the horizon,
    or at a total propensity of zero. *)
Lemma F_returned_inv (k1 k2 t_max : float) (draws : list draw)
    (s0 s : Fundamentals.locals) :
  Fundamentals.main_loop k1 k2 t_max draws s0 = Returned s ->
  ~ flt (Fundamentals.t s) t_max \/
  exists a1 a2,
    Fundamentals.a1_of k2 s = Ok a1 /\ Fundamentals.a2_of k1 s = Ok a2 /\
    feq (a1 + a2) 0.
Proof.
  revert s0. induction draws as [|d draws IH]; intros s0;
    rewrite F_main_loop_eq;
    destruct (Fundamentals.t s0 <? t_max)%float eqn:Hg;
    try (intros [= <-]; left; by apply flt_false);
    destruct (Fundamentals.a1_of k2 s0) as [a1|] eqn:E1; try done;
    destruct (Fundamentals.a2_of k1 s0) as [a2|] eqn:E2; try done;
    destruct (a1 + a2 =? 0)%float eqn:Hz; try done;
    try (intros [= <-]; right; exists a1, a2; repeat split; try done;
         by apply feq_true).
  apply IH.
Qed.

Lemma V_pending_inv (reactions : list VitalOrgan.reaction) (t_max : float)
    (draws : list draw) (s0 s : VitalOrgan.locals) :
  VitalOrgan.main_loop reactions t_max draws s0 = Pending s ->
  flt (VitalOrgan.t s) t_max /\
  exists ps, VitalOrgan.calc_propensities (VitalOrgan.n s) reactions = Ok ps
             /\ ~ feq (py_sum ps) 0.
Proof.
  revert s0. induction draws as [|d draws IH]; intros s0;
    rewrite V_main_loop_eq;
    destruct (VitalOrgan.t s0 <? t_max)%float eqn:Hg; try done;
    destruct (VitalOrgan.calc_propensities (VitalOrgan.n s0) reactions)
      as [ps|] eqn:Hps; try done;
    destruct (py_sum ps =? 0)%float eqn:Hz; try done.
  - intros [= <-]. split; [by apply flt_true|].
    exists ps. split; [done|]. by apply feq_false.
  - destruct (VitalOrgan.event _ _ _ _ _); [apply IH | done].
Qed.

Lemma V_returned_inv (reactions : list VitalOrgan.reaction) (t_max : float)
    (draws : list draw) (s0 s : VitalOrgan.locals) :
  VitalOrgan.main_loop reactions t_max draws s0 = Returned s ->
  ~ flt (VitalOrgan.t s) t_max \/
  exists ps, VitalOrgan.calc_propensities (VitalOrgan.n s) reactions = Ok ps
             /\ feq (py_sum ps) 0.
Proof.
  revert s0. induction draws as [|d draws IH]; intros s0;
    rewrite V_main_loop_eq;
    destruct (VitalOrgan.t s0 <? t_max)%float eqn:Hg;
    try (intros [= <-]; left; by apply flt_false);
    destruct (VitalOrgan.calc_propensities (VitalOrgan.n s0) reactions)
      as [ps|] eqn:Hps; try done;
    destruct (py_sum ps =? 0)%float eqn:Hz; try done;
    try (intros [= <-]; right; exists ps; split; [done|];
         by apply feq_true).
  destruct (VitalOrgan.event _ _ _ _ _); [apply IH | done].
Qed.

(** ** The two-compartment model as a network *)

Lemma as_network_initial (D : Z) :
  VitalOrgan.initial_of (two_compartment_counts D 0)
    = as_network (Fundamentals.initial D).
Proof. reflexivity. Qed.

Lemma two_compartment_propensities (k1 k2 : float)
    (s : Fundamentals.locals) :
  VitalOrgan.calc_propensities (VitalOrgan.n (as_network s))
    (two_compartment_reactions k1 k2)
  = (a1 ← Fundamentals.a1_of k2 s;
     a2 ← Fundamentals.a2_of k1 s;
     Ok [a1; a2]).
Proof.
  unfold Fundamentals.a1_of, Fundamentals.a2_of.
  change (VitalOrgan.calc_propensities (VitalOrgan.n (as_network s))
            (two_compartment_reactions k1 k2))
    with (p ← mul_int k2 (Fundamentals.n1 s);
          ps ← (p' ← mul_int k1 (Fundamentals.n2 s); Ok [p']);
          Ok (p :: ps)).
  by destruct (mul_int k2 _), (mul_int k1 _).
Qed.

(** The scan over the two reactions makes the choice of the hard-coded test
    [r2 * a0 < a1] when the threshold is below one of the two cumulative
    propensities, and applies no reaction otherwise. *)
Lemma two_compartment_scan (r2 a1 a2 : float) (k1 k2 : float)
    (s : Fundamentals.locals) :
  ~ feq (a1 + a2) 0 ->
  let thr := (r2 * (a1 + a2))%float in
  let c := Fundamentals.react r2 (a1 + a2) a1
             (Fundamentals.n1 s, Fundamentals.n2 s) in
  VitalOrgan.determine_reaction (two_compartment_reactions k1 k2)
    [a1; a2] 0 thr (VitalOrgan.n (as_network s))
  = if ((thr <? a1) || (thr <? a1 + a2))%float
    then Ok (two_compartment_counts c.1 c.2)
    else Ok (VitalOrgan.n (as_network s)).
Proof.
  intros Hne thr c. unfold c, Fundamentals.react, two_compartment_reactions.
  cbn [VitalOrgan.determine_reaction]. fold thr.
  rewrite add_zero_l_ltb.
  rewrite (proj2 (sum_from_zero a1 a2) Hne).
  destruct (thr <? a1)%float; [reflexivity|].
  destruct (thr <? a1 + a2)%float; reflexivity.
Qed.

Lemma two_compartment_total (a1 a2 : float) :
  ((py_sum [a1; a2] =? 0) = (a1 + a2 =? 0))%float /\
  (~ feq (a1 + a2) 0 -> py_sum [a1; a2] = (a1 + a2)%float).
Proof.
  unfold py_sum. simpl. split; [|apply sum_from_zero].
  pose proof (proj1 (sum_from_zero a1 a2)) as H. unfold feq in H.
  destruct (0 + a1 + a2 =? 0)%float, (a1 + a2 =? 0)%float; simpl in H;
    try done; tauto.
Qed.

(** One event of the two-compartment loop is one event of the network loop
    when the scan selects a reaction. *)
Lemma two_compartment_event (k1 k2 : float) (d : draw)
    (s : Fundamentals.locals) (a1 a2 : float) :
  ~ feq (a1 + a2) 0 ->
  VitalOrgan.event (two_compartment_reactions k1 k2) [a1; a2] (a1 + a2) d
    (as_network s)
  = if ((r2 d * (a1 + a2) <? a1) || (r2 d * (a1 + a2) <? a1 + a2))%float
    then Ok (as_network (Fundamentals.event (a1 + a2) a1 d s))
    else Ok (after_event (a1 + a2) d (as_network s)
               (VitalOrgan.n (as_network s))).
Proof.
  intros Hne. unfold VitalOrgan.event.
  rewrite (two_compartment_scan (r2 d) a1 a2 k1 k2 s Hne).
  destruct (_ || _)%float; simpl;
    rewrite record_counts_Ok by reflexivity; reflexivity.
Qed.

Lemma two_compartment_loop (k1 k2 t_max : float) (draws : list draw)
    (s : Fundamentals.locals) :
  scan_selects_throughout k1 k2 t_max draws s = true ->
  VitalOrgan.main_loop (two_compartment_reactions k1 k2) t_max draws
    (as_network s)
  = outcome_map as_network (Fundamentals.main_loop k1 k2 t_max draws s).
Proof.
  revert s. induction draws as [|d draws IH]; intros s Hsel;
    rewrite V_main_loop_eq, F_main_loop_eq;
    rewrite two_compartment_propensities;
    change (VitalOrgan.t (as_network s)) with (Fundamentals.t s);
    simpl in Hsel;
    destruct (Fundamentals.t s <? t_max)%float; try done;
    destruct (Fundamentals.a1_of k2 s) as [a1|]; try done;
    destruct (Fundamentals.a2_of k1 s) as [a2|]; try done; simpl;
    destruct (two_compartment_total a1 a2) as [-> Hsum];
    destruct (a1 + a2 =? 0)%float eqn:Hz; try done.
  apply feq_false in Hz. rewrite (Hsum Hz).
  apply andb_true_iff in Hsel as [Hd Hrest].
  rewrite two_compartment_event, Hd by done. by apply IH.
Qed.

(** ** Trajectories *)

Lemma ensures_impl {A : Type} (P Q : A -> Prop) (o : outcome A) :
  (forall a, P a -> Q a) -> ensures P o -> ensures Q o.
Proof. destruct o; simpl; auto. Qed.

Lemma ensures_and {A : Type} (P Q : A -> Prop) (o : outcome A) :
  ensures P o -> ensures Q o -> ensures (fun a => P a /\ Q a) o.
Proof. destruct o; simpl; auto. Qed.



(** The invariant of the five-compartment loop on a valid configuration:
    every event leaves counts that are conserved, and that the clamp does
    not change. *)
Lemma V_conserved_event (D : Z) (reactions : list VitalOrgan.reaction)
    (d : draw) (s : VitalOrgan.locals) (ps : list float)
    (n' : gmap string Z) :
  rates_valid reactions -> well_formed reactions s -> fle 0 (r2 d) ->
  VitalOrgan.calc_propensities (VitalOrgan.n s) reactions = Ok ps ->
  VitalOrgan.determine_reaction reactions ps 0 (r2 d * py_sum ps)
    (VitalOrgan.n s) = Ok n' ->
  conserved D (VitalOrgan.n s) ->
  conserved D n' /\ VitalOrgan.clamp n' = n' /\
  dom n' = dom (VitalOrgan.n s).
Proof.
  intros Hrates Hwf Hr2 Hps Hdet (Hdom & Hpos & Htot).
  destruct (selection_valid _ _ _ (r2 d) (proj1 Hwf) Hpos Hrates
              (calc_propensities_Ok _ _ _ Hps) Hr2)
    as [(i & r & p & c & n'' & _ & _ & _ & _ & _ & _ & Hdet' & _ &
         Hdom' & Htot' & Hpos' & Hclamp) | [_ Hdet']].
  - assert (n'' = n') as -> by congruence.
    split; [|by split]. split; [congruence|]. split; [done | congruence].
  - assert (n' = VitalOrgan.n s) as -> by congruence.
    split; [done|]. split; [by apply clamp_id | done].
Qed.


(** The clocks of the two loops on a valid configuration. *)
Lemma F_run_clocked (D : Z) (k1 k2 t_max : float) (draws : list draw) :
  0 <= D -> valid_rate k1 -> valid_rate k2 -> Forall valid_draw draws ->
  ensures (fun traj : Fundamentals.trajectory =>
             traj.1.1 !! 0%nat = Some 0%float /\
             adjacent (fun a b => ~ flt b a) traj.1.1)
    (Fundamentals.simulate_stochastic_pk_model D k1 k2 t_max draws).
Proof.
  intros HD Hk1 Hk2 Hdraws.
  eapply ensures_impl;
    [|apply (F_run valid_draw
               (fun s => F_nonneg s /\
                         clocked (Fundamentals.t s) (Fundamentals.times s))
               D k1 k2 t_max draws)].
  - intros traj (s & -> & _ & _ & _ & Hhead & Hadj). by simpl.
  - intros s d a1 a2 [Hnn Hcl] Hd _ Ha1 Ha2 Hne. split.
    + by apply F_nonneg_event.
    + destruct Hnn as (H1 & H2 & _).
      apply clocked_event; try done.
      apply add_not_negative.
      * by apply (mul_int_not_negative k2 (Fundamentals.n1 s)).
      * by apply (mul_int_not_negative k1 (Fundamentals.n2 s)).
  - done.
  - split; [by apply F_initial_nonneg | apply clocked_initial].
Qed.

Lemma V_run_clocked (D : Z) (rate_constants : gmap string float)
    (t_max : float) (draws : list draw) :
  0 <= D -> valid_rates rate_constants -> Forall valid_draw draws ->
  ensures (fun traj : VitalOrgan.trajectory =>
             traj.1 !! 0%nat = Some 0%float /\
             adjacent (fun a b => ~ flt b a) traj.1)
    (VitalOrgan.simulate_stochastic_pk_model D rate_constants t_max draws).
Proof.
  intros HD Hrates Hdraws.
  destruct (reactions_of_valid _ Hrates) as (reactions & Hre & Hvalid).
  eapply ensures_impl;
    [|apply (V_run valid_draw
               (fun s => nonneg (VitalOrgan.n s) /\
                         clocked (VitalOrgan.t s) (VitalOrgan.times s))
               D rate_constants t_max draws)].
  - intros traj (s & -> & _ & _ & _ & Hhead & Hadj). by simpl.
  - intros reactions' s d ps n' Hre' [Hnn Hcl] Hwf Hd _ Hps Hne _.
    assert (reactions' = reactions) as -> by congruence.
    split; [apply clamp_nonneg|].
    unfold after_event. simpl. rewrite waiting_time_agree.
    apply clocked_event; try done.
    apply py_sum_not_negative.
    eapply propensities_not_negative; [done | done |].
    by apply calc_propensities_Ok.
  - done.
  - split; [by apply nonneg_initial_counts | apply clocked_initial].
Qed.

(** * The claims *)




(** C2, counterexample.  With a negative dose, negative rates and a negative
    horizon, both simulators return the initial snapshot without raising;
    and with a negative rate [k1], the two-compartment simulator simulates:
    it applies an event and returns. *)
Lemma construction_validation_counterexample :
  Fundamentals.simulate_stochastic_pk_model (-5) (-1) (-1) (-2) example_draws
    = Returned ([0%float], [-5], [0]) /\
  VitalOrgan.simulate_stochastic_pk_model (-5) negative_rate_constants (-2)
    example_draws
    = Returned ([0%float],
                <["Heart" := [-5]]> (<["Brain" := [0]]>
                (<["Kidneys" := [0]]> (<["Liver" := [0]]>
                (<["Lungs" := [0]]> ∅))))) /\
  Fundamentals.simulate_stochastic_pk_model 1 (-1) 1 0.5
    [Draw 0.5 log_half 0]
    = Returned ([0; - log_half]%float, [1; 0], [0; 1]).
Proof.
  split; [by vm_compute|]. split; [|by vm_compute].
  vm_compute. reflexivity.
Qed.

(** C2, as the code has it.  Neither simulator checks its configuration:
    whatever the dose, the rates and the horizon are, the two-compartment
    simulator raises nothing but [OverflowError], and the five-compartment
    simulator raises only that and [KeyError], the latter exactly when
    [rate_constants] lacks one of the eight rates it reads.  [OverflowError]
    is what [k * n] raises for a molecule count [n] that has no finite
    float; it is not raised in a short run.  The reactions of the
    five-compartment simulator are fixed in the code over its five
    compartments. *)
Theorem no_construction_validation (D : Z) (k1 k2 : float)
    (rate_constants : gmap string float) (t_max : float)
    (draws : list draw) :
  (forall e,
      Fundamentals.simulate_stochastic_pk_model D k1 k2 t_max draws
        = Raised e -> e = OverflowError) /\
  (forall e,
      VitalOrgan.simulate_stochastic_pk_model D rate_constants t_max draws
        = Raised e ->
      (e = KeyError /\ ~ has_rates rate_constants) \/
      (e = OverflowError /\ has_rates rate_constants)) /\
  (~ has_rates rate_constants ->
   VitalOrgan.simulate_stochastic_pk_model D rate_constants t_max draws
     = Raised KeyError) /\
  (small_run D draws ->
   (exists traj,
      carried (Fundamentals.simulate_stochastic_pk_model D k1 k2 t_max draws)
        = Some traj) /\
   (has_rates rate_constants ->
    exists traj,
      carried (VitalOrgan.simulate_stochastic_pk_model D rate_constants
                 t_max draws) = Some traj)) /\
  (forall reactions,
      VitalOrgan.reactions_of rate_constants = Ok reactions ->
      dom (VitalOrgan.initial_counts D) = organ_keys /\
      Forall (fun r => VitalOrgan.from r ∈ organ_keys /\
                       VitalOrgan.to r ∈ organ_keys) reactions).
Proof.
  split; [|split; [|split; [|split]]].
  - intros e. apply F_run_raises.
  - intros e. apply V_run_raises.
  - intros Hno. unfold VitalOrgan.simulate_stochastic_pk_model.
    by rewrite reactions_of_lacks.
  - intros Hsmall. split; [by apply F_run_small|].
    intros Hhas. by apply V_run_small.
  - intros reactions Hre. split; [apply initial_counts_dom|].
    pose proof (reactions_of_closed _ _ _ Hre (initial_counts_dom D)) as Hcl.
    unfold closed in Hcl. by rewrite initial_counts_dom in Hcl.
Qed.

(** C2: the theorem on concrete inputs. *)
Lemma no_construction_validation_witness :
  (exists traj,
     carried (VitalOrgan.simulate_stochastic_pk_model (-5)
                negative_rate_constants (-2) example_draws) = Some traj) /\
  VitalOrgan.simulate_stochastic_pk_model 1000
    (delete "k_Lungs_Heart" example_rate_constants) 50 example_draws
    = Raised KeyError /\
  (forall e,
      Fundamentals.simulate_stochastic_pk_model (10 ^ 400) 0.5 0.5 20
        example_draws = Raised e -> e = OverflowError) /\
  dom (VitalOrgan.initial_counts 1000) = organ_keys /\
  Forall (fun r => VitalOrgan.from r ∈ organ_keys /\
                   VitalOrgan.to r ∈ organ_keys) example_reactions.
Proof.
  split; [|split; [|split]].
  - pose proof (no_construction_validation (-5) (-1) (-1)
                  negative_rate_constants (-2) example_draws) as H.
    destruct H as (_ & _ & _ & Hsmall & _).
    apply Hsmall; [unfold small_run; simpl; lia|].
    unfold has_rates, rate_keys.
    repeat (apply Forall_cons_2; [eexists; reflexivity|]). apply Forall_nil_2.
  - apply (no_construction_validation 1000 0.5 0.5
             (delete "k_Lungs_Heart" example_rate_constants) 50 example_draws).
    unfold has_rates, rate_keys. intros H.
    do 7 (apply Forall_cons in H as [_ H]).
    apply Forall_cons in H as [[k Hk] _]. done.
  - apply (no_construction_validation (10 ^ 400) 0.5 0.5
             example_rate_constants 20 example_draws).
  - apply (no_construction_validation 1000 0.5 0.5
             example_rate_constants 50 example_draws).
    apply example_reactions_of.
Defined.

(** C3, counterexample.  [0.0] is a draw of [0, 1), and [np.log] returns
    [-inf] there; with it as [r1] the waiting time is [+inf], in a run of
    either simulator on the configuration of its script: the event is
    applied and recorded at time [+inf]. *)
Lemma zero_draw_counterexample :
  valid_draw (Draw 0 neg_infinity 0.25) /\
  Fundamentals.waiting_time neg_infinity 50 = infinity /\
  Fundamentals.simulate_stochastic_pk_model 100 0.5 0.5 20
    [Draw 0 neg_infinity 0.25]
    = Returned ([0; infinity]%float, [100; 99], [0; 1]) /\
  VitalOrgan.simulate_stochastic_pk_model 1000 example_rate_constants 50
    [Draw 0 neg_infinity 0.25]
    = Returned ([0; infinity]%float,
                <["Heart" := [1000; 999]]> (<["Brain" := [0; 0]]>
                (<["Kidneys" := [0; 1]]> (<["Liver" := [0; 0]]>
                (<["Lungs" := [0; 0]]> ∅))))).
Proof.
  split; [by vm_compute|]. split; [by vm_compute|].
  split; [by vm_compute|]. vm_compute. reflexivity.
Qed.

(** C3, as the code has it.  Neither stepper guards the timing draw: the
    logarithm of a draw [r1 = 0.0] is [-inf], and with a total propensity
    that is positive and finite the waiting time [-ln(r1)/a0] is [+inf].  The
    event is applied and recorded, at time [+inf], and the loop ends there,
    whatever the horizon is. *)
Theorem zero_draw_unguarded :
  (forall d, valid_draw d -> feq (r1 d) 0 -> log_r1 d = neg_infinity) /\
  (forall a0, flt 0 a0 -> finite a0 ->
      Fundamentals.waiting_time neg_infinity a0 = infinity /\
      VitalOrgan.waiting_time neg_infinity a0 = infinity) /\
  (forall k1 k2 t_max d draws s a1 a2,
      valid_draw d -> feq (r1 d) 0 ->
      finite (Fundamentals.t s) ->
      flt (Fundamentals.t s) t_max ->
      Fundamentals.a1_of k2 s = Ok a1 -> Fundamentals.a2_of k1 s = Ok a2 ->
      flt 0 (a1 + a2) -> finite (a1 + a2) ->
      let s' := Fundamentals.event (a1 + a2) a1 d s in
      Fundamentals.t s' = infinity /\
      Fundamentals.main_loop k1 k2 t_max (d :: draws) s = Returned s') /\
  (forall reactions t_max d draws s ps,
      valid_draw d -> feq (r1 d) 0 ->
      well_formed reactions s ->
      finite (VitalOrgan.t s) ->
      flt (VitalOrgan.t s) t_max ->
      VitalOrgan.calc_propensities (VitalOrgan.n s) reactions = Ok ps ->
      flt 0 (py_sum ps) -> finite (py_sum ps) ->
      exists s',
        VitalOrgan.event reactions ps (py_sum ps) d s = Ok s' /\
        VitalOrgan.t s' = infinity /\
        VitalOrgan.main_loop reactions t_max (d :: draws) s = Returned s').
Proof.
  assert (forall d, valid_draw d -> feq (r1 d) 0 -> log_r1 d = neg_infinity)
    as Hlog.
  { intros d (_ & [Hzero _] & _) Hz. by apply Hzero. }
  split; [exact Hlog|]. split; [|split].
  - intros a0 Hpos Hfin. split; by apply waiting_time_zero_draw.
  - intros k1 k2 t_max d draws s a1 a2 Hd Hz Hfin Hguard Ha1 Ha2 Hpos Hfin0 s'.
    assert (Fundamentals.t s' = infinity) as Ht'.
    { unfold s', Fundamentals.event. cbn [Fundamentals.t].
      rewrite (Hlog d Hd Hz), waiting_time_zero_draw by done.
      by apply add_infinity. }
    split; [done|].
    rewrite (F_main_loop_step k1 k2 t_max d draws s a1 a2); try done.
    + apply F_main_loop_stop. fold s'. rewrite Ht'.
      apply infinity_not_below.
    + by apply positive_not_zero.
  - intros reactions t_max d draws s ps Hd Hz Hwf Hfin Hguard Hps Hpos Hfin0.
    pose proof (calc_propensities_Ok _ _ _ Hps) as Hall.
    destruct (event_well_formed reactions ps (py_sum ps) d s Hwf)
      as (n' & Hdet & Hdom & Hev & _).
    { symmetry. by eapply Forall2_length. }
    assert (VitalOrgan.t (after_event (py_sum ps) d s n') = infinity) as Ht'.
    { unfold after_event. cbn [VitalOrgan.t].
      change VitalOrgan.waiting_time with Fundamentals.waiting_time.
      rewrite (Hlog d Hd Hz), waiting_time_zero_draw by done.
      by apply add_infinity. }
    eexists. split; [exact Hev|]. split; [done|].
    rewrite (V_main_loop_step reactions t_max _ draws s ps n'); try done.
    + apply V_main_loop_stop. rewrite Ht'. apply infinity_not_below.
    + by apply positive_not_zero.
    + rewrite Hdom. apply Hwf.
Qed.

(** C3: the theorem on concrete inputs. *)
Lemma zero_draw_unguarded_witness :
  (Fundamentals.waiting_time neg_infinity 50 = infinity /\
   VitalOrgan.waiting_time neg_infinity 700 = infinity) /\
  (let d := Draw 0 neg_infinity 0.25 in
   let s' := Fundamentals.event (50 + 0) 50 d (Fundamentals.initial 100) in
   Fundamentals.t s' = infinity /\
   Fundamentals.main_loop 0.5 0.5 20 (d :: example_draws)
     (Fundamentals.initial 100) = Returned s') /\
  (exists s',
      VitalOrgan.event example_reactions example_propensities
        (py_sum example_propensities) (Draw 0 neg_infinity 0.25)
        (VitalOrgan.initial 1000) = Ok s' /\
      VitalOrgan.t s' = infinity /\
      VitalOrgan.main_loop example_reactions 50
        (Draw 0 neg_infinity 0.25 :: example_draws) (VitalOrgan.initial 1000)
        = Returned s').
Proof.
  destruct zero_draw_unguarded as (_ & Hzero & HF & HV).
  split; [split; [apply (Hzero 50%float) | apply (Hzero 700%float)];
          by vm_compute|].
  split.
  - apply (HF 0.5%float 0.5%float 20%float (Draw 0 neg_infinity 0.25)
             example_draws (Fundamentals.initial 100) 50%float 0%float);
      by vm_compute.
  - apply HV; try (by vm_compute). apply example_well_formed.
Defined.

(** C4, counterexample.  A valid configuration of the five-compartment
    simulator: the dose 1, the rate 5e-324 from Heart to Brain and the rate
    zero elsewhere, the selection draw [r2 = 0.75].  The total propensity
    [a0 = 5e-324] is positive, and [0.75 * a0] rounds to [5e-324]: no
    cumulative propensity exceeds it, the scan applies no reaction, and the
    event records the counts as they were. *)
Lemma reaction_selection_counterexample :
  let s := VitalOrgan.initial 1 in
  let d := Draw 0.5 log_half 0.75 in
  exists reactions ps,
    valid_rates tiny_rate_constants /\
    VitalOrgan.reactions_of tiny_rate_constants = Ok reactions /\
    VitalOrgan.calc_propensities (VitalOrgan.n s) reactions = Ok ps /\
    flt 0 (py_sum ps) /\ unit_interval (r2 d) /\
    none_exceeding ps (r2 d * py_sum ps) /\
    VitalOrgan.event reactions ps (py_sum ps) d s
      = Ok (after_event (py_sum ps) d s (VitalOrgan.n s)) /\
    VitalOrgan.simulate_stochastic_pk_model 1 tiny_rate_constants 20 [d]
      = Returned ([0; infinity]%float,
                  <["Heart" := [1; 1]]> (<["Brain" := [0; 0]]>
                  (<["Kidneys" := [0; 0]]> (<["Liver" := [0; 0]]>
                  (<["Lungs" := [0; 0]]> ∅))))).
Proof.
  intros s d.
  exists [ VitalOrgan.Reaction "Heart" "Brain" tiny;
           VitalOrgan.Reaction "Brain" "Heart" 0;
           VitalOrgan.Reaction "Heart" "Kidneys" 0;
           VitalOrgan.Reaction "Kidneys" "Heart" 0;
           VitalOrgan.Reaction "Heart" "Liver" 0;
           VitalOrgan.Reaction "Liver" "Heart" 0;
           VitalOrgan.Reaction "Heart" "Lungs" 0;
           VitalOrgan.Reaction "Lungs" "Heart" 0 ],
         [ tiny; 0; 0; 0; 0; 0; 0; 0 ]%float.
  split; [apply tiny_rate_constants_valid|].
  split; [reflexivity|]. split; [by vm_compute|].
  split; [by vm_compute|]. split; [by vm_compute|]. split.
  { intros j Hj. do 8 (destruct j as [|j]; [by vm_compute|]).
    simpl in Hj. lia. }
  split; [by vm_compute|]. vm_compute. reflexivity.
Qed.

(** C4, as the code has it.  In an iteration with total propensity [a0 > 0]
    and selection draw [r2] in [0, 1), the event applies the first reaction,
    in the order of the reaction list, whose cumulative propensity exceeds
    [r2 * a0], when there is one: its propensity, rate times source count, is
    not zero, so a reaction with zero propensity is never selected.  When no
    cumulative propensity exceeds [r2 * a0], which rounding allows, the event
    applies no reaction and records the counts unchanged. *)
Theorem reaction_selection_rule (reactions : list VitalOrgan.reaction)
    (ps : list float) (a0 : float) (d : draw) (s : VitalOrgan.locals) :
  well_formed reactions s ->
  VitalOrgan.calc_propensities (VitalOrgan.n s) reactions = Ok ps ->
  a0 = py_sum ps -> flt 0 a0 -> unit_interval (r2 d) ->
  (exists i reaction p c n',
     reactions !! i = Some reaction /\ ps !! i = Some p /\
     first_exceeding ps (r2 d * a0) i /\
     VitalOrgan.n s !! VitalOrgan.from reaction = Some c /\
     mul_int (VitalOrgan.rate reaction) c = Ok p /\ ~ feq p 0 /\
     VitalOrgan.apply_reaction (VitalOrgan.n s) reaction = Ok n' /\
     VitalOrgan.event reactions ps a0 d s = Ok (after_event a0 d s n'))
  \/
  (none_exceeding ps (r2 d * a0) /\
   VitalOrgan.event reactions ps a0 d s
     = Ok (after_event a0 d s (VitalOrgan.n s))).
Proof.
  intros Hwf Hps -> Hpos [Hlo Hhi].
  pose proof (calc_propensities_Ok _ _ _ Hps) as Hall.
  pose proof (eq_sym (Forall2_length _ _ _ Hall)) as Hlen.
  assert (not_negative (r2 d * py_sum ps)) as Hthr.
  { apply mul_not_negative; [by apply fle_0_not_negative|].
    by apply positive_not_negative. }
  destruct (event_well_formed reactions ps (py_sum ps) d s Hwf Hlen)
    as (n' & Hdet' & _ & Hev & _).
  destruct (determine_reaction_scan (VitalOrgan.n s) (r2 d * py_sum ps)%float
              reactions ps 0%float Hlen)
    as [(i & r & Hr & Hex & Hmin & Heq) | [Hnone Heq]]; [left | right].
  - assert (is_Some (ps !! i)) as [p Hp].
    { apply lookup_lt_is_Some. rewrite Hlen. by eapply lookup_lt_Some. }
    assert (first_exceeding ps (r2 d * py_sum ps) i) as Hfirst by done.
    destruct (Forall2_lookup_lr _ _ _ _ _ _ Hall Hr Hp)
      as (c & x & Hc & Hx & Hpx).
    exists i, r, p, c, n'. repeat split; try done; try (by apply Hfirst).
    + unfold mul_int. rewrite Hx. simpl. by rewrite Hpx.
    + by eapply first_exceeding_nonzero.
    + congruence.
  - split; [done|]. by assert (n' = VitalOrgan.n s) as <- by congruence.
Qed.

(** C4: the theorem on concrete inputs, the first iteration of the
    five-compartment script: the threshold is 175, the cumulative
    propensities are 100, 100, 300, and Heart to Kidneys is applied. *)
Lemma reaction_selection_rule_witness :
  let d := Draw 0.5 log_half 0.25 in
  let s := VitalOrgan.initial 1000 in
  (exists i reaction p c n',
     example_reactions !! i = Some reaction /\
     example_propensities !! i = Some p /\
     first_exceeding example_propensities (r2 d * 700) i /\
     VitalOrgan.n s !! VitalOrgan.from reaction = Some c /\
     mul_int (VitalOrgan.rate reaction) c = Ok p /\ ~ feq p 0 /\
     VitalOrgan.apply_reaction (VitalOrgan.n s) reaction = Ok n' /\
     VitalOrgan.event example_reactions example_propensities 700 d s
       = Ok (after_event 700 d s n'))
  \/
  (none_exceeding example_propensities (r2 d * 700) /\
   VitalOrgan.event example_reactions example_propensities 700 d s
     = Ok (after_event 700 d s (VitalOrgan.n s))).
Proof.
  apply (reaction_selection_rule example_reactions example_propensities 700
           (Draw 0.5 log_half 0.25) (VitalOrgan.initial 1000)).
  - apply example_well_formed.
  - apply example_calc_propensities.
  - by rewrite example_total_propensity.
  - by vm_compute.
  - by vm_compute.
Defined.

(** C5, counterexample.  For the dose 1, the rates [k1 = 0.5] and
    [k2 = 5e-324] and the draws [r1 = 0.5], [r2 = 0.75], all valid, the
    threshold [0.75 * a0] rounds to [a0 = a1]: the hard-coded simulator
    applies Lung to Heart and records the counts (2, 0), while the scan over
    the two-reaction network finds no cumulative propensity above the
    threshold, applies nothing and records (1, 0). *)
Lemma two_compartment_equivalence_counterexample :
  valid_rate 0.5 /\ valid_rate tiny /\ valid_draw (Draw 0.5 log_half 0.75) /\
  outcome_map Fundamentals.returned_arrays
    (Fundamentals.main_loop 0.5 tiny 20 [Draw 0.5 log_half 0.75]
       (Fundamentals.initial 1))
    = Returned ([0; infinity]%float, [1; 2], [0; 0]) /\
  outcome_map VitalOrgan.returned_arrays
    (VitalOrgan.main_loop (two_compartment_reactions 0.5 tiny) 20
       [Draw 0.5 log_half 0.75]
       (VitalOrgan.initial_of (two_compartment_counts 1 0)))
    = Returned ([0; infinity]%float,
                <["Heart" := [1; 1]]> (<["Lung" := [0; 0]]> ∅)) /\
  VitalOrgan.main_loop (two_compartment_reactions 0.5 tiny) 20
    [Draw 0.5 log_half 0.75]
    (VitalOrgan.initial_of (two_compartment_counts 1 0))
  <> outcome_map as_network
       (Fundamentals.main_loop 0.5 tiny 20 [Draw 0.5 log_half 0.75]
          (Fundamentals.initial 1)).
Proof.
  split; [by vm_compute|]. split; [by vm_compute|]. split; [by vm_compute|].
  split; [by vm_compute|].
  assert (outcome_map VitalOrgan.returned_arrays
            (VitalOrgan.main_loop (two_compartment_reactions 0.5 tiny) 20
               [Draw 0.5 log_half 0.75]
               (VitalOrgan.initial_of (two_compartment_counts 1 0)))
          = Returned ([0; infinity]%float,
                      <["Heart" := [1; 1]]> (<["Lung" := [0; 0]]> ∅))) as HV
    by (vm_compute; reflexivity).
  split; [exact HV|].
  intros Heq.
  apply (f_equal (outcome_map (fun s => VitalOrgan.n s !! "Heart"))) in Heq.
  vm_compute in Heq. discriminate Heq.
Qed.

(** C5, as the code has it.  For the same dose, rate constants, horizon and
    draws, the hard-coded two-compartment simulator and the multi-compartment
    loop run on the network [Heart to Lung with rate k2; Lung to Heart with
    rate k1] go through the same states, event by event, and end alike
    (also when they raise), in every run in which the scan selects a reaction
    at each event: the threshold [r2 * a0] is below [a1] or below [a0].  At
    an event where it is below neither, the scan applies no reaction and the
    hard-coded test applies Lung to Heart.  The loops compute the same
    propensities, and the same total unless it is zero. *)
Theorem two_compartment_equivalence (D : Z) (k1 k2 t_max : float)
    (draws : list draw) :
  (scan_selects_throughout k1 k2 t_max draws (Fundamentals.initial D) = true ->
   VitalOrgan.main_loop (two_compartment_reactions k1 k2) t_max draws
     (VitalOrgan.initial_of (two_compartment_counts D 0))
   = outcome_map as_network
       (Fundamentals.main_loop k1 k2 t_max draws (Fundamentals.initial D))) /\
  (forall d s a1 a2,
      Fundamentals.a1_of k2 s = Ok a1 -> Fundamentals.a2_of k1 s = Ok a2 ->
      ~ feq (a1 + a2) 0 ->
      let thr := (r2 d * (a1 + a2))%float in
      VitalOrgan.calc_propensities (VitalOrgan.n (as_network s))
        (two_compartment_reactions k1 k2) = Ok [a1; a2] /\
      py_sum [a1; a2] = (a1 + a2)%float /\
      (flt thr a1 \/ flt thr (a1 + a2) ->
       VitalOrgan.event (two_compartment_reactions k1 k2) [a1; a2]
         (py_sum [a1; a2]) d (as_network s)
       = Ok (as_network (Fundamentals.event (a1 + a2) a1 d s))) /\
      (~ flt thr a1 -> ~ flt thr (a1 + a2) ->
       VitalOrgan.event (two_compartment_reactions k1 k2) [a1; a2]
         (py_sum [a1; a2]) d (as_network s)
       = Ok (after_event (a1 + a2) d (as_network s)
               (VitalOrgan.n (as_network s))) /\
       Fundamentals.react (r2 d) (a1 + a2) a1
         (Fundamentals.n1 s, Fundamentals.n2 s)
       = (Fundamentals.n1 s + 1, Fundamentals.n2 s - 1))).
Proof.
  split.
  - intros Hsel. rewrite as_network_initial. by apply two_compartment_loop.
  - intros d s a1 a2 Ha1 Ha2 Hne thr.
    destruct (two_compartment_total a1 a2) as [_ Hsum].
    rewrite (Hsum Hne).
    split; [by rewrite two_compartment_propensities, Ha1, Ha2|].
    split; [done|]. rewrite two_compartment_event by done. fold thr. split.
    + intros Hsel.
      assert (((thr <? a1) || (thr <? a1 + a2))%float = true) as ->; [|done].
      apply orb_true_iff. destruct Hsel as [H|H]; [left | right];
        by apply flt_true.
    + intros H1%flt_false H2%flt_false. rewrite H1, H2. simpl.
      split; [done|]. unfold Fundamentals.react. fold thr. by rewrite H1.
Qed.

(** C5: the theorem on concrete inputs, the configuration of the
    two-compartment script. *)
Lemma two_compartment_equivalence_witness :
  VitalOrgan.main_loop (two_compartment_reactions 0.5 0.5) 20
    example_draws (VitalOrgan.initial_of (two_compartment_counts 100 0))
  = outcome_map as_network
      (Fundamentals.main_loop 0.5 0.5 20 example_draws
         (Fundamentals.initial 100)) /\
  (let s := Fundamentals.initial 100 in
   let d := Draw 0.5 log_half 0.25 in
   VitalOrgan.event (two_compartment_reactions 0.5 0.5) [50; 0]%float
     (py_sum [50; 0]%float) d (as_network s)
   = Ok (as_network (Fundamentals.event (50 + 0) 50 d s))).
Proof.
  pose proof (two_compartment_equivalence 100 0.5 0.5 20 example_draws)
    as [Hrun Hev].
  split; [apply Hrun; by vm_compute|].
  apply (Hev (Draw 0.5 log_half 0.25) (Fundamentals.initial 100)
           50%float 0%float); try (by vm_compute).
  left. by vm_compute.
Defined.

(** C6, counterexample.  The configuration of the two-compartment script
    (dose 100, rates 0.5 and 0.5, horizon 20) with the timing draws 0.125,
    [1 - 2^-53] and 0.0: the second waiting time, [2^-53 / 50], is positive
    and is absorbed by the rounding of [t + dt], so that the second and the
    third recorded times are equal.  And with the valid rate 1e308 the
    propensity of Heart to Lung at 100 molecules is [+inf], and the waiting
    time of the draw [r1 = 0.5] is zero. *)
Lemma time_monotonicity_counterexample :
  let draws := [ Draw 0.125 log_eighth 0.25;
                 Draw below_one log_below_one 0.25;
                 Draw 0 neg_infinity 0.25 ] in
  let t1 := 0x1.54b21989e4c18p-5%float in
  valid_rate 0.5 /\ Forall valid_draw draws /\
  Fundamentals.simulate_stochastic_pk_model 100 0.5 0.5 20 draws
    = Returned ([0; t1; t1; infinity]%float, [100; 99; 98; 97],
                [0; 1; 2; 3]) /\
  ~ flt t1 t1 /\
  flt 0 (Fundamentals.waiting_time log_below_one 50) /\
  valid_rate huge /\ valid_draw (Draw 0.5 log_half 0.25) /\
  Fundamentals.a1_of huge (Fundamentals.initial 100) = Ok infinity /\
  Fundamentals.waiting_time log_half infinity = 0%float.
Proof.
  intros draws t1.
  split; [by vm_compute|].
  split; [by repeat constructor; vm_compute|].
  repeat split; by vm_compute.
Qed.

(** C6, as the code has it.  In every run on a valid configuration the
    recorded times start at 0 and never decrease, in both simulators: no
    recorded time is below the one before it.  (They need not increase: a
    waiting time can be absorbed by the rounding of [t + dt], and it can be
    zero.)  A waiting time [-ln(r1)/a0] is never negative for a draw [r1] of
    [0, 1) and a total propensity that is neither negative nor zero.  A short
    run does not raise. *)
Theorem time_monotonicity (D : Z) (k1 k2 : float)
    (rate_constants : gmap string float) (t_max : float)
    (draws : list draw) :
  0 <= D -> valid_rate k1 -> valid_rate k2 -> valid_rates rate_constants ->
  Forall valid_draw draws ->
  ensures (fun traj : Fundamentals.trajectory =>
             traj.1.1 !! 0%nat = Some 0%float /\
             adjacent (fun a b => ~ flt b a) traj.1.1)
    (Fundamentals.simulate_stochastic_pk_model D k1 k2 t_max draws) /\
  ensures (fun traj : VitalOrgan.trajectory =>
             traj.1 !! 0%nat = Some 0%float /\
             adjacent (fun a b => ~ flt b a) traj.1)
    (VitalOrgan.simulate_stochastic_pk_model D rate_constants t_max draws) /\
  (small_run D draws ->
   (exists traj,
      carried (Fundamentals.simulate_stochastic_pk_model D k1 k2 t_max draws)
        = Some traj) /\
   (exists traj,
      carried (VitalOrgan.simulate_stochastic_pk_model D rate_constants
                 t_max draws) = Some traj)) /\
  (forall d a0, valid_draw d -> not_negative a0 -> ~ feq a0 0 ->
      not_negative (Fundamentals.waiting_time (log_r1 d) a0) /\
      not_negative (VitalOrgan.waiting_time (log_r1 d) a0)).
Proof.
  intros HD Hk1 Hk2 Hrates Hdraws. split; [|split; [|split]].
  - by apply F_run_clocked.
  - by apply V_run_clocked.
  - intros Hsmall. split; [by apply F_run_small|].
    apply V_run_small; [by apply valid_rates_has | done].
  - intros d a0 Hd Ha0 Hne. split; by apply waiting_time_not_negative.
Qed.

(** C6: the theorem on concrete inputs. *)
Lemma time_monotonicity_witness :
  ensures (fun traj : Fundamentals.trajectory =>
             traj.1.1 !! 0%nat = Some 0%float /\
             adjacent (fun a b => ~ flt b a) traj.1.1)
    (Fundamentals.simulate_stochastic_pk_model 100 0.5 0.5 20
       example_draws) /\
  ensures (fun traj : VitalOrgan.trajectory =>
             traj.1 !! 0%nat = Some 0%float /\
             adjacent (fun a b => ~ flt b a) traj.1)
    (VitalOrgan.simulate_stochastic_pk_model 100 example_rate_constants 20
       example_draws) /\
  not_negative (Fundamentals.waiting_time log_half 50).
Proof.
  pose proof (time_monotonicity 100 0.5 0.5 example_rate_constants 20
                example_draws) as H.
  destruct H as (HF & HV & _ & Hdt);
    [lia | by vm_compute | by vm_compute | apply example_rate_constants_valid
    | apply example_draws_valid |].
  split; [exact HF|]. split; [exact HV|].
  apply (Hdt (Draw 0.5 log_half 0.25) 50%float); by vm_compute.
Defined.

(** C7, zero-propensity termination.  When the total propensity is exactly
    zero at the start of an iteration, the loop of either simulator ends there
    and returns the local variables as they are: whatever draws are on offer,
    none is taken, the clock is not advanced and nothing is recorded; the
    caller gets the trajectory accumulated so far. *)
Theorem zero_propensity_termination :
  (forall k1 k2 t_max draws s a1 a2,
      Fundamentals.a1_of k2 s = Ok a1 -> Fundamentals.a2_of k1 s = Ok a2 ->
      feq (a1 + a2) 0 ->
      Fundamentals.main_loop k1 k2 t_max draws s = Returned s /\
      outcome_map Fundamentals.returned_arrays
        (Fundamentals.main_loop k1 k2 t_max draws s)
        = Returned (Fundamentals.times s, Fundamentals.n1_values s,
                    Fundamentals.n2_values s)) /\
  (forall reactions t_max draws s ps,
      VitalOrgan.calc_propensities (VitalOrgan.n s) reactions = Ok ps ->
      feq (py_sum ps) 0 ->
      VitalOrgan.main_loop reactions t_max draws s = Returned s /\
      outcome_map VitalOrgan.returned_arrays
        (VitalOrgan.main_loop reactions t_max draws s)
        = Returned (VitalOrgan.times s, VitalOrgan.n_history s)).
Proof.
  split.
  - intros k1 k2 t_max draws s a1 a2 Ha1 Ha2 Ha0%feq_true.
    assert (Fundamentals.main_loop k1 k2 t_max draws s = Returned s) as ->;
      [|done].
    rewrite F_main_loop_eq, Ha1, Ha2, Ha0.
    by destruct (_ <? _)%float.
  - intros reactions t_max draws s ps Hps Ha0%feq_true.
    assert (VitalOrgan.main_loop reactions t_max draws s = Returned s) as ->;
      [|done].
    rewrite V_main_loop_eq, Hps, Ha0.
    by destruct (_ <? _)%float.
Qed.

(** C7: the theorem on concrete inputs. *)
Lemma zero_propensity_termination_witness :
  Fundamentals.main_loop 0 0 20 example_draws (Fundamentals.initial 100)
    = Returned (Fundamentals.initial 100) /\
  VitalOrgan.main_loop example_reactions 50 example_draws (VitalOrgan.initial 0)
    = Returned (VitalOrgan.initial 0).
Proof.
  split.
  - apply (proj1 zero_propensity_termination 0%float 0%float 20%float
             example_draws (Fundamentals.initial 100) 0%float 0%float);
      by vm_compute.
  - eapply (proj2 zero_propensity_termination).
    + reflexivity.
    + by vm_compute.
Defined.

(** C8, non-negativity.  For a non-negative dose, whatever the rates and the
    draws are, every count of every recorded snapshot is non-negative, in both
    simulators; after each event the counts are the clamped ones, which are
    never negative.  A short run does not raise. *)
Theorem non_negativity (D : Z) (k1 k2 : float)
    (rate_constants : gmap string float) (t_max : float)
    (draws : list draw) :
  0 <= D ->
  ensures (fun traj : Fundamentals.trajectory =>
             Forall (fun c => 0 <= c) traj.1.2 /\
             Forall (fun c => 0 <= c) traj.2)
    (Fundamentals.simulate_stochastic_pk_model D k1 k2 t_max draws) /\
  (small_run D draws ->
   exists traj,
     carried (Fundamentals.simulate_stochastic_pk_model D k1 k2 t_max draws)
       = Some traj) /\
  ensures (fun traj : VitalOrgan.trajectory =>
             forall k l, traj.2 !! k = Some l -> Forall (fun c => 0 <= c) l)
    (VitalOrgan.simulate_stochastic_pk_model D rate_constants t_max draws) /\
  (forall a0 a1 d s,
      0 <= Fundamentals.n1 (Fundamentals.event a0 a1 d s) /\
      0 <= Fundamentals.n2 (Fundamentals.event a0 a1 d s)) /\
  (forall reactions ps a0 d s s',
      VitalOrgan.event reactions ps a0 d s = Ok s' ->
      nonneg (VitalOrgan.n s')).
Proof.
  intros HD. split; [|split; [|split; [|split]]].
  - eapply ensures_impl;
      [|apply (F_run (fun _ => True) F_nonneg D k1 k2 t_max draws)].
    + intros traj (s & -> & _ & _ & H1 & H2). by simpl.
    + intros s d a1 a2 Hnn _ _ _ _ _. by apply F_nonneg_event.
    + by apply Forall_true.
    + by apply F_initial_nonneg.
  - apply F_run_small.
  - eapply ensures_impl;
      [|apply (V_run (fun _ => True) (V_recorded nonneg)
                 D rate_constants t_max draws)].
    + intros traj (s & -> & Hlen & _ & Hsnap) k l Hl. simpl in Hl.
      apply Forall_lookup. intros i c Hc.
      apply (Hsnap i) with (k := k).
      * rewrite <- (Hlen k l) by done. by eapply lookup_lt_Some.
      * unfold snapshot. rewrite lookup_omap, Hl. done.
    + intros reactions s d ps n' Hre Hrec Hwf _ _ Hps _ Hdet.
      destruct (determine_reaction_dom (VitalOrgan.n s)
                  (r2 d * py_sum ps)%float reactions ps 0%float (proj1 Hwf))
        as (n'' & Hdet' & Hdom & _).
      { symmetry. eapply Forall2_length. by apply calc_propensities_Ok. }
      assert (n'' = n') as -> by congruence.
      apply (V_recorded_event _ reactions); try done. apply clamp_nonneg.
    + by apply Forall_true.
    + apply V_recorded_initial. by apply nonneg_initial_counts.
  - intros a0 a1 d s. apply F_clamp_nonneg.
  - intros reactions ps a0 d s s' Hev.
    apply V_event_Ok in Hev as (n' & -> & _). simpl. apply clamp_nonneg.
Qed.

(** C8: the theorem on concrete inputs. *)
Lemma non_negativity_witness :
  ensures (fun traj : Fundamentals.trajectory =>
             Forall (fun c => 0 <= c) traj.1.2 /\
             Forall (fun c => 0 <= c) traj.2)
    (Fundamentals.simulate_stochastic_pk_model 100 0.5 0.5 20
       example_draws) /\
  (exists traj,
     carried (Fundamentals.simulate_stochastic_pk_model 100 0.5 0.5 20
                example_draws) = Some traj) /\
  ensures (fun traj : VitalOrgan.trajectory =>
             forall k l, traj.2 !! k = Some l -> Forall (fun c => 0 <= c) l)
    (VitalOrgan.simulate_stochastic_pk_model 1000 example_rate_constants 50
       example_draws) /\
  nonneg (VitalOrgan.n
            (after_event (py_sum example_propensities)
               (Draw 0.5 log_half 0.25) (VitalOrgan.initial 1000)
               (<["Kidneys" := 1]> (<["Heart" := 999]>
                  (VitalOrgan.initial_counts 1000))))).
Proof.
  split; [|split; [|split]].
  - apply (non_negativity 100 0.5 0.5 example_rate_constants 20
             example_draws). lia.
  - pose proof (non_negativity 100 0.5 0.5 example_rate_constants 20
                  example_draws) as H.
    destruct H as (_ & Hsmall & _); [lia|].
    apply Hsmall. unfold small_run. simpl. lia.
  - apply (non_negativity 1000 0.5 0.5 example_rate_constants 50
             example_draws). lia.
  - pose proof (non_negativity 1000 0.5 0.5 example_rate_constants 50
                  example_draws) as H.
    destruct H as (_ & _ & _ & _ & Hev); [lia|].
    apply (Hev _ _ _ _ _ _ example_event).
Defined.




(** C10, trajectory alignment.  In every run the returned times and every
    history of counts have the same length: the histories of the
    five-compartment model are those of its five compartments, each as long
    as [times]; both start with one entry, at time 0, and an event appends
    exactly one time and exactly one count per compartment.  A short run
    does not raise. *)
Theorem trajectory_alignment (D : Z) (k1 k2 : float)
    (rate_constants : gmap string float) (t_max : float)
    (draws : list draw) :
  ensures (fun traj : Fundamentals.trajectory =>
             length traj.1.2 = length traj.1.1 /\
             length traj.2 = length traj.1.1)
    (Fundamentals.simulate_stochastic_pk_model D k1 k2 t_max draws) /\
  (small_run D draws ->
   exists traj,
     carried (Fundamentals.simulate_stochastic_pk_model D k1 k2 t_max draws)
       = Some traj) /\
  ensures (fun traj : VitalOrgan.trajectory =>
             dom traj.2 = organ_keys /\
             forall k l, traj.2 !! k = Some l -> length l = length traj.1)
    (VitalOrgan.simulate_stochastic_pk_model D rate_constants t_max draws) /\
  (Fundamentals.returned_arrays (Fundamentals.initial D)
     = ([0%float], [D], [0]) /\
   VitalOrgan.times (VitalOrgan.initial D) = [0%float] /\
   forall k, VitalOrgan.n_history (VitalOrgan.initial D) !! k
             = (fun count => [count]) <$> VitalOrgan.initial_counts D !! k) /\
  (forall a0 a1 d s,
      let s' := Fundamentals.event a0 a1 d s in
      Fundamentals.times s' = Fundamentals.times s ++ [Fundamentals.t s'] /\
      Fundamentals.n1_values s'
        = Fundamentals.n1_values s ++ [Fundamentals.n1 s'] /\
      Fundamentals.n2_values s'
        = Fundamentals.n2_values s ++ [Fundamentals.n2 s']) /\
  (forall reactions ps a0 d s s',
      VitalOrgan.event reactions ps a0 d s = Ok s' ->
      VitalOrgan.times s' = VitalOrgan.times s ++ [VitalOrgan.t s'] /\
      forall k c, VitalOrgan.n s' !! k = Some c ->
        exists l, VitalOrgan.n_history s !! k = Some l /\
                  VitalOrgan.n_history s' !! k = Some (l ++ [c])).
Proof.
  split; [|split; [|split; [|split; [|split]]]].
  - eapply ensures_impl;
      [|apply (F_run (fun _ => True) F_aligned D k1 k2 t_max draws)].
    + intros traj (s & -> & H1 & H2). by simpl.
    + intros s d a1 a2 Hal _ _ _ _ _. by apply F_aligned_event.
    + by apply Forall_true.
    + apply F_initial_aligned.
  - apply F_run_small.
  - eapply ensures_impl;
      [|apply (V_run (fun _ => True)
                 (fun s => V_recorded (fun _ => True) s /\
                           dom (VitalOrgan.n_history s) = organ_keys)
                 D rate_constants t_max draws)].
    + intros traj (s & -> & (Hlen & _ & _) & Hdom). by split.
    + intros reactions s d ps n' Hre [Hrec Hd] Hwf _ _ Hps _ Hdet.
      destruct (determine_reaction_dom (VitalOrgan.n s)
                  (r2 d * py_sum ps)%float reactions ps 0%float (proj1 Hwf))
        as (n'' & Hdet' & Hdom & _).
      { symmetry. eapply Forall2_length. by apply calc_propensities_Ok. }
      assert (n'' = n') as -> by congruence.
      split; [by apply (V_recorded_event _ reactions)|].
      simpl. by rewrite recorded_dom.
    + by apply Forall_true.
    + split; [by apply V_recorded_initial|].
      simpl. rewrite dom_fmap_L. apply initial_counts_dom.
  - split; [done|]. split; [done|]. intros k. simpl. by rewrite lookup_fmap.
  - intros a0 a1 d s. by simpl.
  - intros reactions ps a0 d s s' Hev.
    apply V_event_Ok in Hev as (n' & -> & Hsub). split; [done|].
    intros k c Hc. simpl in Hc.
    assert (is_Some (VitalOrgan.n_history s !! k)) as [l Hl].
    { apply elem_of_dom, Hsub, elem_of_dom. eauto. }
    exists l. split; [done|]. simpl. by rewrite lookup_recorded, Hl, Hc.
Qed.

(** C10: the theorem on concrete inputs, a short run of the two-compartment
    script and the first event of the five-compartment script. *)
Lemma trajectory_alignment_witness :
  (exists traj,
     carried (Fundamentals.simulate_stochastic_pk_model 100 0.5 0.5 20
                example_draws) = Some traj) /\
  exists s',
    VitalOrgan.event example_reactions example_propensities
      (py_sum example_propensities) (Draw 0.5 log_half 0.25)
      (VitalOrgan.initial 1000) = Ok s' /\
    VitalOrgan.times s'
      = VitalOrgan.times (VitalOrgan.initial 1000) ++ [VitalOrgan.t s'] /\
    forall k c, VitalOrgan.n s' !! k = Some c ->
      exists l, VitalOrgan.n_history (VitalOrgan.initial 1000) !! k = Some l /\
                VitalOrgan.n_history s' !! k = Some (l ++ [c]).
Proof.
  pose proof (trajectory_alignment 1000 0.5 0.5 example_rate_constants 50
                example_draws) as H.
  pose proof (trajectory_alignment 100 0.5 0.5 example_rate_constants 20
                example_draws) as H'.
  destruct H as (_ & _ & _ & _ & _ & Hev).
  destruct H' as (_ & Hsmall & _).
  split; [apply Hsmall; unfold small_run; simpl; lia|].
  eexists. split; [apply example_event|].
  apply (Hev _ _ _ _ _ _ example_event).
Defined.

(** * Further properties *)

(** ** Histories and prefixes *)

(** The loop keeps the recorded past: what a state has recorded is a prefix
    of what a later state has. *)
Lemma F_main_loop_prefix (k1 k2 t_max : float) (draws : list draw)
    (s s' : Fundamentals.locals) :
  carried (Fundamentals.main_loop k1 k2 t_max draws s) = Some s' ->
  Fundamentals.times s `prefix_of` Fundamentals.times s' /\
  Fundamentals.n1_values s `prefix_of` Fundamentals.n1_values s' /\
  Fundamentals.n2_values s `prefix_of` Fundamentals.n2_values s'.
Proof.
  revert s. induction draws as [|d draws IH]; intros s;
    rewrite F_main_loop_eq;
    destruct (Fundamentals.t s <? t_max)%float;
    try (simpl; intros; by simplify_eq);
    destruct (Fundamentals.a1_of k2 s) as [a1|]; try done;
    destruct (Fundamentals.a2_of k1 s) as [a2|]; try done;
    destruct (a1 + a2 =? 0)%float;
    try (simpl; intros; by simplify_eq).
  intros Hrun. apply IH in Hrun as (Hp1 & Hp2 & Hp3). simpl in *.
  repeat split; (etrans; [apply prefix_app_r; reflexivity | done]).
Qed.

(** More draws continue a pending run, and change nothing of a run that
    returned or raised. *)
Lemma F_main_loop_app (k1 k2 t_max : float) (draws more : list draw)
    (s : Fundamentals.locals) :
  Fundamentals.main_loop k1 k2 t_max (draws ++ more) s
  = match Fundamentals.main_loop k1 k2 t_max draws s with
    | Pending s' => Fundamentals.main_loop k1 k2 t_max more s'
    | o => o
    end.
Proof.
  revert s. induction draws as [|d draws IH]; intros s.
  - simpl app. rewrite (F_main_loop_eq k1 k2 t_max []).
    rewrite (F_main_loop_eq k1 k2 t_max more).
    destruct (Fundamentals.t s <? t_max)%float eqn:Hg; [|done].
    destruct (Fundamentals.a1_of k2 s) as [a1|] eqn:E1; [|done].
    destruct (Fundamentals.a2_of k1 s) as [a2|] eqn:E2; [|done].
    destruct (a1 + a2 =? 0)%float eqn:Hz; [done|].
    by rewrite (F_main_loop_eq k1 k2 t_max more), Hg, E1, E2, Hz.
  - simpl app. rewrite (F_main_loop_eq k1 k2 t_max (d :: draws ++ more)).
    rewrite (F_main_loop_eq k1 k2 t_max (d :: draws)).
    destruct (Fundamentals.t s <? t_max)%float; [|done].
    destruct (Fundamentals.a1_of k2 s) as [a1|]; [|done].
    destruct (Fundamentals.a2_of k1 s) as [a2|]; [|done].
    destruct (a1 + a2 =? 0)%float; [done|]. apply IH.
Qed.

Lemma apply_reaction_inv (n n' : gmap string Z) (r : VitalOrgan.reaction) :
  VitalOrgan.apply_reaction n r = Ok n' ->
  exists c_from c_to,
    n !! VitalOrgan.from r = Some c_from /\
    <[VitalOrgan.from r := c_from - 1]> n !! VitalOrgan.to r = Some c_to /\
    n' = <[VitalOrgan.to r := c_to + 1]>
           (<[VitalOrgan.from r := c_from - 1]> n).
Proof.
  unfold VitalOrgan.apply_reaction. intros Happ.
  destruct (getitem n (VitalOrgan.from r)) as [c_from|] eqn:Hfrom;
    simpl in Happ; [|done].
  destruct (getitem _ (VitalOrgan.to r)) as [c_to|] eqn:Hto;
    simpl in Happ; [|done].
  injection Happ as <-. apply getitem_Ok in Hfrom, Hto.
  by exists c_from, c_to.
Qed.

Lemma V_main_loop_prefix (reactions : list VitalOrgan.reaction)
    (t_max : float) (draws : list draw) (s s' : VitalOrgan.locals) :
  carried (VitalOrgan.main_loop reactions t_max draws s) = Some s' ->
  VitalOrgan.times s `prefix_of` VitalOrgan.times s' /\
  forall k l, VitalOrgan.n_history s !! k = Some l ->
    exists l', VitalOrgan.n_history s' !! k = Some l' /\ l `prefix_of` l'.
Proof.
  revert s. induction draws as [|d draws IH]; intros s;
    rewrite V_main_loop_eq;
    destruct (VitalOrgan.t s <? t_max)%float;
    try (simpl; intros; simplify_eq; by eauto);
    destruct (VitalOrgan.calc_propensities _ _) as [ps|]; try done;
    destruct (py_sum ps =? 0)%float;
    try (simpl; intros; simplify_eq; by eauto).
  destruct (VitalOrgan.event _ _ _ _ _) as [s1|] eqn:Hev; [|done].
  intros Hrun. apply IH in Hrun as [Ht Hh].
  apply V_event_Ok in Hev as (n' & -> & _). simpl in *.
  split; [etrans; [apply prefix_app_r; reflexivity | done]|].
  intros k l Hl.
  destruct (Hh k (match VitalOrgan.clamp n' !! k with
                  | Some c => l ++ [c] | None => l end))
    as (l' & Hl' & Hpre).
  { rewrite lookup_recorded, Hl.
    by destruct (VitalOrgan.clamp n' !! k). }
  exists l'. split; [done|].
  destruct (VitalOrgan.clamp n' !! k);
    [etrans; [apply prefix_app_r; reflexivity | done] | done].
Qed.

Lemma V_main_loop_app (reactions : list VitalOrgan.reaction) (t_max : float)
    (draws more : list draw) (s : VitalOrgan.locals) :
  VitalOrgan.main_loop reactions t_max (draws ++ more) s
  = match VitalOrgan.main_loop reactions t_max draws s with
    | Pending s' => VitalOrgan.main_loop reactions t_max more s'
    | o => o
    end.
Proof.
  revert s. induction draws as [|d draws IH]; intros s.
  - simpl app. rewrite (V_main_loop_eq reactions t_max []).
    rewrite (V_main_loop_eq reactions t_max more).
    destruct (VitalOrgan.t s <? t_max)%float eqn:Hg; [|done].
    destruct (VitalOrgan.calc_propensities _ _) as [ps|] eqn:Hps; [|done].
    destruct (py_sum ps =? 0)%float eqn:Hz; [done|].
    by rewrite (V_main_loop_eq reactions t_max more), Hg, Hps, Hz.
  - simpl app. rewrite (V_main_loop_eq reactions t_max (d :: draws ++ more)).
    rewrite (V_main_loop_eq reactions t_max (d :: draws)).
    destruct (VitalOrgan.t s <? t_max)%float; [|done].
    destruct (VitalOrgan.calc_propensities _ _) as [ps|]; [|done].
    destruct (py_sum ps =? 0)%float; [done|].
    destruct (VitalOrgan.event _ _ _ _ _); [apply IH | done].
Qed.

(** X1, the recorded past is kept.  Every trajectory starts with the initial
    snapshot (time 0, the dose in Heart, 0 elsewhere), and events only
    append: the trajectory of a run is a prefix, array by array, of the
    trajectory of the run continued with more draws.  Short runs raise
    nothing, and carry both trajectories. *)
Theorem recorded_past_kept (D : Z) (k1 k2 : float)
    (rate_constants : gmap string float) (t_max : float)
    (draws more : list draw) :
  ensures (fun traj : Fundamentals.trajectory =>
             [0%float] `prefix_of` traj.1.1 /\ [D] `prefix_of` traj.1.2 /\
             [0] `prefix_of` traj.2 /\
             ensures (fun traj' : Fundamentals.trajectory =>
                        traj.1.1 `prefix_of` traj'.1.1 /\
                        traj.1.2 `prefix_of` traj'.1.2 /\
                        traj.2 `prefix_of` traj'.2)
               (Fundamentals.simulate_stochastic_pk_model D k1 k2 t_max
                  (draws ++ more)))
    (Fundamentals.simulate_stochastic_pk_model D k1 k2 t_max draws) /\
  ensures (fun traj : VitalOrgan.trajectory =>
             [0%float] `prefix_of` traj.1 /\
             (forall k c, VitalOrgan.initial_counts D !! k = Some c ->
                exists l, traj.2 !! k = Some l /\ [c] `prefix_of` l) /\
             ensures (fun traj' : VitalOrgan.trajectory =>
                        traj.1 `prefix_of` traj'.1 /\
                        forall k l, traj.2 !! k = Some l ->
                          exists l', traj'.2 !! k = Some l' /\
                                     l `prefix_of` l')
               (VitalOrgan.simulate_stochastic_pk_model D rate_constants
                  t_max (draws ++ more)))
    (VitalOrgan.simulate_stochastic_pk_model D rate_constants t_max draws) /\
  (small_run D (draws ++ more) ->
   (exists traj traj',
      carried (Fundamentals.simulate_stochastic_pk_model D k1 k2 t_max draws)
        = Some traj /\
      carried (Fundamentals.simulate_stochastic_pk_model D k1 k2 t_max
                 (draws ++ more)) = Some traj') /\
   (has_rates rate_constants ->
    exists traj traj',
      carried (VitalOrgan.simulate_stochastic_pk_model D rate_constants
                 t_max draws) = Some traj /\
      carried (VitalOrgan.simulate_stochastic_pk_model D rate_constants
                 t_max (draws ++ more)) = Some traj')).
Proof.
  split; [|split].
  - apply ensures_carried. intros traj.
    unfold Fundamentals.simulate_stochastic_pk_model.
    rewrite carried_map, F_main_loop_app.
    destruct (Fundamentals.main_loop k1 k2 t_max draws
                (Fundamentals.initial D)) as [s|s|e] eqn:Hrun;
      simpl; intros [= <-].
    + pose proof (F_main_loop_prefix k1 k2 t_max draws
                    (Fundamentals.initial D) s) as (Hp1 & Hp2 & Hp3);
        [by rewrite Hrun|].
      by repeat split.
    + pose proof (F_main_loop_prefix k1 k2 t_max draws
                    (Fundamentals.initial D) s) as (Hp1 & Hp2 & Hp3);
        [by rewrite Hrun|].
      repeat split; try done.
      apply ensures_carried. intros traj'. rewrite carried_map.
      destruct (carried _) as [s'|] eqn:Hmore; [|done]. intros [= <-].
      by apply F_main_loop_prefix in Hmore.
  - apply ensures_carried. intros traj.
    unfold VitalOrgan.simulate_stochastic_pk_model.
    destruct (VitalOrgan.reactions_of rate_constants) as [reactions|] eqn:Hre;
      [|done].
    rewrite carried_map, V_main_loop_app.
    destruct (VitalOrgan.main_loop reactions t_max draws
                (VitalOrgan.initial D)) as [s|s|e] eqn:Hrun;
      simpl; intros [= <-];
      (pose proof (V_main_loop_prefix reactions t_max draws
                     (VitalOrgan.initial D) s) as (Hp1 & Hp2);
       [by rewrite Hrun|]); simpl.
    + split; [done|]. split.
      { intros k c Hc. apply (Hp2 k [c]). simpl.
        by rewrite lookup_fmap, Hc. }
      split; [done|]. intros k l Hl. by exists l.
    + split; [done|]. split.
      { intros k c Hc. apply (Hp2 k [c]). simpl.
        by rewrite lookup_fmap, Hc. }
      apply ensures_carried. intros traj'. rewrite carried_map.
      destruct (carried _) as [s'|] eqn:Hmore; [|done]. intros [= <-].
      by apply V_main_loop_prefix in Hmore.
  - intros Hsmall.
    assert (small_run D draws) as Hsmall'.
    { unfold small_run in *. rewrite length_app in Hsmall. lia. }
    split.
    + destruct (F_run_small D k1 k2 t_max draws Hsmall') as [traj Ht].
      destruct (F_run_small D k1 k2 t_max (draws ++ more) Hsmall)
        as [traj' Ht'].
      by exists traj, traj'.
    + intros Hhas.
      destruct (V_run_small D rate_constants t_max draws Hhas Hsmall')
        as [traj Ht].
      destruct (V_run_small D rate_constants t_max (draws ++ more) Hhas
                  Hsmall) as [traj' Ht'].
      by exists traj, traj'.
Qed.

(** ** The horizon *)

Lemma below_horizon_snoc (t_max : float) (times : list float) (x y : float) :
  below_horizon t_max times -> last times = Some x ->
  flt x t_max -> below_horizon t_max (times ++ [y]).
Proof.
  intros (earlier & final & -> & Hall) Hlast Hx.
  rewrite last_snoc in Hlast. injection Hlast as ->.
  exists (earlier ++ [x]), y. split; [done|].
  apply Forall_app. split; [done|]. by apply Forall_singleton.
Qed.

(** X2, the horizon.  In every run every recorded time but the last is below
    [t_max]: the last event may overshoot the horizon, and its time is
    recorded as it is.  A loop that returned ended for one of two reasons:
    its clock is not below the horizon, or its total propensity is zero; a
    loop that ran out of draws has its clock below the horizon and a total
    propensity that is not zero; the two-compartment loop raises nothing but
    [OverflowError]. *)
Theorem horizon_overshoot (D : Z) (k1 k2 : float)
    (rate_constants : gmap string float) (t_max : float)
    (draws : list draw) :
  ensures (fun traj : Fundamentals.trajectory => below_horizon t_max traj.1.1)
    (Fundamentals.simulate_stochastic_pk_model D k1 k2 t_max draws) /\
  ensures (fun traj : VitalOrgan.trajectory => below_horizon t_max traj.1)
    (VitalOrgan.simulate_stochastic_pk_model D rate_constants t_max draws) /\
  match Fundamentals.main_loop k1 k2 t_max draws (Fundamentals.initial D) with
  | Returned s =>
      ~ flt (Fundamentals.t s) t_max \/
      exists a1 a2,
        Fundamentals.a1_of k2 s = Ok a1 /\ Fundamentals.a2_of k1 s = Ok a2 /\
        feq (a1 + a2) 0
  | Pending s =>
      flt (Fundamentals.t s) t_max /\
      exists a1 a2,
        Fundamentals.a1_of k2 s = Ok a1 /\ Fundamentals.a2_of k1 s = Ok a2 /\
        ~ feq (a1 + a2) 0
  | Raised e => e = OverflowError
  end /\
  forall reactions,
    match VitalOrgan.main_loop reactions t_max draws (VitalOrgan.initial D)
    with
    | Returned s =>
        ~ flt (VitalOrgan.t s) t_max \/
        exists ps,
          VitalOrgan.calc_propensities (VitalOrgan.n s) reactions = Ok ps /\
          feq (py_sum ps) 0
    | Pending s =>
        flt (VitalOrgan.t s) t_max /\
        exists ps,
          VitalOrgan.calc_propensities (VitalOrgan.n s) reactions = Ok ps /\
          ~ feq (py_sum ps) 0
    | Raised _ => True
    end.
Proof.
  split; [|split; [|split]].
  - eapply ensures_impl;
      [|apply (F_run (fun _ => True)
                 (fun s => last (Fundamentals.times s)
                           = Some (Fundamentals.t s) /\
                           below_horizon t_max (Fundamentals.times s))
                 D k1 k2 t_max draws)].
    + by intros traj (s & -> & _ & Hbelow).
    + intros s d a1 a2 [Hlast Hbelow] _ Hguard _ _ _. split.
      * simpl. by rewrite last_snoc.
      * simpl. by eapply below_horizon_snoc.
    + by apply Forall_true.
    + split; [done|]. exists [], 0%float. by split.
  - eapply ensures_impl;
      [|apply (V_run (fun _ => True)
                 (fun s => last (VitalOrgan.times s) = Some (VitalOrgan.t s) /\
                           below_horizon t_max (VitalOrgan.times s))
                 D rate_constants t_max draws)].
    + by intros traj (s & -> & _ & Hbelow).
    + intros reactions s d ps n' _ [Hlast Hbelow] _ _ Hguard _ _ _. split.
      * simpl. by rewrite last_snoc.
      * simpl. by eapply below_horizon_snoc.
    + by apply Forall_true.
    + split; [done|]. exists [], 0%float. by split.
  - destruct (Fundamentals.main_loop k1 k2 t_max draws
                (Fundamentals.initial D)) as [s|s|e] eqn:Hrun.
    + by eapply F_returned_inv.
    + by eapply F_pending_inv.
    + by eapply F_main_loop_raises.
  - intros reactions.
    destruct (VitalOrgan.main_loop reactions t_max draws
                (VitalOrgan.initial D)) as [s|s|e] eqn:Hrun; [| |done].
    + by eapply V_returned_inv.
    + by eapply V_pending_inv.
Qed.

(** ** Jumps *)

Lemma snapshots_recorded (n_history : gmap string (list Z))
    (n : gmap string Z) (len : nat) :
  dom n_history = dom n ->
  (forall k l, n_history !! k = Some l -> length l = len) ->
  snapshots (merge VitalOrgan.append_count n_history n) (S len)
  = snapshots n_history len ++ [n].
Proof.
  intros Hdom Hlen. unfold snapshots.
  rewrite seq_S, fmap_app. simpl. f_equal.
  - apply list_fmap_ext. intros i j [-> Hj]%lookup_seq.
    by apply (snapshot_recorded_old _ _ len).
  - by rewrite snapshot_recorded_new.
Qed.

Lemma snapshots_initial (n0 : gmap string Z) :
  snapshots ((fun count => [count]) <$> n0) 1 = [n0].
Proof.
  unfold snapshots. simpl. f_equal.
  apply map_eq. intros k. unfold snapshot.
  rewrite lookup_omap, lookup_fmap. by destruct (n0 !! k).
Qed.





Lemma reactions_of_irreflexive (rate_constants : gmap string float)
    (reactions : list VitalOrgan.reaction) :
  VitalOrgan.reactions_of rate_constants = Ok reactions ->
  irreflexive reactions.
Proof.
  unfold VitalOrgan.reactions_of, getitem. intros H.
  repeat (match type of H with
          | context [rate_constants !! ?key] =>
              destruct (rate_constants !! key) eqn:?; simpl in H; [|done]
          end).
  injection H as <-. unfold irreflexive.
  repeat (apply Forall_cons_2; [done|]). apply Forall_nil_2.
Qed.

(** A propensity that is not a zero has a rate that is not a zero. *)
Lemma propensity_rate_nonzero (rate : float) (c : Z) (p : float) :
  mul_int rate c = Ok p -> ~ feq p 0 -> ~ feq rate 0.
Proof.
  intros (x & Hx & ->)%mul_int_Ok Hne Hz. apply Hne.
  apply float_of_int_Ok in Hx as (_ & Hfin & _). by apply mul_zero_l.
Qed.

(** The step of the two-compartment simulator on a valid configuration, with
    the rate of Heart to Lung. *)
Lemma F_rated_event (k1 k2 : float) (d : draw) (s : Fundamentals.locals)
    (a1 a2 : float) :
  valid_rate k1 -> valid_rate k2 -> fle 0 (r2 d) ->
  Fundamentals.a1_of k2 s = Ok a1 -> Fundamentals.a2_of k1 s = Ok a2 ->
  F_stepwise (F_rated_step k2) s ->
  F_stepwise (F_rated_step k2) (Fundamentals.event (a1 + a2) a1 d s).
Proof.
  intros Hk1 Hk2 Hr2 Ha1 Ha2 (H1 & H2 & Hlast & Hlen & Hadj).
  pose proof (F_react_valid k1 k2 (r2 d) _ _ a1 a2 Hk1 Hk2 Hr2 H1 H2 Ha1 Ha2)
    as Hcase.
  cbv zeta in Hcase.
  unfold F_stepwise, Fundamentals.event.
  cbn [Fundamentals.n1 Fundamentals.n2 Fundamentals.n1_values
       Fundamentals.n2_values].
  set (c := Fundamentals.clamp _) in *.
  pose proof (F_clamp_nonneg
    (Fundamentals.react (r2 d) (a1 + a2) a1
       (Fundamentals.n1 s, Fundamentals.n2 s))) as [Hc1 Hc2].
  fold c in Hc1, Hc2.
  split; [done|]. split; [done|].
  rewrite zip_snoc by done. rewrite last_snoc.
  split; [done|]. split; [rewrite !length_app; simpl; lia|].
  eapply adjacent_snoc; [done | done |].
  unfold F_rated_step. cbn [fst snd].
  destruct Hcase
    as [(Hsel & Hge & Hr & Hc) | [(_ & Hge & Hr & Hc) | (_ & Hz & Hr & Hc)]].
  - left. split; [|split; [done | by rewrite Hc, Hr]].
    apply (propensity_rate_nonzero k2 (Fundamentals.n1 s) a1); [done|].
    eapply above_not_zero; [|exact Hsel].
    apply mul_not_negative; [by apply fle_0_not_negative|].
    apply add_not_negative.
    + by apply (mul_int_not_negative k2 (Fundamentals.n1 s)).
    + by apply (mul_int_not_negative k1 (Fundamentals.n2 s)).
  - right. left. split; [done|]. by rewrite Hc, Hr.
  - right. right. split; [done|]. by rewrite Hc.
Qed.

(** On a valid configuration an event of the multi-compartment loop leaves
    the counts as they were or is a transfer by a reaction whose rate is not
    zero, and the clamp changes nothing. *)
Lemma V_event_transfer (reactions : list VitalOrgan.reaction)
    (ps : list float) (r2 : float) (n n' : gmap string Z) :
  closed reactions n -> nonneg n -> rates_valid reactions ->
  irreflexive reactions ->
  Forall2 (propensity_of n) reactions ps ->
  fle 0 r2 ->
  VitalOrgan.determine_reaction reactions ps 0 (r2 * py_sum ps) n = Ok n' ->
  kept_or_transferred reactions n n' /\
  nonneg n' /\ dom n' = dom n /\ VitalOrgan.clamp n' = n'.
Proof.
  intros Hcl Hnn Hrates Hirr Hps Hr2 Hdet.
  destruct (selection_valid n reactions ps r2 Hcl Hnn Hrates Hps Hr2)
    as [(i & r & p & c & n'' & Hr & Hp & Hpne & _ & Hc & Hge & Hdet' &
         Happ & Hdom & _ & Hnn' & Hclamp) | [_ Hdet']].
  - assert (n'' = n') as -> by congruence.
    pose proof (list_elem_of_lookup_2 _ _ _ Hr) as Hin.
    pose proof (proj1 (Forall_forall _ _) Hirr r Hin) as Hdiff.
    destruct (Forall2_lookup_lr _ _ _ _ _ _ Hps Hr Hp)
      as (c' & x & Hc' & Hx & Hpx).
    destruct (apply_reaction_inv _ _ _ Happ) as (cf & ct & Hcf & Hct & Heq).
    rewrite lookup_insert_ne in Hct by done.
    assert (cf = c) as -> by congruence.
    split; [|done]. right.
    exists r, c, ct. repeat split; try done.
    apply (propensity_rate_nonzero (VitalOrgan.rate r) c' p); [|done].
    unfold mul_int. rewrite Hx. simpl. by rewrite Hpx.
  - assert (n' = n) as -> by congruence.
    split; [by left|]. split; [done|]. split; [done | by apply clamp_id].
Qed.

Lemma V_jumps_event (reactions : list VitalOrgan.reaction)
    (ps : list float) (d : draw) (s : VitalOrgan.locals)
    (n' : gmap string Z) :
  well_formed reactions s -> rates_valid reactions ->
  irreflexive reactions -> fle 0 (r2 d) ->
  Forall2 (propensity_of (VitalOrgan.n s)) reactions ps ->
  VitalOrgan.determine_reaction reactions ps 0 (r2 d * py_sum ps)
    (VitalOrgan.n s) = Ok n' ->
  V_jumps reactions s -> V_jumps reactions (after_event (py_sum ps) d s n').
Proof.
  intros [Hcl Hdom] Hrates Hirr Hr2 Hps Hdet (Hnn & Hlen & Hlast & Hadj).
  destruct (V_event_transfer _ _ _ _ _ Hcl Hnn Hrates Hirr Hps Hr2 Hdet)
    as (Hmove & Hnn' & Hdom' & Hclamp).
  unfold V_jumps, after_event. cbn [VitalOrgan.n VitalOrgan.times
    VitalOrgan.n_history]. rewrite Hclamp, length_app. simpl.
  replace (length (VitalOrgan.times s) + 1)%nat
    with (S (length (VitalOrgan.times s))) by lia.
  assert (dom (VitalOrgan.n_history s) = dom n') as Hd by congruence.
  rewrite snapshots_recorded by done.
  split; [done|]. split; [by apply recorded_length|].
  split; [by rewrite last_snoc|].
  by eapply adjacent_snoc.
Qed.

Lemma V_jumps_initial (reactions : list VitalOrgan.reaction) (D : Z) :
  0 <= D -> V_jumps reactions (VitalOrgan.initial D).
Proof.
  intros HD. unfold V_jumps, VitalOrgan.initial, VitalOrgan.initial_of.
  cbn [VitalOrgan.n VitalOrgan.times VitalOrgan.n_history length].
  rewrite snapshots_initial.
  split; [by apply nonneg_initial_counts|]. split; [|done].
  intros k l. rewrite lookup_fmap.
  destruct (_ !! k); simpl; intros; by simplify_eq.
Qed.

Lemma F_run_rated (D : Z) (k1 k2 t_max : float) (draws : list draw) :
  0 <= D -> valid_rate k1 -> valid_rate k2 -> Forall valid_draw draws ->
  ensures (fun traj : Fundamentals.trajectory =>
             length traj.1.2 = length traj.2 /\
             adjacent (F_rated_step k2) (zip traj.1.2 traj.2))
    (Fundamentals.simulate_stochastic_pk_model D k1 k2 t_max draws).
Proof.
  intros HD Hk1 Hk2 Hdraws.
  eapply ensures_impl;
    [|apply (F_run valid_draw (F_stepwise (F_rated_step k2))
               D k1 k2 t_max draws)].
  - intros traj (s & -> & _ & _ & _ & Hlen & Hadj). by simpl.
  - intros s d a1 a2 Hst (_ & _ & [Hr2 _]) _ Ha1 Ha2 _.
    by apply (F_rated_event k1 k2).
  - done.
  - by apply F_stepwise_initial.
Qed.

Lemma V_run_jumps (D : Z) (rate_constants : gmap string float)
    (reactions : list VitalOrgan.reaction) (t_max : float)
    (draws : list draw) :
  0 <= D -> valid_rates rate_constants -> Forall valid_draw draws ->
  VitalOrgan.reactions_of rate_constants = Ok reactions ->
  ensures (fun traj => exists s,
             traj = VitalOrgan.returned_arrays s /\ V_jumps reactions s)
    (VitalOrgan.simulate_stochastic_pk_model D rate_constants t_max draws).
Proof.
  intros HD Hrates Hdraws Hre.
  destruct (reactions_of_valid _ Hrates) as (reactions' & Hre' & Hvalid).
  assert (reactions' = reactions) as -> by congruence.
  pose proof (reactions_of_irreflexive _ _ Hre) as Hirr.
  apply (V_run valid_draw (V_jumps reactions)); [|done|].
  - intros reactions' s d ps n' Hre'' Hj Hwf (_ & _ & [Hr2 _]) _ Hps _ Hdet.
    assert (reactions' = reactions) as -> by congruence.
    eapply V_jumps_event; try done. by apply calc_propensities_Ok.
  - by apply V_jumps_initial.
Qed.

(** X3, jumps.  On a valid configuration two consecutive recorded snapshots
    of the five-compartment simulator are equal (the scan selected no
    reaction) or differ by one molecule that went from a compartment that
    held at least one to another compartment, by a reaction whose rate is not
    zero.  In the two-compartment simulator they differ by such a molecule
    from the Heart to the Lung, at a rate [k2] that is not zero, or from the
    Lung to the Heart, or by one molecule more in the Heart next to an empty
    Lung. *)
Theorem unit_jumps (D : Z) (k1 k2 : float)
    (rate_constants : gmap string float)
    (reactions : list VitalOrgan.reaction) (t_max : float)
    (draws : list draw) :
  0 <= D -> valid_rate k1 -> valid_rate k2 -> valid_rates rate_constants ->
  Forall valid_draw draws ->
  VitalOrgan.reactions_of rate_constants = Ok reactions ->
  ensures (fun traj : Fundamentals.trajectory =>
             adjacent (F_rated_step k2) (zip traj.1.2 traj.2))
    (Fundamentals.simulate_stochastic_pk_model D k1 k2 t_max draws) /\
  ensures (fun traj : VitalOrgan.trajectory =>
             adjacent (kept_or_transferred reactions)
               (snapshots traj.2 (length traj.1)))
    (VitalOrgan.simulate_stochastic_pk_model D rate_constants t_max draws).
Proof.
  intros HD Hk1 Hk2 Hrates Hdraws Hre. split.
  - eapply ensures_impl; [|by apply F_run_rated]. by intros traj [_ Hadj].
  - eapply ensures_impl; [|by eapply V_run_jumps].
    by intros traj (s & -> & _ & _ & _ & Hadj).
Qed.

(** X3: the theorem on concrete inputs. *)
Lemma unit_jumps_witness :
  ensures (fun traj : Fundamentals.trajectory =>
             adjacent (F_rated_step 0.5) (zip traj.1.2 traj.2))
    (Fundamentals.simulate_stochastic_pk_model 100 0.5 0.5 20
       example_draws) /\
  ensures (fun traj : VitalOrgan.trajectory =>
             adjacent (kept_or_transferred example_reactions)
               (snapshots traj.2 (length traj.1)))
    (VitalOrgan.simulate_stochastic_pk_model 1000 example_rate_constants 50
       example_draws).
Proof.
  split.
  - apply (unit_jumps 100 0.5 0.5 example_rate_constants example_reactions 20
             example_draws);
      [lia | by vm_compute | by vm_compute | apply example_rate_constants_valid
      | apply example_draws_valid | apply example_reactions_of].
  - apply (unit_jumps 1000 0.5 0.5 example_rate_constants example_reactions
             50 example_draws);
      [lia | by vm_compute | by vm_compute | apply example_rate_constants_valid
      | apply example_draws_valid | apply example_reactions_of].
Defined.







(** ** What the scripts print, and what they read *)

Lemma getitem_last_Some {A : Type} (xs : list A) (x : A) :
  last xs = Some x -> getitem_last xs = Ok x.
Proof. intros H. unfold getitem_last. by rewrite H. Qed.

Lemma V_final_counts_snapshot (n_history : gmap string (list Z)) (len : nat) :
  (forall k l, n_history !! k = Some l -> length l = S len) ->
  V_final_counts n_history = Ok (snapshot n_history len).
Proof.
  intros Hlen. unfold V_final_counts. rewrite decide_True.
  - f_equal. apply map_eq. intros k. unfold snapshot. rewrite !lookup_omap.
    destruct (n_history !! k) as [l|] eqn:Hl; [|done]. simpl.
    by rewrite last_lookup, (Hlen k l).
  - intros k l Hl ->. by apply Hlen in Hl.
Qed.

(** An event of the two-compartment loop on a valid configuration does not
    lower the sum of the counts. *)
Lemma F_total_event (k1 k2 : float) (d : draw) (s : Fundamentals.locals)
    (a1 a2 : float) (D : Z) :
  valid_rate k1 -> valid_rate k2 -> fle 0 (r2 d) ->
  Fundamentals.a1_of k2 s = Ok a1 -> Fundamentals.a2_of k1 s = Ok a2 ->
  0 <= Fundamentals.n1 s -> 0 <= Fundamentals.n2 s ->
  D <= Fundamentals.n1 s + Fundamentals.n2 s ->
  let s' := Fundamentals.event (a1 + a2) a1 d s in
  D <= Fundamentals.n1 s' + Fundamentals.n2 s'.
Proof.
  intros Hk1 Hk2 Hr2 Ha1 Ha2 H1 H2 HD s'.
  pose proof (F_react_valid k1 k2 (r2 d) _ _ a1 a2 Hk1 Hk2 Hr2 H1 H2 Ha1 Ha2)
    as Hcase.
  cbv zeta in Hcase. unfold s', Fundamentals.event.
  cbn [Fundamentals.n1 Fundamentals.n2].
  destruct Hcase
    as [(_ & _ & Hr & Hc) | [(_ & _ & Hr & Hc) | (_ & Hz & Hr & Hc)]];
    rewrite Hc; try rewrite Hr; simpl; lia.
Qed.

(** X6, the final counts the scripts print.  After any run on a valid
    configuration, reading the last entry of each history never raises
    [IndexError]; the final counts are non-negative; those of the
    five-compartment script add up to the dose, those of the two-compartment
    script to the dose or more.  A short run does not raise. *)
Theorem final_counts_printed (D : Z) (k1 k2 : float)
    (rate_constants : gmap string float) (t_max : float)
    (draws : list draw) :
  0 <= D -> valid_rate k1 -> valid_rate k2 -> valid_rates rate_constants ->
  Forall valid_draw draws ->
  ensures (fun traj : Fundamentals.trajectory =>
             exists c1 c2,
               F_final_counts traj = Ok (c1, c2) /\
               0 <= c1 /\ 0 <= c2 /\ D <= c1 + c2)
    (Fundamentals.simulate_stochastic_pk_model D k1 k2 t_max draws) /\
  ensures (fun traj : VitalOrgan.trajectory =>
             exists m,
               V_final_counts traj.2 = Ok m /\
               dom m = organ_keys /\ nonneg m /\ total m = D)
    (VitalOrgan.simulate_stochastic_pk_model D rate_constants t_max draws) /\
  (small_run D draws ->
   (exists traj,
      carried (Fundamentals.simulate_stochastic_pk_model D k1 k2 t_max draws)
        = Some traj) /\
   (exists traj,
      carried (VitalOrgan.simulate_stochastic_pk_model D rate_constants
                 t_max draws) = Some traj)).
Proof.
  intros HD Hk1 Hk2 Hrates Hdraws. split; [|split].
  - eapply ensures_impl;
      [|apply (F_run valid_draw
                 (fun s => F_tracks s /\ F_nonneg s /\
                           D <= Fundamentals.n1 s + Fundamentals.n2 s)
                 D k1 k2 t_max draws)].
    + intros traj (s & -> & (_ & Hl1 & Hl2) & (H1 & H2 & _) & Hsum).
      exists (Fundamentals.n1 s), (Fundamentals.n2 s).
      split; [|done]. unfold F_final_counts. simpl.
      by rewrite (getitem_last_Some _ _ Hl1), (getitem_last_Some _ _ Hl2).
    + intros s d a1 a2 (_ & Hnn & Hsum) (_ & _ & [Hr2 _]) _ Ha1 Ha2 _.
      split; [apply F_tracks_event|]. split; [by apply F_nonneg_event|].
      destruct Hnn as (H1 & H2 & _).
      by apply (F_total_event k1 k2).
    + done.
    + split; [apply F_tracks_initial|].
      split; [by apply F_initial_nonneg | simpl; lia].
  - destruct (reactions_of_valid _ Hrates) as (reactions & Hre & Hvalid).
    eapply ensures_impl;
      [|apply (V_run valid_draw
                 (fun s => V_recorded (conserved D) s /\
                           (0 < length (VitalOrgan.times s))%nat)
                 D rate_constants t_max draws)].
    + intros traj (s & -> & (Hlen & _ & Hsnap) & Hpos).
      destruct (length (VitalOrgan.times s)) as [|len] eqn:Hlen'; [lia|].
      exists (snapshot (VitalOrgan.n_history s) len).
      split; [by apply V_final_counts_snapshot|].
      apply Hsnap. lia.
    + intros reactions' s d ps n' Hre' [Hrec _] Hwf (_ & _ & [Hr2 _]) _ Hps
        _ Hdet.
      assert (reactions' = reactions) as -> by congruence.
      destruct (V_conserved_event D reactions d s ps n' Hvalid Hwf Hr2 Hps
                  Hdet) as (Hcons & Hclamp & Hdom); [apply Hrec|].
      split; [|simpl; rewrite length_app; simpl; lia].
      apply (V_recorded_event _ reactions); try done. by rewrite Hclamp.
    + done.
    + split; [|simpl; lia].
      apply V_recorded_initial. split; [apply initial_counts_dom|].
      split; [by apply nonneg_initial_counts | apply total_initial_counts].
  - intros Hsmall. split; [by apply F_run_small|].
    apply V_run_small; [by apply valid_rates_has | done].
Qed.

(** X6: the theorem on concrete inputs. *)
Lemma final_counts_printed_witness :
  ensures (fun traj : Fundamentals.trajectory =>
             exists c1 c2,
               F_final_counts traj = Ok (c1, c2) /\
               0 <= c1 /\ 0 <= c2 /\ 100 <= c1 + c2)
    (Fundamentals.simulate_stochastic_pk_model 100 0.5 0.5 20
       example_draws) /\
  ensures (fun traj : VitalOrgan.trajectory =>
             exists m,
               V_final_counts traj.2 = Ok m /\
               dom m = organ_keys /\ nonneg m /\ total m = 1000)
    (VitalOrgan.simulate_stochastic_pk_model 1000 example_rate_constants 50
       example_draws).
Proof.
  split.
  - apply (final_counts_printed 100 0.5 0.5 example_rate_constants 20
             example_draws);
      [lia | by vm_compute | by vm_compute | apply example_rate_constants_valid
      | apply example_draws_valid].
  - apply (final_counts_printed 1000 0.5 0.5 example_rate_constants 50
             example_draws);
      [lia | by vm_compute | by vm_compute | apply example_rate_constants_valid
      | apply example_draws_valid].
Defined.

(** X7, the rate dictionary is read at its eight keys only: two dictionaries
    that agree there give the same run, whatever else they hold. *)
Theorem other_keys_ignored (D : Z) (rate_constants other : gmap string float)
    (t_max : float) (draws : list draw) :
  Forall (fun key => rate_constants !! key = other !! key) rate_keys ->
  VitalOrgan.simulate_stochastic_pk_model D rate_constants t_max draws
  = VitalOrgan.simulate_stochastic_pk_model D other t_max draws.
Proof.
  intros H. unfold VitalOrgan.simulate_stochastic_pk_model.
  assert (VitalOrgan.reactions_of rate_constants
          = VitalOrgan.reactions_of other) as ->; [|done].
  unfold rate_keys in H. unfold VitalOrgan.reactions_of, getitem.
  repeat (let Hk := fresh "Hk" in
          apply Forall_cons in H as [Hk H]; rewrite Hk).
  done.
Qed.

(** X7: the theorem on concrete inputs. *)
Lemma other_keys_ignored_witness :
  VitalOrgan.simulate_stochastic_pk_model 1000
    (<["k_Heart_Spleen" := 3%float]> example_rate_constants) 50 example_draws
  = VitalOrgan.simulate_stochastic_pk_model 1000 example_rate_constants 50
      example_draws.
Proof.
  apply other_keys_ignored. unfold rate_keys.
  repeat (apply Forall_cons_2; [reflexivity|]). apply Forall_nil_2.
Defined.

(** ** The differential equations *)

(** X14, the differential equations and the stochastic script agree on the
    rates.  At unit volumes, on the counts of a state of the two-compartment
    simulator (as floats), the derivative of the Heart is the propensity of
    Lung to Heart minus that of Heart to Lung, and the derivative of the Lung
    is the propensity of Heart to Lung minus that of Lung to Heart: in both
    scripts [k2] is the rate out of the Heart and [k1] the rate back. *)
Theorem drift_matches_propensities (k1 k2 t : float)
    (s : Fundamentals.locals) (x1 x2 : float) :
  float_of_int (Fundamentals.n1 s) = Ok x1 ->
  float_of_int (Fundamentals.n2 s) = Ok x2 ->
  exists a1 a2,
    Fundamentals.a1_of k2 s = Ok a1 /\ Fundamentals.a2_of k1 s = Ok a2 /\
    Deterministic.pk_model [x1; x2] t k1 k2 1 1
      = inr [ (a2 - a1)%float; (a1 - a2)%float ].
Proof.
  intros H1 H2. exists (k2 * x1)%float, (k1 * x2)%float.
  unfold Fundamentals.a1_of, Fundamentals.a2_of, mul_int.
  rewrite H1, H2. simpl. split; [done|]. split; [done|].
  by rewrite !mul_1_r, !div_1_r.
Qed.

(** X14: the theorem on concrete inputs, the initial state of the script. *)
Lemma drift_matches_propensities_witness :
  exists a1 a2,
    Fundamentals.a1_of 0.5 (Fundamentals.initial 100) = Ok a1 /\
    Fundamentals.a2_of 0.5 (Fundamentals.initial 100) = Ok a2 /\
    Deterministic.pk_model [100; 0]%float 0 0.5 0.5 1 1
      = inr [ (a2 - a1)%float; (a1 - a2)%float ].
Proof.
  apply (drift_matches_propensities 0.5 0.5 0 (Fundamentals.initial 100)
           100 0); by vm_compute.
Defined.
